(** * fastcgi++ MySQL adapter (src/mysql.cpp): a shallow embedding

    The adapter binds typed row descriptions to the MySQL client library's
    prepared-statement interface.  The embedding follows src/mysql.cpp
    function by function.  Caller memory is addressed through symbolic
    pointers, the client library is a record of scripted responses, and
    every library call the adapter makes is appended to a log, so that
    statements about what was called, and in which order, are statements
    about that log. *)

From Stdlib Require Import ZArith Lia String List Bool.
From stdpp Require Import base list strings.
Import ListNotations.
Local Open Scope Z_scope.

(** ** Machine integers *)

(** [unsigned int] arithmetic wraps modulo 2^32. *)
Definition uint32 (x : Z) : Z := x mod 2 ^ 32.

(** Conversion of a 32-bit pattern to a signed 32-bit integer. *)
Definition int32 (x : Z) : Z :=
  let u := x mod 2 ^ 32 in if u <? 2 ^ 31 then u else u - 2 ^ 32.

(** Conversion to [unsigned short], as taken by the calendar constructors. *)
Definition uint16 (x : Z) : Z := x mod 2 ^ 16.

(** ** The calendar and time collaborator

    Dates and durations are Boost.Date_Time values.  The library is not part
    of the repository; the adapter uses its constructors and accessors, which
    are modelled here as the library documents them. *)

Module gregorian.

Record date := { date_year : Z; date_month : Z; date_day : Z }.

(** A [date] object, and likewise a [ptime], holds a day of the calendar or
    one of the library's special values; a default-constructed one holds
    [not_a_date_time].  On a special value the accessors [year()], [month()]
    and [day()] raise [std::out_of_range]: the year they compute from the day
    number lies outside the range of [greg_year]. *)
Inductive special_values := not_a_date_time | neg_infin | pos_infin.

Definition is_leap_year (y : Z) : bool :=
  ((y mod 4 =? 0) && negb (y mod 100 =? 0)) || (y mod 400 =? 0).

Definition end_of_month_day (y m : Z) : Z :=
  if m =? 2 then (if is_leap_year y then 29 else 28)
  else if (m =? 4) || (m =? 6) || (m =? 9) || (m =? 11) then 30
  else 31.

(** [date(y, m, d)]: the arguments are converted to [unsigned short]; the
    constructor raises [std::out_of_range] on a year outside 1400..10000, a
    month outside 1..12 or a day the month does not have ([None] here). *)
Definition make_date (y m d : Z) : option date :=
  let y := uint16 y in let m := uint16 m in let d := uint16 d in
  if (1400 <=? y) && (y <=? 10000) && (1 <=? m) && (m <=? 12)
     && (1 <=? d) && (d <=? end_of_month_day y m)
  then Some {| date_year := y; date_month := m; date_day := d |}
  else None.

End gregorian.

Module posix_time.

(** A duration is a signed count of ticks; the default resolution is one
    microsecond. *)
Record time_duration := { ticks : Z }.

Definition ticks_per_second : Z := 1000000.

(** [time_duration(hours, minutes, seconds)].  [hour_type], [min_type] and
    [sec_type] are 32-bit signed integers in the Boost releases of the time
    this code was written; an argument of another integer type is converted
    on the call.  When any component is negative the duration is the negated
    sum of the components' magnitudes (to_tick_count). *)
Definition make_time_duration (hours minutes seconds : Z) : time_duration :=
  let h := int32 hours in
  let m := int32 minutes in
  let s := int32 seconds in
  if (h <? 0) || (m <? 0) || (s <? 0)
  then {| ticks := (Z.abs h * 3600 + Z.abs m * 60 + Z.abs s) * ticks_per_second * -1 |}
  else {| ticks := (h * 3600 + m * 60 + s) * ticks_per_second |}.

(** Accessors; C++ division and remainder truncate toward zero, and the
    components are returned in their 32-bit types. *)
Definition hours (t : time_duration) : Z :=
  int32 (Z.quot (ticks t) (3600 * ticks_per_second)).
Definition minutes (t : time_duration) : Z :=
  int32 (Z.rem (Z.quot (ticks t) (60 * ticks_per_second)) 60).
Definition seconds (t : time_duration) : Z :=
  int32 (Z.rem (Z.quot (ticks t) ticks_per_second) 60).
Definition total_seconds (t : time_duration) : Z :=
  Z.quot (ticks t) ticks_per_second.

(** A timestamp as the adapter builds and reads it: a date and a time of
    day.  (The library adds the duration to the date's midnight; for a time
    of day below 24 hours the two components read back unchanged.) *)
Record ptime := { date : gregorian.date; time_of_day : time_duration }.

End posix_time.

(** ** The SQL kinds *)

Module Data.

(** Modelled from the spec: the enumeration [Data::Type] is declared in
    sqlTypes.hpp, which is not among the sources.  The spec lists the kinds,
    each with a nullable sibling; mysql.cpp fixes the arithmetic:
    [type - U_TINY_N] strips nullability, [type <= U_BIGINT] selects the
    unsigned integers and [type + TINY] is the signed sibling. *)
Inductive SqlType :=
| U_TINY | U_SHORT | U_INT | U_BIGINT
| TINY | SHORT | INT | BIGINT
| FLOAT | DOUBLE
| DATE | DATETIME | TIME
| BLOB | TEXT | WTEXT
| CHAR | BINARY
| U_TINY_N | U_SHORT_N | U_INT_N | U_BIGINT_N
| TINY_N | SHORT_N | INT_N | BIGINT_N
| FLOAT_N | DOUBLE_N
| DATE_N | DATETIME_N | TIME_N
| BLOB_N | TEXT_N | WTEXT_N
| CHAR_N | BINARY_N.

Definition all_types : list SqlType :=
  [ U_TINY; U_SHORT; U_INT; U_BIGINT; TINY; SHORT; INT; BIGINT; FLOAT; DOUBLE;
    DATE; DATETIME; TIME; BLOB; TEXT; WTEXT; CHAR; BINARY;
    U_TINY_N; U_SHORT_N; U_INT_N; U_BIGINT_N; TINY_N; SHORT_N; INT_N; BIGINT_N;
    FLOAT_N; DOUBLE_N; DATE_N; DATETIME_N; TIME_N; BLOB_N; TEXT_N; WTEXT_N;
    CHAR_N; BINARY_N ].

Definition SqlType_eqb (a b : SqlType) : bool :=
  match a, b with
  | U_TINY, U_TINY | U_SHORT, U_SHORT | U_INT, U_INT | U_BIGINT, U_BIGINT
  | TINY, TINY | SHORT, SHORT | INT, INT | BIGINT, BIGINT
  | FLOAT, FLOAT | DOUBLE, DOUBLE | DATE, DATE | DATETIME, DATETIME
  | TIME, TIME | BLOB, BLOB | TEXT, TEXT | WTEXT, WTEXT | CHAR, CHAR
  | BINARY, BINARY
  | U_TINY_N, U_TINY_N | U_SHORT_N, U_SHORT_N | U_INT_N, U_INT_N
  | U_BIGINT_N, U_BIGINT_N | TINY_N, TINY_N | SHORT_N, SHORT_N | INT_N, INT_N
  | BIGINT_N, BIGINT_N | FLOAT_N, FLOAT_N | DOUBLE_N, DOUBLE_N
  | DATE_N, DATE_N | DATETIME_N, DATETIME_N | TIME_N, TIME_N
  | BLOB_N, BLOB_N | TEXT_N, TEXT_N | WTEXT_N, WTEXT_N | CHAR_N, CHAR_N
  | BINARY_N, BINARY_N => true
  | _, _ => false
  end.

(** The enumerator's integer value: its position in the declaration. *)
Fixpoint index_of (t : SqlType) (l : list SqlType) : Z :=
  match l with
  | [] => 0
  | x :: l' => if SqlType_eqb t x then 0 else 1 + index_of t l'
  end.

Definition code (t : SqlType) : Z := index_of t all_types.
Global Arguments code : simpl never.

(** [Type(n)]: the enumerator with integer value [n], when there is one. *)
Definition of_code (n : Z) : option SqlType :=
  if n <? 0 then None else all_types !! Z.to_nat n.

(** What a field of a record holds in the caller's memory. *)
Inductive Value :=
| VInteger (z : Z)
| VFloating (bits : Z)
| VDate (d : gregorian.date)         (* a date that is a day of the calendar *)
| VSpecialDate (s : gregorian.special_values)        (* a date that is none *)
| VDatetime (p : posix_time.ptime)   (* a point in time on such a day *)
| VSpecialDatetime (s : gregorian.special_values)    (* a [ptime] that is none *)
| VTime (t : posix_time.time_duration)
| VBytes (bytes : list Z)            (* Blob, Text, fixed CHAR and BINARY *)
| VWide (chars : list Z).            (* Wtext: std::wstring *)

(** Modelled from the spec: [Data::Set] is declared in sqlTypes.hpp, which is
    not among the sources.  It is the row description "opaque to the core
    except through" [numberOfSqlElements], [getSqlType], [getSqlPtr] and
    [getSqlSize]; a field of a nullable kind is a record of a null indicator
    and the underlying value. *)
Record Field := {
  sqlType : SqlType;
  sqlSize : Z;
  nullness : bool;
  payload : Value
}.

Abbreviation Set_ := (list Field).

Definition numberOfSqlElements (set : Set_) : nat := length set.

Definition getSqlType (set : Set_) (i : nat) : Z :=
  match set !! i with Some f => code (sqlType f) | None => 0 end.

Definition getSqlSize (set : Set_) (i : nat) : Z :=
  match set !! i with Some f => sqlSize f | None => 0 end.

Definition with_payload (v : Value) (f : Field) : Field :=
  {| sqlType := sqlType f; sqlSize := sqlSize f; nullness := nullness f;
     payload := v |}.

Definition with_nullness (n : bool) (f : Field) : Field :=
  {| sqlType := sqlType f; sqlSize := sqlSize f; nullness := n;
     payload := payload f |}.

(** Modelled from the spec: [Data::SetContainerPar] is declared in
    sqlTypes.hpp.  [manufacture()] appends a default-constructed record and
    returns a handle to it, [trim()] discards the trailing record appended by
    the most recent [manufacture()]. *)
Record SetContainerPar := {
  blank : Set_;                 (* a default-constructed record *)
  records : list Set_
}.

Definition manufacture (c : SetContainerPar) : SetContainerPar :=
  {| blank := blank c; records := records c ++ [blank c] |}.

Definition trim (c : SetContainerPar) : SetContainerPar :=
  {| blank := blank c; records := removelast (records c) |}.

End Data.

(** ** The client library's column type codes and descriptor *)

(** The members of mysql.h's [enum_field_types] that the adapter uses;
    [MYSQL_TYPE_DECIMAL] is the member with value 0, which is what a
    zero-filled descriptor holds. *)
Inductive enum_field_types :=
| MYSQL_TYPE_DECIMAL
| MYSQL_TYPE_TINY | MYSQL_TYPE_SHORT | MYSQL_TYPE_LONG | MYSQL_TYPE_LONGLONG
| MYSQL_TYPE_FLOAT | MYSQL_TYPE_DOUBLE
| MYSQL_TYPE_DATE | MYSQL_TYPE_DATETIME | MYSQL_TYPE_TIME
| MYSQL_TYPE_BLOB | MYSQL_TYPE_STRING.

(** Width in bits of the fixed-width integer codes. *)
Definition integer_width (t : enum_field_types) : option Z :=
  match t with
  | MYSQL_TYPE_TINY => Some 8
  | MYSQL_TYPE_SHORT => Some 16
  | MYSQL_TYPE_LONG => Some 32
  | MYSQL_TYPE_LONGLONG => Some 64
  | _ => None
  end.

(** Addresses the adapter hands to the client library.  Column numbers are
    relative to the row description and conversion map of the side (parameter
    or result) being bound. *)
Inductive Ptr :=
| NULL
| SqlPtr (i : nat)                (* set.getSqlPtr(i) *)
| Nullness (i : nat)              (* &((NullablePar* )data)->nullness *)
| GetVoid (i : nat)               (* ((NullablePar* )data)->getVoid() *)
| Internal (i : nat)              (* &conv->internal of column i *)
| Length (i : nat)                (* &conv->length of column i *)
| DataFront (i : nat)             (* &data[0] of the caller's container *)
| InputBufferFront (i : nat)      (* &inputBuffer.front() of column i *)
| Rows.                           (* the caller's rows out-pointer *)

Record MYSQL_BIND := {
  bind_length : Ptr;
  is_null : Ptr;
  buffer : Ptr;
  buffer_length : Z;
  buffer_type : enum_field_types;
  is_unsigned : bool
}.

(** A descriptor after [memset(.., 0, ..)]. *)
Definition zero_bind : MYSQL_BIND :=
  {| bind_length := NULL; is_null := NULL; buffer := NULL;
     buffer_length := 0; buffer_type := MYSQL_TYPE_DECIMAL;
     is_unsigned := false |}.

Definition set_bind_length (p : Ptr) (b : MYSQL_BIND) : MYSQL_BIND :=
  {| bind_length := p; is_null := is_null b; buffer := buffer b;
     buffer_length := buffer_length b; buffer_type := buffer_type b;
     is_unsigned := is_unsigned b |}.
Definition set_is_null (p : Ptr) (b : MYSQL_BIND) : MYSQL_BIND :=
  {| bind_length := bind_length b; is_null := p; buffer := buffer b;
     buffer_length := buffer_length b; buffer_type := buffer_type b;
     is_unsigned := is_unsigned b |}.
Definition set_buffer (p : Ptr) (b : MYSQL_BIND) : MYSQL_BIND :=
  {| bind_length := bind_length b; is_null := is_null b; buffer := p;
     buffer_length := buffer_length b; buffer_type := buffer_type b;
     is_unsigned := is_unsigned b |}.
Definition set_buffer_length (n : Z) (b : MYSQL_BIND) : MYSQL_BIND :=
  {| bind_length := bind_length b; is_null := is_null b; buffer := buffer b;
     buffer_length := n; buffer_type := buffer_type b;
     is_unsigned := is_unsigned b |}.
Definition set_buffer_type (t : enum_field_types) (b : MYSQL_BIND) : MYSQL_BIND :=
  {| bind_length := bind_length b; is_null := is_null b; buffer := buffer b;
     buffer_length := buffer_length b; buffer_type := t;
     is_unsigned := is_unsigned b |}.
Definition set_is_unsigned (u : bool) (b : MYSQL_BIND) : MYSQL_BIND :=
  {| bind_length := bind_length b; is_null := is_null b; buffer := buffer b;
     buffer_length := buffer_length b; buffer_type := buffer_type b;
     is_unsigned := u |}.

(** [bindings[i].field = ..]: an update in place.  The C++ array has no
    bounds check: an index beyond its end (a record with more fields than the
    statement was prepared for) is undefined behaviour, and the model leaves
    the array unchanged there. *)
Definition update (i : nat) (f : MYSQL_BIND -> MYSQL_BIND)
    (bindings : list MYSQL_BIND) : list MYSQL_BIND :=
  match bindings !! i with
  | Some b => <[i := f b]> bindings
  | None => bindings
  end.

(** The driver's broken-down time, mysql_time.h. *)
Record MYSQL_TIME := {
  year : Z; month : Z; day : Z;
  hour : Z; minute : Z; second : Z;
  second_part : Z;
  neg : bool
}.

Definition zero_time : MYSQL_TIME :=
  {| year := 0; month := 0; day := 0; hour := 0; minute := 0; second := 0;
     second_part := 0; neg := false |}.

(** ** Conversion objects *)

Import Data.

(** Which [TypedConversion<T>] a conversion object is. *)
Inductive Kind := Date | Datetime | Time | Blob | Text | Wtext.

(** Modelled from the spec: the class template [TypedConversion<T>] is
    declared in mysql.hpp, which is not among the sources.  Its members are
    those the spec lists and mysql.cpp uses: the temporal conversions have
    [internal], the variable-width ones [bufferType], [length] (here
    [conv_length]) and [column], and Wtext also [inputBuffer]; all have
    [external].  The variable-width conversions hold a reference to
    [bindings[column].buffer]; writing through it is modelled where it
    happens.  The back-reference to the statement is the handle [stmt]. *)
Record Conversion := {
  kind : Kind;
  external : Ptr;
  internal : MYSQL_TIME;
  bufferType : enum_field_types;
  conv_length : Z;
  column : nat;
  inputBuffer : list Z
}.

Definition set_external (p : Ptr) (c : Conversion) : Conversion :=
  {| kind := kind c; external := p; internal := internal c;
     bufferType := bufferType c; conv_length := conv_length c;
     column := column c; inputBuffer := inputBuffer c |}.
Definition set_internal (t : MYSQL_TIME) (c : Conversion) : Conversion :=
  {| kind := kind c; external := external c; internal := t;
     bufferType := bufferType c; conv_length := conv_length c;
     column := column c; inputBuffer := inputBuffer c |}.
Definition set_conv_length (n : Z) (c : Conversion) : Conversion :=
  {| kind := kind c; external := external c; internal := internal c;
     bufferType := bufferType c; conv_length := n;
     column := column c; inputBuffer := inputBuffer c |}.
Definition set_inputBuffer (l : list Z) (c : Conversion) : Conversion :=
  {| kind := kind c; external := external c; internal := internal c;
     bufferType := bufferType c; conv_length := conv_length c;
     column := column c; inputBuffer := l |}.

(** Modelled from the spec: [new TypedConversion<Date>] and its temporal
    siblings, whose constructors are declared in mysql.hpp: "a conversion
    object holding a driver-native broken-down time scratch".  The members
    start at zero in the model. *)
Definition new_temporal (k : Kind) : Conversion :=
  {| kind := k; external := NULL; internal := zero_time;
     bufferType := MYSQL_TYPE_DECIMAL; conv_length := 0; column := 0%nat;
     inputBuffer := [] |}.

(** Modelled from the spec: the constructor
    [TypedConversion<T>(column, statement, bufferType, buffer)] is declared in
    mysql.hpp, which is not among the sources: "a conversion object bound to
    the statement handle and column index, carrying the type code", with a
    length field. *)
Definition new_variable (k : Kind) (i : nat) (t : enum_field_types) : Conversion :=
  {| kind := k; external := NULL; internal := zero_time;
     bufferType := t; conv_length := 0; column := i; inputBuffer := [] |}.

(** Modelled from the spec: [getPointer()] is declared in mysql.hpp: "the
    conversion's driver-side scratch pointer".  The temporal conversions have
    the broken-down time as scratch; the variable-width ones have none of
    their own (their buffer is attached by [convertParam] or by the
    second-pass fetch). *)
Definition getPointer (i : nat) (c : Conversion) : Ptr :=
  match kind c with
  | Date | Datetime | Time => Internal i
  | Blob | Text | Wtext => NULL
  end.

(** [Data::Conversions] is a [std::map] from column number to conversion
    object: an association list kept in ascending key order, which is the
    order iteration visits it in. *)
Definition Conversions := list (nat * Conversion).

Fixpoint find (i : nat) (m : Conversions) : option Conversion :=
  match m with
  | [] => None
  | (j, c) :: m' => if Nat.eqb i j then Some c else find i m'
  end.

(** [conversions[i].reset(conv)]: insert at the key's place, or replace. *)
Fixpoint reset (i : nat) (conv : Conversion) (m : Conversions) : Conversions :=
  match m with
  | [] => [(i, conv)]
  | (j, c) :: m' =>
      if Nat.ltb i j then (i, conv) :: (j, c) :: m'
      else if Nat.eqb i j then (i, conv) :: m'
      else (j, c) :: reset i conv m'
  end.

(** Change the conversion object stored under [i], if there is one. *)
Fixpoint alter (i : nat) (f : Conversion -> Conversion) (m : Conversions)
    : Conversions :=
  match m with
  | [] => []
  | (j, c) :: m' =>
      if Nat.eqb i j then (j, f c) :: m' else (j, c) :: alter i f m'
  end.

(** ** Statement::buildBindings *)

Section BuildBindings.

Variable set : Set_.

(** One turn of the loop over the columns: the nullable offset is stripped,
    the unsigned kinds are flagged and moved onto their signed siblings, and
    the remaining kind selects the descriptor's type code. *)
Definition buildBinding (i : nat) (st : Conversions * list MYSQL_BIND)
    : Conversions * list MYSQL_BIND :=
  let '(conversions, bindings) := st in
  let type := getSqlType set i in
  (* Handle NULL *)
  let type := if code U_TINY_N <=? type then type - code U_TINY_N else type in
  (* Handle unsigned *)
  let bindings :=
    if type <=? code U_BIGINT then update i (set_is_unsigned true) bindings
    else bindings in
  let type := if type <=? code U_BIGINT then type + code TINY else type in
  (* Start decoding values *)
  match of_code type with
  | Some TINY => (conversions, update i (set_buffer_type MYSQL_TYPE_TINY) bindings)
  | Some SHORT => (conversions, update i (set_buffer_type MYSQL_TYPE_SHORT) bindings)
  | Some INT => (conversions, update i (set_buffer_type MYSQL_TYPE_LONG) bindings)
  | Some BIGINT => (conversions, update i (set_buffer_type MYSQL_TYPE_LONGLONG) bindings)
  | Some FLOAT => (conversions, update i (set_buffer_type MYSQL_TYPE_FLOAT) bindings)
  | Some DOUBLE => (conversions, update i (set_buffer_type MYSQL_TYPE_DOUBLE) bindings)
  | Some DATE =>
      let conv := new_temporal Date in
      let bindings := update i (set_buffer (Internal i)) bindings in
      let bindings := update i (set_buffer_type MYSQL_TYPE_DATE) bindings in
      (reset i conv conversions, bindings)
  | Some DATETIME =>
      let conv := new_temporal Datetime in
      let bindings := update i (set_buffer (Internal i)) bindings in
      let bindings := update i (set_buffer_type MYSQL_TYPE_DATETIME) bindings in
      (reset i conv conversions, bindings)
  | Some TIME =>
      let conv := new_temporal Time in
      let bindings := update i (set_buffer (Internal i)) bindings in
      let bindings := update i (set_buffer_type MYSQL_TYPE_TIME) bindings in
      (reset i conv conversions, bindings)
  | Some BLOB =>
      let conv := new_variable Blob i MYSQL_TYPE_BLOB in
      let bindings := update i (set_bind_length (Length i)) bindings in
      let bindings := update i (set_buffer_type (bufferType conv)) bindings in
      (reset i conv conversions, bindings)
  | Some TEXT =>
      let conv := new_variable Text i MYSQL_TYPE_STRING in
      let bindings := update i (set_bind_length (Length i)) bindings in
      let bindings := update i (set_buffer_type (bufferType conv)) bindings in
      (reset i conv conversions, bindings)
  | Some WTEXT =>
      (* TypedConversion<Wtext>(i, stmt, buffer): a Text conversion with an
         intermediate byte buffer, hence with Text's type code *)
      let conv := new_variable Wtext i MYSQL_TYPE_STRING in
      let bindings := update i (set_bind_length (Length i)) bindings in
      let bindings := update i (set_buffer_type (bufferType conv)) bindings in
      (reset i conv conversions, bindings)
  | Some CHAR =>
      let bindings := update i (set_buffer_length (getSqlSize set i)) bindings in
      (conversions, update i (set_buffer_type MYSQL_TYPE_STRING) bindings)
  | Some BINARY =>
      let bindings := update i (set_buffer_length (getSqlSize set i)) bindings in
      (conversions, update i (set_buffer_type MYSQL_TYPE_BLOB) bindings)
  | _ => (conversions, bindings)
  end.

(** [buildBindings(stmt, set, conversions, bindings)]: a fresh zero-filled
    array of [numberOfSqlElements] descriptors, then the loop. *)
Definition buildBindings (conversions : Conversions)
    : Conversions * list MYSQL_BIND :=
  let bindSize := numberOfSqlElements set in
  let bindings := replicate bindSize zero_bind in
  foldl (fun st i => buildBinding i st) (conversions, bindings) (seq 0 bindSize).

(** ** Statement::bindBindings *)

Definition bindBinding (i : nat) (st : Conversions * list MYSQL_BIND)
    : Conversions * list MYSQL_BIND :=
  let '(conversions, bindings) := st in
  let data := SqlPtr i in
  let nullable := code U_TINY_N <=? getSqlType set i in
  let bindings :=
    if nullable then update i (set_is_null (Nullness i)) bindings else bindings in
  let data := if nullable then GetVoid i else data in
  match find i conversions with
  | None => (conversions, update i (set_buffer data) bindings)
  | Some c =>
      (alter i (set_external data) conversions,
       update i (set_buffer (getPointer i c)) bindings)
  end.

Definition bindBindings (conversions : Conversions) (bindings : list MYSQL_BIND)
    : Conversions * list MYSQL_BIND :=
  let bindSize := numberOfSqlElements set in
  foldl (fun st i => bindBinding i st) (conversions, bindings) (seq 0 bindSize).

End BuildBindings.

(** ** Exceptions, the client library and the environment *)

Module Exceptions.

(** [Exceptions::MySQL]: a [CodedException] built from the handle's error
    text and error number.  [CodeCvt]: a failed transcoding.  [out_of_range]
    is what the calendar constructors raise. *)
Inductive Exception :=
| MySQL (message : string) (errno : Z)
| CodeCvt
| out_of_range.

End Exceptions.
Import Exceptions.

(** The two statement handles of the file: the statement being executed and
    the connection's auxiliary [SELECT FOUND_ROWS()] statement. *)
Inductive Handle := stmt | foundRowsStatement.

(** Every call the adapter makes on the client library, the result container
    and the codec. *)
Inductive Call :=
| mysql_init
| mysql_real_connect
| mysql_set_character_set
| mysql_close
| mysql_stmt_init (h : Handle)
| mysql_stmt_prepare (h : Handle) (query : string)
| mysql_stmt_close (h : Handle)
| mysql_stmt_bind_param (h : Handle)
| mysql_stmt_execute (h : Handle)
| mysql_stmt_bind_result (h : Handle)
| mysql_stmt_fetch (h : Handle)
| mysql_stmt_fetch_column (col : nat) (type : enum_field_types)
| mysql_stmt_free_result (h : Handle)
| mysql_stmt_reset (h : Handle)
| mysql_stmt_affected_rows
| mysql_stmt_insert_id
| res_manufacture
| res_trim
| codecvt_in
| codecvt_out.

Global Instance Handle_eq_dec : EqDecision Handle.
Proof. solve_decision. Defined.
Global Instance enum_field_types_eq_dec : EqDecision enum_field_types.
Proof. solve_decision. Defined.
Global Instance Call_eq_dec : EqDecision Call.
Proof. solve_decision. Defined.

(** How often a call occurs in a log. *)
Definition count (c : Call) (log : list Call) : nat :=
  length (filter (fun x => x = c) log).

(** What the driver delivers for one column of a fetched row. *)
Inductive Cell :=
| CellNull
| CellValue (v : Value)             (* a fixed-width value *)
| CellTime (t : MYSQL_TIME)         (* a broken-down time *)
| CellBytes (bytes : list Z).       (* a variable-width value *)

(** What one [mysql_stmt_fetch] on the statement reports: an error (1), or a
    row (0, or [MYSQL_DATA_TRUNCATED] when a column did not fit its buffer).
    When the script is exhausted the driver reports [MYSQL_NO_DATA]. *)
Inductive Fetch :=
| FetchError
| FetchRow (truncated : bool) (cells : list Cell).

Definition MYSQL_NO_DATA : Z := 100.
Definition MYSQL_DATA_TRUNCATED : Z := 101.

Inductive codecvt_result := ok | partial | error | noconv.

(** The responses of the client library and of the UTF-8 codec, as far as
    the adapter observes them.  The script of row fetches is part of the
    environment below, since fetching consumes it. *)
Record Driver := {
  init_ok : bool;
  real_connect_ok : bool;
  set_character_set_rc : Z;
  stmt_init_ok : Handle -> bool;
  stmt_prepare_rc : Handle -> Z;
  stmt_bind_param_rc : Handle -> Z;
  stmt_execute_rc : Handle -> Z;
  stmt_bind_result_rc : Handle -> Z;
  stmt_fetch_column_rc : nat -> Z;
  found_rows_fetch_rc : Z;
  found_rows : Z;
  affected_rows : Z;
  insert_id : Z;
  mysql_error : string;
  mysql_errno : Z;
  mysql_stmt_error : Handle -> string;
  mysql_stmt_errno : Handle -> Z;
  sizeof_wchar_t : Z;
  (* codecvt::in : the bytes, the room in wide characters; the result and
     the wide characters written *)
  utf8_in : list Z -> nat -> codecvt_result * list Z;
  (* codecvt::out : the wide characters, the room in bytes; the result and
     the bytes written *)
  utf8_out : list Z -> nat -> codecvt_result * list Z
}.

(** Everything the functions of the file read and write: the log of calls,
    the pending fetches and the row last fetched, the statement's descriptor
    arrays and conversion maps, the connection's found-rows descriptor, and
    the caller's memory (the result container and the cells behind the
    [insertId] and [rows] pointers). *)
Record Env := {
  log : list Call;
  fetches : list Fetch;
  current_row : list Cell;
  paramsBindings : list MYSQL_BIND;
  paramsConversions : Conversions;
  resultsBindings : list MYSQL_BIND;
  resultsConversions : Conversions;
  foundRowsBinding : MYSQL_BIND;
  res : SetContainerPar;
  insertId_cell : Z;
  rows_cell : Z
}.

Definition with_log (f : list Call -> list Call) (e : Env) : Env :=
  {| log := f (log e); fetches := fetches e; current_row := current_row e;
     paramsBindings := paramsBindings e;
     paramsConversions := paramsConversions e;
     resultsBindings := resultsBindings e;
     resultsConversions := resultsConversions e;
     foundRowsBinding := foundRowsBinding e; res := res e;
     insertId_cell := insertId_cell e; rows_cell := rows_cell e |}.
Definition with_fetches (l : list Fetch) (row : list Cell) (e : Env) : Env :=
  {| log := log e; fetches := l; current_row := row;
     paramsBindings := paramsBindings e;
     paramsConversions := paramsConversions e;
     resultsBindings := resultsBindings e;
     resultsConversions := resultsConversions e;
     foundRowsBinding := foundRowsBinding e; res := res e;
     insertId_cell := insertId_cell e; rows_cell := rows_cell e |}.
Definition with_params (cb : Conversions * list MYSQL_BIND) (e : Env) : Env :=
  {| log := log e; fetches := fetches e; current_row := current_row e;
     paramsBindings := snd cb;
     paramsConversions := fst cb;
     resultsBindings := resultsBindings e;
     resultsConversions := resultsConversions e;
     foundRowsBinding := foundRowsBinding e; res := res e;
     insertId_cell := insertId_cell e; rows_cell := rows_cell e |}.
Definition with_results (cb : Conversions * list MYSQL_BIND) (e : Env) : Env :=
  {| log := log e; fetches := fetches e; current_row := current_row e;
     paramsBindings := paramsBindings e;
     paramsConversions := paramsConversions e;
     resultsBindings := snd cb;
     resultsConversions := fst cb;
     foundRowsBinding := foundRowsBinding e; res := res e;
     insertId_cell := insertId_cell e; rows_cell := rows_cell e |}.
Definition with_foundRowsBinding (b : MYSQL_BIND) (e : Env) : Env :=
  {| log := log e; fetches := fetches e; current_row := current_row e;
     paramsBindings := paramsBindings e;
     paramsConversions := paramsConversions e;
     resultsBindings := resultsBindings e;
     resultsConversions := resultsConversions e;
     foundRowsBinding := b; res := res e;
     insertId_cell := insertId_cell e; rows_cell := rows_cell e |}.
Definition with_res (f : SetContainerPar -> SetContainerPar) (e : Env) : Env :=
  {| log := log e; fetches := fetches e; current_row := current_row e;
     paramsBindings := paramsBindings e;
     paramsConversions := paramsConversions e;
     resultsBindings := resultsBindings e;
     resultsConversions := resultsConversions e;
     foundRowsBinding := foundRowsBinding e; res := f (res e);
     insertId_cell := insertId_cell e; rows_cell := rows_cell e |}.
Definition with_insertId (n : Z) (e : Env) : Env :=
  {| log := log e; fetches := fetches e; current_row := current_row e;
     paramsBindings := paramsBindings e;
     paramsConversions := paramsConversions e;
     resultsBindings := resultsBindings e;
     resultsConversions := resultsConversions e;
     foundRowsBinding := foundRowsBinding e; res := res e;
     insertId_cell := n; rows_cell := rows_cell e |}.
Definition with_rows (n : Z) (e : Env) : Env :=
  {| log := log e; fetches := fetches e; current_row := current_row e;
     paramsBindings := paramsBindings e;
     paramsConversions := paramsConversions e;
     resultsBindings := resultsBindings e;
     resultsConversions := resultsConversions e;
     foundRowsBinding := foundRowsBinding e; res := res e;
     insertId_cell := insertId_cell e; rows_cell := n |}.

(** ** Computations that change the environment and may raise *)

Inductive Result (A : Type) :=
| Return (a : A)
| Throw (x : Exception).
Arguments Return {A} a.
Arguments Throw {A} x.

(** A computation keeps the environment it reached when it raises: what was
    done before the [throw] stays done. *)
Definition M (A : Type) : Type := Env -> Result A * Env.

Definition ret {A} (a : A) : M A := fun e => (Return a, e).
Definition throw {A} (x : Exception) : M A := fun e => (Throw x, e).
Definition bind {A B} (m : M A) (k : A -> M B) : M B :=
  fun e => match m e with
           | (Return a, e') => k a e'
           | (Throw x, e') => (Throw x, e')
           end.
Definition get : M Env := fun e => (Return e, e).
Definition modify (f : Env -> Env) : M unit := fun e => (Return tt, f e).
Definition call (c : Call) : M unit := modify (with_log (fun l => l ++ [c])).

Notation "x <- m ;; k" := (bind m (fun x => k))
  (at level 100, m at next level, right associativity).
Notation "m ;; k" := (bind m (fun _ => k))
  (at level 100, right associativity).

(** [for(it = begin; it != end; ++it) body(it)]. *)
Fixpoint for_each {A} (l : list A) (body : A -> M unit) : M unit :=
  match l with
  | [] => ret tt
  | a :: l' => body a ;; for_each l' body
  end.

(** [when c m]: [if(c) m;]. *)
Definition when (c : bool) (m : M unit) : M unit := if c then m else ret tt.

(** [throw Exceptions::MySQL(&connection)] and
    [throw Exceptions::MySQL(statement)]. *)
Definition throw_MySQL_connection {A} (d : Driver) : M A :=
  throw (MySQL (mysql_error d) (mysql_errno d)).
Definition throw_MySQL_stmt {A} (d : Driver) (h : Handle) : M A :=
  throw (MySQL (mysql_stmt_error d h) (mysql_stmt_errno d h)).

(** ** Caller memory *)

(** The record the result side is bound to: the one [manufacture()] appended
    last. *)
Definition current (c : SetContainerPar) : Set_ := List.last (records c) [].

Definition field_of (p : Ptr) : option nat :=
  match p with
  | SqlPtr i | GetVoid i | Nullness i => Some i
  | _ => None
  end.

(** Reading the value a pointer into a record addresses. *)
Definition load (set : Set_) (p : Ptr) : option Value :=
  match field_of p with
  | Some i => payload <$> set !! i
  | None => None
  end.

Definition alter_last (f : Set_ -> Set_) (c : SetContainerPar) : SetContainerPar :=
  match records c with
  | [] => c
  | _ => {| blank := blank c;
            records := removelast (records c) ++ [f (current c)] |}
  end.

Definition alter_field (i : nat) (f : Field -> Field) (set : Set_) : Set_ :=
  match set !! i with
  | Some x => <[i := f x]> set
  | None => set
  end.

(** Writing through a pointer into the current result record. *)
Definition store (p : Ptr) (f : Field -> Field) : M unit :=
  match field_of p with
  | Some i => modify (with_res (alter_last (alter_field i f)))
  | None => ret tt
  end.

(** [vector::resize(n)] and [string::resize(n)]: cut, or pad with zeros. *)
Definition resize (n : nat) (l : list Z) : list Z :=
  take n l ++ replicate (n - length l) 0.

(** The first [length src] elements of [dst] replaced by [src], as a copy
    into a buffer does; never beyond the end of [dst]. *)
Definition overwrite (src dst : list Z) : list Z :=
  take (length dst) (src ++ drop (length src) dst).

Definition bytes_of (c : option Cell) : list Z :=
  match c with Some (CellBytes b) => b | _ => [] end.

(** ** The typed conversions *)

Module TypedConversion.

(** *** Datetime *)

Definition Datetime_result (internal : MYSQL_TIME) : option posix_time.ptime :=
  match gregorian.make_date (year internal) (month internal) (day internal) with
  | Some d =>
      Some {| posix_time.date := d;
              posix_time.time_of_day :=
                posix_time.make_time_duration
                  (hour internal) (minute internal) (second internal) |}
  | None => None
  end.

Definition Datetime_param (p : posix_time.ptime) : MYSQL_TIME :=
  {| year := gregorian.date_year (posix_time.date p);
     month := gregorian.date_month (posix_time.date p);
     day := gregorian.date_day (posix_time.date p);
     hour := uint32 (posix_time.hours (posix_time.time_of_day p));
     minute := uint32 (posix_time.minutes (posix_time.time_of_day p));
     second := uint32 (posix_time.seconds (posix_time.time_of_day p));
     second_part := 0; neg := false |}.

(** *** Date *)

Definition Date_result (internal : MYSQL_TIME) : option gregorian.date :=
  gregorian.make_date (year internal) (month internal) (day internal).

Definition Date_param (d : gregorian.date) : MYSQL_TIME :=
  {| year := gregorian.date_year d; month := gregorian.date_month d;
     day := gregorian.date_day d;
     hour := 0; minute := 0; second := 0; second_part := 0; neg := false |}.

(** *** Time *)

(** The hours argument of the constructor call: [internal.hour] is an
    [unsigned int], so [internal.hour*-1] is computed in [unsigned int]. *)
Definition Time_hours_argument (internal : MYSQL_TIME) : Z :=
  if neg internal then uint32 (hour internal * -1) else hour internal.

Definition Time_result (internal : MYSQL_TIME) : posix_time.time_duration :=
  posix_time.make_time_duration
    (Time_hours_argument internal) (minute internal) (second internal).

Definition Time_param (t : posix_time.time_duration) : MYSQL_TIME :=
  {| year := 0; month := 0; day := 0;
     hour := uint32 (Z.abs (posix_time.hours t));
     minute := uint32 (Z.abs (posix_time.minutes t));
     second := uint32 (Z.abs (posix_time.seconds t));
     second_part := 0;
     neg := posix_time.hours t <? 0 |}.

(** *** Blob and Text *)

(** [grabIt(data)]: [data] is passed by reference, so the function returns
    the container as it leaves it, together with the calls it made and the
    exception it raised, if any.  [row] is the row last fetched, from which
    the driver serves the per-column fetch. *)
Definition grabIt (d : Driver) (c : Conversion) (row : list Cell) (data : list Z)
    : list Z * list Call * option Exception :=
  let data :=
    if Z.of_nat (length data) =? conv_length c then data
    else resize (Z.to_nat (conv_length c)) data in
  if conv_length c =? 0 then (data, [], None)
  else
    let calls := [mysql_stmt_fetch_column (column c) (bufferType c)] in
    if stmt_fetch_column_rc d (column c) =? 0
    then (overwrite (bytes_of (row !! column c)) data, calls, None)
    else (data, calls,
          Some (MySQL (mysql_stmt_error d stmt) (mysql_stmt_errno d stmt))).

(** Running [grabIt] in the environment; [put] writes the container back. *)
Definition run_grabIt (d : Driver) (c : Conversion) (data : list Z)
    (put : list Z -> M unit) : M unit :=
  e <- get ;;
  let '(data', calls, x) := grabIt d c (current_row e) data in
  put data' ;;
  for_each calls call ;;
  match x with Some x => throw x | None => ret tt end.

Definition container_of (v : option Value) : list Z :=
  match v with Some (VBytes b) => b | _ => [] end.

(** Modelled from the spec: [TypedConversion<T>::convertResult] for Blob and
    Text is defined in mysql.hpp: "resize the caller's byte container to the
    column's reported length; if non-zero, issue a second-pass per-column
    fetch targeted at the caller's buffer", that is [grabIt] on the value at
    [external]. *)
Definition variable_convertResult (d : Driver) (c : Conversion) : M unit :=
  e <- get ;;
  run_grabIt d c (container_of (load (current (res e)) (external c)))
    (fun data => store (external c) (with_payload (VBytes data))).

(** *** Wtext *)

Definition codecvt_result_is_ok (r : codecvt_result) : bool :=
  match r with ok => true | _ => false end.

Definition wide_of (v : option Value) : list Z :=
  match v with Some (VWide w) => w | _ => [] end.

(** The first half of [convertResult]: the bytes are grabbed into
    [inputBuffer] and the caller's wide string is resized to their number.
    The value is the pair of [conversionBuffer] and [output]. *)
Definition Wtext_grab (d : Driver) (i : nat) (c : Conversion)
    : M (list Z * list Z) :=
  run_grabIt d c (inputBuffer c)
    (fun data => modify (fun e =>
       with_results (alter i (set_inputBuffer data) (resultsConversions e),
                     resultsBindings e) e)) ;;
  e <- get ;;
  let conversionBuffer :=
    match find i (resultsConversions e) with
    | Some c' => inputBuffer c'
    | None => []
    end in
  let output := resize (length conversionBuffer)
                  (wide_of (load (current (res e)) (external c))) in
  store (external c) (with_payload (VWide output)) ;;
  ret (conversionBuffer, output).

(** The block in braces: transcode [conversionBuffer] into [output], cut
    [output] to what was written and clear the buffer. *)
Definition Wtext_transcode (d : Driver) (i : nat) (c : Conversion)
    (conversionBuffer output : list Z) : M unit :=
  call codecvt_in ;;
  let '(r, wide) := utf8_in d conversionBuffer (length output) in
  store (external c) (with_payload (VWide (overwrite wide output))) ;;
  if codecvt_result_is_ok r then
    store (external c)
      (with_payload (VWide (resize (Nat.min (length wide) (length output))
                              (overwrite wide output)))) ;;
    modify (fun e =>
      with_results (alter i (set_inputBuffer []) (resultsConversions e),
                    resultsBindings e) e)
  else throw CodeCvt.

(** [convertResult] as the source has it: [if(conversionBuffer.size());]
    ends in an empty statement, so the block that follows it is not under the
    condition and always runs. *)
Definition Wtext_convertResult (d : Driver) (i : nat) (c : Conversion)
    : M unit :=
  buffers <- Wtext_grab d i c ;;
  Wtext_transcode d i c (fst buffers) (snd buffers).

(** The spec's reading of the same function: "preserve the guarded semantics
    (skip when empty)". *)
Definition Wtext_convertResult_guarded (d : Driver) (i : nat) (c : Conversion)
    : M unit :=
  buffers <- Wtext_grab d i c ;;
  if (length (fst buffers) =? 0)%nat then ret tt
  else Wtext_transcode d i c (fst buffers) (snd buffers).

(** *** Dispatch *)

(** [it->second->convertResult()] on the result-side conversion of column
    [i]. *)
Definition convertResult (d : Driver) (i : nat) : M unit :=
  e <- get ;;
  match find i (resultsConversions e) with
  | None => ret tt
  | Some c =>
      match kind c with
      | Date =>
          match Date_result (internal c) with
          | Some v => store (external c) (with_payload (VDate v))
          | None => throw out_of_range
          end
      | Datetime =>
          match Datetime_result (internal c) with
          | Some v => store (external c) (with_payload (VDatetime v))
          | None => throw out_of_range
          end
      | Time => store (external c) (with_payload (VTime (Time_result (internal c))))
      | Blob | Text => variable_convertResult d c
      | Wtext => Wtext_convertResult d i c
      end
  end.

(** Change the parameter-side conversion of column [i]. *)
Definition alter_param (i : nat) (f : Conversion -> Conversion) : M unit :=
  modify (fun e =>
    with_params (alter i f (paramsConversions e), paramsBindings e) e).

(** [buffer = p]: the conversion's [buffer] member is a reference to
    [bindings[column].buffer]. *)
Definition set_param_buffer (c : Conversion) (p : Ptr) : M unit :=
  modify (fun e =>
    with_params (paramsConversions e,
                 update (column c) (set_buffer p) (paramsBindings e)) e).

(** [it->second->convertParam()] on the parameter-side conversion of column
    [i]; [parameters] is the record [external] points into.  A DATE or
    DATETIME field that holds a special value makes the first accessor call
    raise, after the scratch was zeroed.  A field that does not hold a value
    of the conversion's type is outside the model: the conversion is left as
    it is. *)
Definition convertParam (d : Driver) (parameters : Set_) (i : nat) : M unit :=
  e <- get ;;
  match find i (paramsConversions e) with
  | None => ret tt
  | Some c =>
      match kind c, load parameters (external c) with
      | Date, Some (VDate v) => alter_param i (set_internal (Date_param v))
      | Datetime, Some (VDatetime v) => alter_param i (set_internal (Datetime_param v))
      | Date, Some (VSpecialDate _) | Datetime, Some (VSpecialDatetime _) =>
          (* [memset(&internal, 0, ..)], then [->date().year()] raises *)
          alter_param i (set_internal zero_time) ;;
          throw out_of_range
      | Time, Some (VTime v) => alter_param i (set_internal (Time_param v))
      | Blob, Some (VBytes data) | Text, Some (VBytes data) =>
          alter_param i (set_conv_length (Z.of_nat (length data))) ;;
          set_param_buffer c (DataFront (column c))
      | Wtext, Some (VWide data) =>
          let room := Z.to_nat (Z.of_nat (length data) * sizeof_wchar_t d) in
          let buf := resize room (inputBuffer c) in
          alter_param i (set_inputBuffer buf) ;;
          (if (length buf =? 0)%nat then ret tt
           else
             call codecvt_out ;;
             let '(r, bytes) := utf8_out d data (length buf) in
             alter_param i (set_inputBuffer (overwrite bytes buf)) ;;
             if codecvt_result_is_ok r then
               alter_param i
                 (set_inputBuffer (resize (Nat.min (length bytes) (length buf))
                                     (overwrite bytes buf)))
             else throw CodeCvt) ;;
          set_param_buffer c (InputBufferFront (column c)) ;;
          e <- get ;;
          alter_param i
            (set_conv_length
               (Z.of_nat (length (match find i (paramsConversions e) with
                                  | Some c' => inputBuffer c'
                                  | None => []
                                  end))))
      | _, _ => ret tt
      end
  end.

End TypedConversion.

(** ** The driver's row fetch *)

Definition is_CellNull (c : Cell) : bool :=
  match c with CellNull => true | _ => false end.

(** What the driver writes for column [i] of a fetched row, through the
    pointers of the column's descriptor: the null indicator when one is
    wired; a fixed-width value into the caller's field; a broken-down time
    into the conversion's scratch; the length of a variable-width value into
    the conversion's length (its bytes are served by the per-column
    fetch).  A NULL column changes the indicator only. *)
Definition deliver (i : nat) (b : MYSQL_BIND) (c : Cell) : M unit :=
  (match is_null b with
   | Nullness j => store (Nullness j) (with_nullness (is_CellNull c))
   | _ => ret tt
   end) ;;
  match c, buffer b, bind_length b with
  | CellValue v, SqlPtr j, _ => store (SqlPtr j) (with_payload v)
  | CellValue v, GetVoid j, _ => store (GetVoid j) (with_payload v)
  | CellTime t, Internal j, _ =>
      modify (fun e =>
        with_results (alter j (set_internal t) (resultsConversions e),
                      resultsBindings e) e)
  | CellBytes bytes, _, Length j =>
      modify (fun e =>
        with_results (alter j (set_conv_length (Z.of_nat (length bytes)))
                        (resultsConversions e),
                      resultsBindings e) e)
  | _, _, _ => ret tt
  end.

Definition deliver_row (cells : list Cell) : M unit :=
  e <- get ;;
  for_each (seq 0 (length (resultsBindings e)))
    (fun i => match resultsBindings e !! i, cells !! i with
              | Some b, Some c => deliver i b c
              | _, _ => ret tt
              end).

(** [mysql_stmt_fetch(stmt)]: the next entry of the script. *)
Definition stmt_fetch : M Z :=
  call (mysql_stmt_fetch stmt) ;;
  e <- get ;;
  match fetches e with
  | [] => ret MYSQL_NO_DATA
  | FetchError :: rest =>
      modify (with_fetches rest (current_row e)) ;; ret 1
  | FetchRow truncated cells :: rest =>
      modify (with_fetches rest cells) ;;
      deliver_row cells ;;
      ret (if truncated then MYSQL_DATA_TRUNCATED else 0)
  end.

(** ** Connection *)

Module Connection.

Definition connect (d : Driver) : M unit :=
  call mysql_init ;;
  (if init_ok d then ret tt else throw_MySQL_connection d) ;;
  call mysql_real_connect ;;
  (if real_connect_ok d then ret tt else throw_MySQL_connection d) ;;
  call mysql_set_character_set ;;
  (if set_character_set_rc d =? 0 then ret tt else throw_MySQL_connection d) ;;
  call (mysql_stmt_init foundRowsStatement) ;;
  (if stmt_init_ok d foundRowsStatement then ret tt
   else throw_MySQL_connection d) ;;
  call (mysql_stmt_prepare foundRowsStatement "SELECT FOUND_ROWS()") ;;
  (if stmt_prepare_rc d foundRowsStatement =? 0 then ret tt
   else throw_MySQL_stmt d foundRowsStatement) ;;
  modify (with_foundRowsBinding
            (set_is_unsigned true
               (set_buffer_type MYSQL_TYPE_LONGLONG zero_bind))).

(** [~Connection()]. *)
Definition destroy : M unit :=
  call (mysql_stmt_close foundRowsStatement) ;;
  call mysql_close.

Definition getFoundRows (d : Driver) : M unit :=
  call (mysql_stmt_bind_param foundRowsStatement) ;;
  (if stmt_bind_param_rc d foundRowsStatement =? 0 then ret tt
   else throw_MySQL_stmt d foundRowsStatement) ;;
  call (mysql_stmt_execute foundRowsStatement) ;;
  (if stmt_execute_rc d foundRowsStatement =? 0 then ret tt
   else throw_MySQL_stmt d foundRowsStatement) ;;
  modify (fun e => with_foundRowsBinding (set_buffer Rows (foundRowsBinding e)) e) ;;
  call (mysql_stmt_bind_result foundRowsStatement) ;;
  (if stmt_bind_result_rc d foundRowsStatement =? 0 then ret tt
   else throw_MySQL_stmt d foundRowsStatement) ;;
  call (mysql_stmt_fetch foundRowsStatement) ;;
  (if found_rows_fetch_rc d =? 0
   then modify (with_rows (found_rows d))     (* the driver fills *rows *)
   else throw_MySQL_stmt d foundRowsStatement) ;;
  call (mysql_stmt_free_result foundRowsStatement) ;;
  call (mysql_stmt_reset foundRowsStatement).

End Connection.

(** ** Statement *)

Module Statement.

Definition init (d : Driver) (queryString : string)
    (parameterSet resultSet : option Set_) : M unit :=
  call (mysql_stmt_init stmt) ;;
  (if stmt_init_ok d stmt then ret tt else throw_MySQL_connection d) ;;
  call (mysql_stmt_prepare stmt queryString) ;;
  (if stmt_prepare_rc d stmt =? 0 then ret tt else throw_MySQL_stmt d stmt) ;;
  (match parameterSet with
   | Some set =>
       modify (fun e => with_params (buildBindings set (paramsConversions e)) e)
   | None => ret tt
   end) ;;
  match resultSet with
  | Some set =>
      modify (fun e => with_results (buildBindings set (resultsConversions e)) e)
  | None => ret tt
  end.

(** The parameter side of [execute]: [if(parameters) { bindBindings(..);
    for(..) it->second->convertParam(); }]. *)
Definition bind_parameters (d : Driver) (parameters : option Set_) : M unit :=
  match parameters with
  | Some set =>
      modify (fun e =>
        with_params (bindBindings set (paramsConversions e) (paramsBindings e)) e) ;;
      e <- get ;;
      for_each (map fst (paramsConversions e))
        (fun i => TypedConversion.convertParam d set i)
  | None => ret tt
  end.

(** One turn of [while(keepLooping)]; the value is [keepLooping] after it. *)
Definition fetch_turn (d : Driver) : M bool :=
  call res_manufacture ;;
  modify (with_res manufacture) ;;
  modify (fun e =>
    with_results (bindBindings (current (res e))
                    (resultsConversions e) (resultsBindings e)) e) ;;
  call (mysql_stmt_bind_result stmt) ;;
  (if stmt_bind_result_rc d stmt =? 0 then ret tt else throw_MySQL_stmt d stmt) ;;
  rc <- stmt_fetch ;;
  if rc =? 1 then throw_MySQL_stmt d stmt
  else if rc =? MYSQL_NO_DATA then
    call res_trim ;;
    modify (with_res trim) ;;
    ret false
  else
    e <- get ;;
    for_each (map fst (resultsConversions e))
      (fun i => TypedConversion.convertResult d i) ;;
    ret true.

(** [while(keepLooping) { .. }].  Every turn that keeps looping consumes one
    entry of the fetch script, so [fuel] above the script's length is never
    used up (see [fetch_loop_fuel]). *)
Fixpoint fetch_loop (fuel : nat) (d : Driver) : M unit :=
  match fuel with
  | O => ret tt
  | S fuel' =>
      keepLooping <- fetch_turn d ;;
      if keepLooping then fetch_loop fuel' d else ret tt
  end.

(** [execute(parameters, results, insertId, rows)].  The result container
    and the cells behind [insertId] and [rows] live in the environment; the
    last three arguments say whether the pointer is non-null.  The lock on
    [executeMutex] serialises callers and has no sequential effect. *)
Definition execute (d : Driver) (parameters : option Set_)
    (results insertId rows : bool) : M unit :=
  bind_parameters d parameters ;;
  call (mysql_stmt_bind_param stmt) ;;
  (if stmt_bind_param_rc d stmt =? 0 then ret tt else throw_MySQL_stmt d stmt) ;;
  call (mysql_stmt_execute stmt) ;;
  (if stmt_execute_rc d stmt =? 0 then ret tt else throw_MySQL_stmt d stmt) ;;
  (if results then
     e <- get ;;
     fetch_loop (S (length (fetches e))) d ;;
     when rows (Connection.getFoundRows d)
   else
     when rows (call mysql_stmt_affected_rows ;;
                modify (with_rows (affected_rows d))) ;;
     when insertId (call mysql_stmt_insert_id ;;
                    modify (with_insertId (insert_id d)))) ;;
  call (mysql_stmt_free_result stmt) ;;
  call (mysql_stmt_reset stmt).

End Statement.

(** ** Concrete environments for examples *)

(** A codec for the ASCII range: one byte per character, and [partial] when
    the room runs out. *)
Definition ascii_codec (input : list Z) (room : nat) : codecvt_result * list Z :=
  if forallb (fun c => (0 <=? c) && (c <? 128)) input
  then (if (length input <=? room)%nat then (ok, input)
        else (partial, take room input))
  else (error, []).

(** A driver every call of which succeeds. *)
Definition quiet_driver : Driver :=
  {| init_ok := true; real_connect_ok := true; set_character_set_rc := 0;
     stmt_init_ok := fun _ => true; stmt_prepare_rc := fun _ => 0;
     stmt_bind_param_rc := fun _ => 0; stmt_execute_rc := fun _ => 0;
     stmt_bind_result_rc := fun _ => 0; stmt_fetch_column_rc := fun _ => 0;
     found_rows_fetch_rc := 0; found_rows := 0;
     affected_rows := 1; insert_id := 42;
     mysql_error := "connection error"; mysql_errno := 2002;
     mysql_stmt_error := fun _ => "statement error";
     mysql_stmt_errno := fun _ => 2030;
     sizeof_wchar_t := 4;
     utf8_in := ascii_codec; utf8_out := ascii_codec |}.

(** A driver whose [mysql_stmt_execute] fails on the statement. *)
Definition failing_execute_driver : Driver :=
  {| init_ok := true; real_connect_ok := true; set_character_set_rc := 0;
     stmt_init_ok := fun _ => true; stmt_prepare_rc := fun _ => 0;
     stmt_bind_param_rc := fun _ => 0;
     stmt_execute_rc := fun h => match h with stmt => 1 | _ => 0 end;
     stmt_bind_result_rc := fun _ => 0; stmt_fetch_column_rc := fun _ => 0;
     found_rows_fetch_rc := 0; found_rows := 0;
     affected_rows := 1; insert_id := 42;
     mysql_error := "connection error"; mysql_errno := 2002;
     mysql_stmt_error := fun _ => "statement error";
     mysql_stmt_errno := fun _ => 2030;
     sizeof_wchar_t := 4;
     utf8_in := ascii_codec; utf8_out := ascii_codec |}.

(** A driver whose [mysql_stmt_prepare] fails on the found-rows statement. *)
Definition failing_prepare_driver : Driver :=
  {| init_ok := true; real_connect_ok := true; set_character_set_rc := 0;
     stmt_init_ok := fun _ => true;
     stmt_prepare_rc := fun h => match h with foundRowsStatement => 1 | _ => 0 end;
     stmt_bind_param_rc := fun _ => 0; stmt_execute_rc := fun _ => 0;
     stmt_bind_result_rc := fun _ => 0; stmt_fetch_column_rc := fun _ => 0;
     found_rows_fetch_rc := 0; found_rows := 0;
     affected_rows := 1; insert_id := 42;
     mysql_error := "connection error"; mysql_errno := 2002;
     mysql_stmt_error := fun _ => "statement error";
     mysql_stmt_errno := fun _ => 2030;
     sizeof_wchar_t := 4;
     utf8_in := ascii_codec; utf8_out := ascii_codec |}.

Definition field (t : SqlType) (v : Value) : Field :=
  {| sqlType := t; sqlSize := 0; nullness := false; payload := v |}.

Definition null_field (t : SqlType) (v : Value) : Field :=
  {| sqlType := t; sqlSize := 0; nullness := true; payload := v |}.

(** An environment before anything happened: no calls, an empty container of
    records shaped like [blank_record], and [script] as the rows to come. *)
Definition fresh_env (blank_record : Set_) (script : list Fetch) : Env :=
  {| log := []; fetches := script; current_row := [];
     paramsBindings := []; paramsConversions := [];
     resultsBindings := []; resultsConversions := [];
     foundRowsBinding := zero_bind;
     res := {| blank := blank_record; records := [] |};
     insertId_cell := 0; rows_cell := 0 |}.

(** The environment [init] leaves on a quiet driver. *)
Definition prepared_env (parameterSet resultSet : option Set_)
    (blank_record : Set_) (script : list Fetch) : Env :=
  snd (Statement.init quiet_driver "query" parameterSet resultSet
         (fresh_env blank_record script)).

(** * Vocabulary of the properties *)

(** [keeps R m]: every run of [m] relates the environment it starts in to the
    one it ends in by [R], whether it returns or raises. *)
Definition keeps {A} (R : Env -> Env -> Prop) (m : M A) : Prop :=
  forall e, R e (snd (m e)).

(** [keeps_on_throw R m]: the same, for the runs that raise. *)
Definition keeps_on_throw {A} (R : Env -> Env -> Prop) (m : M A) : Prop :=
  forall e x e', m e = (Throw x, e') -> R e e'.

(** The log gained no occurrence of the call [c]. *)
Definition same_count (c : Call) (e e' : Env) : Prop :=
  count c (log e') = count c (log e).

(** The descriptor arrays kept their lengths. *)
Definition same_lengths (e e' : Env) : Prop :=
  length (paramsBindings e') = length (paramsBindings e) /\
  length (resultsBindings e') = length (resultsBindings e).

(** The cell behind the [insertId] pointer kept its value. *)
Definition same_insertId (e e' : Env) : Prop :=
  insertId_cell e' = insertId_cell e.

(** The fetch script and the number of records in the container are as
    before. *)
Definition same_rows (e e' : Env) : Prop :=
  fetches e' = fetches e /\
  length (records (res e')) = length (records (res e)).


(** What the steps of the fetch loop other than [manufacture()], [trim()]
    and the row fetch leave alone. *)
Definition loop_frame (e e' : Env) : Prop :=
  same_count res_manufacture e e' /\ same_count res_trim e e' /\ same_rows e e'.

(** The TIME value -04:05:06 as the driver reports it. *)
Definition minus_04_05_06 : MYSQL_TIME :=
  {| year := 0; month := 0; day := 0; hour := 4; minute := 5; second := 6;
     second_part := 0; neg := true |}.

(** The TIME value -00:05:06 as the driver reports it. *)
Definition minus_00_05_06 : MYSQL_TIME :=
  {| year := 0; month := 0; day := 0; hour := 0; minute := 5; second := 6;
     second_part := 0; neg := true |}.

(** The unsigned integer kinds, each with its signed sibling, the driver type
    code of the sibling and that code's width in bits. *)
Definition unsigned_kinds : list (SqlType * SqlType * enum_field_types * Z) :=
  [ (U_TINY, TINY, MYSQL_TYPE_TINY, 8);
    (U_SHORT, SHORT, MYSQL_TYPE_SHORT, 16);
    (U_INT, INT, MYSQL_TYPE_LONG, 32);
    (U_BIGINT, BIGINT, MYSQL_TYPE_LONGLONG, 64);
    (U_TINY_N, TINY_N, MYSQL_TYPE_TINY, 8);
    (U_SHORT_N, SHORT_N, MYSQL_TYPE_SHORT, 16);
    (U_INT_N, INT_N, MYSQL_TYPE_LONG, 32);
    (U_BIGINT_N, BIGINT_N, MYSQL_TYPE_LONGLONG, 64) ].


(** A field of a nullable kind, as [bindBindings] tests it. *)
Definition nullable (f : Field) : bool := code U_TINY_N <=? code (sqlType f).

(** Two records that are the same except for the payloads of nullable fields
    whose null indicator is set. *)
Definition same_but_null_payloads (s1 s2 : Set_) : Prop :=
  Forall2 (fun f1 f2 =>
    sqlType f1 = sqlType f2 /\ sqlSize f1 = sqlSize f2 /\
    nullness f1 = nullness f2 /\
    (payload f1 = payload f2 \/ (nullable f1 = true /\ nullness f1 = true)))
    s1 s2.

(** The same, with the payloads differing only in columns that have no
    conversion object in [conversions]. *)
Definition same_but_unconverted_null_payloads
    (conversions : Conversions) (s1 s2 : Set_) : Prop :=
  same_but_null_payloads s1 s2 /\
  forall i c f1 f2, find i conversions = Some c ->
    s1 !! i = Some f1 -> s2 !! i = Some f2 -> payload f1 = payload f2.

(** Every conversion object of the map belongs to a column of the record. *)
Definition columns_within (conversions : Conversions) (set : Set_) : bool :=
  forallb (fun ic => Nat.ltb (fst ic) (length set)) conversions.

(** The conversion objects of [e'] are those of [e], with their [external]
    pointers unchanged. *)
Definition same_externals (e e' : Env) : Prop :=
  forall i c', find i (paramsConversions e') = Some c' ->
    exists c, find i (paramsConversions e) = Some c /\ external c' = external c.

(** The states in which every parameter conversion reads the same value from
    either record. *)
Definition reads_agree (s1 s2 : Set_) (e : Env) : Prop :=
  forall i c, find i (paramsConversions e) = Some c ->
    load s1 (external c) = load s2 (external c).

(** The environment with the payload of field [i] of the current result
    record replaced by [v]. *)
Definition poke (i : nat) (v : Value) (e : Env) : Env :=
  with_res (alter_last (alter_field i (with_payload v))) e.

(** No result-side conversion object points at field [i]. *)
Definition unaddressed (i : nat) (e : Env) : Prop :=
  forall j c, find j (resultsConversions e) = Some c ->
    field_of (external c) <> Some i.

(** A computation that neither reads nor writes the payload of field [i] of
    the current result record: replacing the payload beforehand gives the same
    outcome and the same environment, with the payload replaced. *)
Definition untouched {A} (i : nat) (v : Value) (m : M A) : Prop :=
  forall e, unaddressed i e ->
    m (poke i v e) = (fst (m e), poke i v (snd (m e))) /\
    unaddressed i (snd (m e)).



(** What the TIME round trip makes of a whole number [S] of seconds. *)
Definition round_trip_seconds (S : Z) : Z :=
  if (-3600 <? S) && (S <? 0) then - S else S.

(** What of a descriptor is decided at prepare time: the type code, the
    unsigned flag, the capacity and where the length goes. *)
Definition shape (b : MYSQL_BIND) : enum_field_types * bool * Z * Ptr :=
  (buffer_type b, is_unsigned b, buffer_length b, bind_length b).

(** Both descriptor arrays have the shapes they had. *)
Definition same_shapes (e e' : Env) : Prop :=
  map shape (paramsBindings e') = map shape (paramsBindings e) /\
  map shape (resultsBindings e') = map shape (resultsBindings e).

(** The cell behind the [rows] pointer kept its value. *)
Definition same_rows_cell (e e' : Env) : Prop := rows_cell e' = rows_cell e.

(** The result side and the caller's container are as they were. *)
Definition same_result_side (e e' : Env) : Prop :=
  res e' = res e /\ fetches e' = fetches e /\
  resultsBindings e' = resultsBindings e /\
  resultsConversions e' = resultsConversions e.

(** The parameter side is as it was. *)
Definition same_param_side (e e' : Env) : Prop :=
  paramsBindings e' = paramsBindings e /\
  paramsConversions e' = paramsConversions e.

(** [m] raises nothing but the exceptions in [P]. *)
Definition raises_only {A} (P : Exception -> Prop) (m : M A) : Prop :=
  forall e x e', m e = (Throw x, e') -> P x.

(** What a conversion of a parameter can raise: the codec's error, and the
    calendar's on a date that is no day of the calendar. *)
Definition conversion_error (x : Exception) : Prop :=
  x = CodeCvt \/ x = out_of_range.

(** What the steps of a turn of the fetch loop other than [manufacture()]
    and [trim()] leave alone. *)
Definition turn_frame (e e' : Env) : Prop :=
  same_count res_manufacture e e' /\ same_count res_trim e e' /\
  length (records (res e')) = length (records (res e)).

(** The records the container gained are the manufactured ones less the
    trimmed ones. *)
Definition accounted (e e' : Env) : Prop :=
  (length (records (res e')) + count res_trim (log e')
     + count res_manufacture (log e)
   = length (records (res e)) + count res_trim (log e)
     + count res_manufacture (log e'))%nat.

(** The conversion object a column of kind [t] needs, for column [i]: the
    temporal and the variable-width kinds have one, nullable or not. *)
Definition conversion_for (t : SqlType) (i : nat) : option Conversion :=
  match t with
  | DATE | DATE_N => Some (new_temporal Date)
  | DATETIME | DATETIME_N => Some (new_temporal Datetime)
  | TIME | TIME_N => Some (new_temporal Time)
  | BLOB | BLOB_N => Some (new_variable Blob i MYSQL_TYPE_BLOB)
  | TEXT | TEXT_N => Some (new_variable Text i MYSQL_TYPE_STRING)
  | WTEXT | WTEXT_N => Some (new_variable Wtext i MYSQL_TYPE_STRING)
  | _ => None
  end.

(** The conversion object of column [i] of a record, if it needs one. *)
Definition conversion_of (set : Set_) (i : nat) : option Conversion :=
  match set !! i with
  | Some f => conversion_for (sqlType f) i
  | None => None
  end.

(** Whether column [i] of a record has a conversion object. *)
Definition is_converted (set : Set_) (i : nat) : bool :=
  match conversion_of set i with Some _ => true | None => false end.

(** Where the value of column [i] of a record lives: the field itself, or
    for a nullable kind the value inside the nullable wrapper. *)
Definition data_pointer (set : Set_) (i : nat) : Ptr :=
  if code U_TINY_N <=? getSqlType set i then GetVoid i else SqlPtr i.

(** The descriptor [bindBindings] makes of the descriptor [b] of column [i],
    [c] being the column's conversion object, if it has one. *)
Definition wired (set : Set_) (i : nat) (c : option Conversion)
    (b : MYSQL_BIND) : MYSQL_BIND :=
  set_buffer
    (match c with Some c => getPointer i c | None => data_pointer set i end)
    (if code U_TINY_N <=? getSqlType set i
     then set_is_null (Nullness i) b else b).

(** What of a conversion object is decided at prepare time: the column it is
    stored under, its kind, the column it fetches and its type code. *)
Definition identity (ic : nat * Conversion)
    : nat * Kind * nat * enum_field_types :=
  (fst ic, kind (snd ic), column (snd ic), bufferType (snd ic)).

(** Both conversion maps hold the conversion objects they held. *)
Definition same_identities (e e' : Env) : Prop :=
  map identity (paramsConversions e') = map identity (paramsConversions e) /\
  map identity (resultsConversions e') = map identity (resultsConversions e).

(** Every variable-width conversion object fetches the column it is stored
    under. *)
Definition keyed (m : Conversions) : Prop :=
  forall j c, find j m = Some c ->
    match kind c with
    | Blob | Text | Wtext => column c = j
    | _ => True
    end.

(** The conversion object and the descriptor of parameter column [i] are as
    they were, on a map that is [keyed] and stays so. *)
Definition same_column (i : nat) (e e' : Env) : Prop :=
  keyed (paramsConversions e) ->
  keyed (paramsConversions e') /\
  find i (paramsConversions e') = find i (paramsConversions e) /\
  paramsBindings e' !! i = paramsBindings e !! i.

(** The bytes [convertParam] leaves in the input buffer of a WTEXT conversion
    for the string [data]: none for the empty string, and else what the codec
    wrote into the room of [sizeof(wchar_t)] bytes for each character. *)
Definition transcoded (d : Driver) (data : list Z) : list Z :=
  let room := Z.to_nat (Z.of_nat (length data) * sizeof_wchar_t d) in
  if (room =? 0)%nat then [] else take room (snd (utf8_out d data room)).

(** What [convertParam] has left for the driver in the descriptor [b] and
    the conversion object [c] of parameter column [i], the column being of
    the conversion kind [k] and the caller's field holding [v]. *)
Definition handed_over (d : Driver) (i : nat) (k : Kind) (v : Value)
    (b : MYSQL_BIND) (c : Conversion) : Prop :=
  match k, v with
  | Date, VDate v =>
      buffer b = Internal i /\ internal c = TypedConversion.Date_param v
  | Datetime, VDatetime v =>
      buffer b = Internal i /\ internal c = TypedConversion.Datetime_param v
  | Time, VTime v =>
      buffer b = Internal i /\ internal c = TypedConversion.Time_param v
  | Blob, VBytes data | Text, VBytes data =>
      buffer b = DataFront i /\ conv_length c = Z.of_nat (length data)
  | Wtext, VWide data =>
      buffer b = InputBufferFront i /\
      inputBuffer c = transcoded d data /\
      conv_length c = Z.of_nat (length (inputBuffer c)) /\
      (length (inputBuffer c)
       <= Z.to_nat (Z.of_nat (length data) * sizeof_wchar_t d))%nat
  | _, _ => True
  end.

(** The found-rows descriptor has the shape it had. *)
Definition same_found_rows_shape (e e' : Env) : Prop :=
  shape (foundRowsBinding e') = shape (foundRowsBinding e).

(** Two records that are the same except for their null indicators. *)
Definition same_but_null_indicators (s1 s2 : Set_) : Prop :=
  Forall2 (fun f1 f2 =>
    sqlType f1 = sqlType f2 /\ sqlSize f1 = sqlSize f2 /\
    payload f1 = payload f2) s1 s2.

(** What [convertParam] leaves in the conversion object [c] of a column of
    the conversion kind [k] whose field holds [v]: the broken-down date or
    time, the number of bytes, the transcoded bytes and their number. *)
Definition scratch_image (d : Driver) (k : Kind) (v : Value) (c : Conversion)
    : Prop :=
  match k, v with
  | Date, VDate v => internal c = TypedConversion.Date_param v
  | Datetime, VDatetime v => internal c = TypedConversion.Datetime_param v
  | Time, VTime v => internal c = TypedConversion.Time_param v
  | Blob, VBytes data | Text, VBytes data =>
      conv_length c = Z.of_nat (length data)
  | Wtext, VWide data =>
      inputBuffer c = transcoded d data /\
      conv_length c = Z.of_nat (length (inputBuffer c))
  | _, _ => True
  end.

(** Two environments that are the same except for the payload of field [i]
    of the current result record. *)
Definition except_payload (i : nat) (e1 e2 : Env) : Prop :=
  forall v, poke i v e1 = poke i v e2.

(** Two computations that, started in environments that are the same except
    for that payload, have the same outcome, with values related by [Rv], and
    end in environments that are the same except for that payload. *)
Definition related {A} (i : nat) (Rv : A -> A -> Prop) (m1 m2 : M A) : Prop :=
  forall e1 e2, except_payload i e1 e2 ->
    match m1 e1, m2 e2 with
    | (Return a1, e1'), (Return a2, e2') => Rv a1 a2 /\ except_payload i e1' e2'
    | (Throw x1, e1'), (Throw x2, e2') => x1 = x2 /\ except_payload i e1' e2'
    | _, _ => False
    end.

(** ** Records and environments of the examples *)

Definition time_record : Set_ :=
  [field TIME (VTime {| posix_time.ticks := 0 |})].

(** A statement prepared with one TIME result column, about to fetch one row
    holding -04:05:06. *)
Definition time_env : Env :=
  prepared_env None (Some time_record) time_record
    [FetchRow false [CellTime minus_04_05_06]].

Definition date_2024_02_29 : gregorian.date :=
  {| gregorian.date_year := 2024; gregorian.date_month := 2;
     gregorian.date_day := 29 |}.

Definition date_2000_01_01 : gregorian.date :=
  {| gregorian.date_year := 2000; gregorian.date_month := 1;
     gregorian.date_day := 1 |}.

(** A parameter record of one nullable DATE that is null. *)
Definition null_date_record (d : gregorian.date) : Set_ :=
  [null_field DATE_N (VDate d)].

Definition null_date_env : Env :=
  prepared_env (Some (null_date_record date_2000_01_01)) None [] [].

(** The same statement with the record bound: the conversion object points
    at the field. *)
Definition null_date_bound_env : Env :=
  with_params
    (bindBindings (null_date_record date_2000_01_01)
       (paramsConversions null_date_env) (paramsBindings null_date_env))
    null_date_env.

(** A parameter record of a nullable INT that is null and a DATE. *)
Definition null_int_record (n : Z) : Set_ :=
  [null_field INT_N (VInteger n); field DATE (VDate date_2024_02_29)].

Definition null_int_env : Env :=
  prepared_env (Some (null_int_record 0)) None [] [].

Definition unsigned_record : Set_ := [field U_INT (VInteger 0)].
Definition signed_record : Set_ := [field INT (VInteger 0)].

(** A statement prepared with one INT result column, about to fetch two
    rows. *)
Definition two_rows : list Fetch :=
  [FetchRow false [CellValue (VInteger 1)];
   FetchRow false [CellValue (VInteger 2)]].

Definition two_rows_env : Env :=
  prepared_env None (Some signed_record) signed_record two_rows.

(** A Blob conversion for column 0 to which the driver reported 3 bytes. *)
Definition blob_conversion : Conversion :=
  set_external (SqlPtr 0) (set_conv_length 3 (new_variable Blob 0 MYSQL_TYPE_BLOB)).

Definition blob_record : Set_ := [field BLOB (VBytes [])].

(** A statement prepared with one BLOB result column, about to fetch one row
    of three bytes. *)
Definition blob_env : Env :=
  prepared_env None (Some blob_record) blob_record
    [FetchRow true [CellBytes [1; 2; 3]]].

Definition wtext_record : Set_ := [field WTEXT (VWide [])].

(** A statement prepared with one WTEXT result column, about to fetch one row
    whose value is the empty string. *)
Definition empty_wtext_env : Env :=
  prepared_env None (Some wtext_record) wtext_record
    [FetchRow false [CellBytes []]].

(** A statement prepared without parameters or results. *)
Definition plain_env : Env := prepared_env None None [] [].

(** One row, then a fetch error. *)
Definition row_then_error : list Fetch :=
  [FetchRow false [CellValue (VInteger 1)]; FetchError].

(** A statement prepared with one INT result column, about to fetch them. *)
Definition row_then_error_env : Env :=
  prepared_env None (Some signed_record) signed_record row_then_error.

(** A record of one nullable INT. *)
Definition nullable_int_record : Set_ := [null_field INT_N (VInteger 0)].

(** A DATE result column whose scratch holds the zero date 0000-00-00, as
    the driver delivers it. *)
Definition zero_date_env : Env :=
  with_results ([(0%nat, new_temporal Date)], [zero_bind])
    (fresh_env [field DATE (VDate date_2000_01_01)] []).

(** A parameter record of one WTEXT holding a character the codec rejects. *)
Definition wide_record : Set_ := [field WTEXT (VWide [-1])].

(** A statement prepared with that parameter. *)
Definition wide_env : Env := prepared_env (Some wide_record) None [] [].

(** A parameter record of one WTEXT holding three ASCII characters. *)
Definition abc_record : Set_ := [field WTEXT (VWide [97; 98; 99])].

(** A statement prepared with that parameter. *)
Definition abc_env : Env := prepared_env (Some abc_record) None [] [].

(** A parameter record of one DATE left default-constructed. *)
Definition unset_date_record : Set_ :=
  [field DATE (VSpecialDate gregorian.not_a_date_time)].

(** A statement prepared with that parameter. *)
Definition unset_date_env : Env :=
  prepared_env (Some unset_date_record) None [] [].

(** The statement of [wide_env] with the record bound. *)
Definition wide_bound_env : Env :=
  with_params (bindBindings wide_record (paramsConversions wide_env)
                 (paramsBindings wide_env)) wide_env.

(** * Properties *)

(** ** Lists and counting *)

Lemma count_app c (l1 l2 : list Call) :
  count c (l1 ++ l2) = (count c l1 + count c l2)%nat.
Proof. unfold count. by rewrite filter_app, length_app. Qed.

Lemma count_snoc_eq c (l : list Call) : count c (l ++ [c]) = S (count c l).
Proof.
  rewrite count_app. unfold count at 2. rewrite filter_cons_True by done.
  simpl. lia.
Qed.

Lemma count_snoc_ne c c' (l : list Call) :
  c' <> c -> count c (l ++ [c']) = count c l.
Proof.
  intros Hne. rewrite count_app. unfold count at 2.
  rewrite filter_cons_False by done. simpl. lia.
Qed.

Lemma length_resize n l : length (resize n l) = n.
Proof. unfold resize. rewrite length_app, length_take, length_replicate. lia. Qed.

Lemma length_overwrite src dst : length (overwrite src dst) = length dst.
Proof.
  unfold overwrite. rewrite length_take, length_app, length_drop. lia.
Qed.

Lemma length_update i f (b : list MYSQL_BIND) : length (update i f b) = length b.
Proof. unfold update. destruct (b !! i); [apply length_insert | done]. Qed.

Lemma update_lookup_ne i j f (b : list MYSQL_BIND) :
  i <> j -> update i f b !! j = b !! j.
Proof.
  intros Hne. unfold update. destruct (b !! i); [|done].
  by apply list_lookup_insert_ne.
Qed.

Lemma update_lookup_eq i f (b : list MYSQL_BIND) x :
  b !! i = Some x -> update i f b !! i = Some (f x).
Proof.
  intros Hx. unfold update. rewrite Hx.
  apply list_lookup_insert_eq. by eapply lookup_lt_Some.
Qed.

(** ** Reasoning about computations *)

Lemma bind_Return {A B} (m : M A) (k : A -> M B) e b e' :
  bind m k e = (Return b, e') ->
  exists a e1, m e = (Return a, e1) /\ k a e1 = (Return b, e').
Proof.
  unfold bind. destruct (m e) as [[a|x] e1]; [eauto | discriminate].
Qed.

Lemma bind_Throw {A B} (m : M A) (k : A -> M B) e x e' :
  bind m k e = (Throw x, e') ->
  m e = (Throw x, e') \/
  exists a e1, m e = (Return a, e1) /\ k a e1 = (Throw x, e').
Proof.
  unfold bind. destruct (m e) as [[a|y] e1]; [eauto | ].
  intros [= -> ->]. by left.
Qed.

(** A preorder between the environment before and after is kept by a
    computation when each of its steps keeps it. *)
Section Frame.

Context (R : Env -> Env -> Prop) `{!PreOrder R}.

Lemma keeps_ret {A} (a : A) : keeps R (ret a).
Proof. intros e. simpl. reflexivity. Qed.

Lemma keeps_throw {A} x : keeps R (@throw A x).
Proof. intros e. simpl. reflexivity. Qed.

Lemma keeps_get : keeps R get.
Proof. intros e. simpl. reflexivity. Qed.

Lemma keeps_bind {A B} (m : M A) (k : A -> M B) :
  keeps R m -> (forall a, keeps R (k a)) -> keeps R (bind m k).
Proof.
  intros Hm Hk e. unfold bind. specialize (Hm e).
  destruct (m e) as [[a|x] e1]; simpl in *; [|done].
  etransitivity; [exact Hm | apply Hk].
Qed.

Lemma keeps_modify f : (forall e, R e (f e)) -> keeps R (modify f).
Proof. intros Hf e. apply Hf. Qed.

Lemma keeps_for_each {A} (l : list A) body :
  (forall a, keeps R (body a)) -> keeps R (for_each l body).
Proof.
  intros Hb. induction l as [|a l IH]; simpl.
  - apply keeps_ret.
  - apply keeps_bind; auto.
Qed.

Lemma keeps_when c m : keeps R m -> keeps R (when c m).
Proof. destruct c; simpl; [done | intros _; apply keeps_ret]. Qed.

Lemma keeps_on_throw_of_keeps {A} (m : M A) : keeps R m -> keeps_on_throw R m.
Proof. intros Hm e x e' He. specialize (Hm e). by rewrite He in Hm. Qed.

Lemma keeps_on_throw_bind {A B} (m : M A) (k : A -> M B) :
  keeps R m -> (forall a, keeps_on_throw R (k a)) -> keeps_on_throw R (bind m k).
Proof.
  intros Hm Hk e x e' He. apply bind_Throw in He as [He|(a & e1 & Ha & He)].
  - specialize (Hm e). by rewrite He in Hm.
  - etransitivity; [|eapply Hk; exact He].
    specialize (Hm e). by rewrite Ha in Hm.
Qed.

End Frame.

Global Instance same_count_preorder c : PreOrder (same_count c).
Proof. split; unfold same_count; [done | congruence]. Qed.

Global Instance same_lengths_preorder : PreOrder same_lengths.
Proof.
  split; unfold same_lengths; [done | intros ??? [??] [??]; split; congruence].
Qed.

Global Instance same_insertId_preorder : PreOrder same_insertId.
Proof. split; unfold same_insertId; [done | congruence]. Qed.

Global Instance same_rows_preorder : PreOrder same_rows.
Proof.
  split; unfold same_rows; [done | intros ??? [??] [??]; split; congruence].
Qed.

(** Taking a computation apart into its steps: [special] applies a lemma
    about a step as a whole, [base] settles a single change of the
    environment. *)
Ltac keeps_steps' special base :=
  repeat (intros; first
    [ special
    | apply keeps_ret; tc_solve
    | apply keeps_throw; tc_solve
    | apply keeps_get; tc_solve
    | apply keeps_bind; [tc_solve| |]
    | apply keeps_for_each; [tc_solve|]
    | apply keeps_when; [tc_solve|]
    | match goal with
      | |- keeps _ (match ?x with _ => _ end) => destruct x
      end
    | apply keeps_modify; intros; solve [base] ]).

Ltac unfold_model :=
  unfold Statement.execute, Statement.bind_parameters, Statement.fetch_turn,
    Statement.init, Connection.getFoundRows, Connection.connect,
    Connection.destroy,
    TypedConversion.convertParam, TypedConversion.convertResult,
    TypedConversion.variable_convertResult, TypedConversion.Wtext_convertResult,
    TypedConversion.Wtext_convertResult_guarded,
    TypedConversion.Wtext_grab, TypedConversion.Wtext_transcode,
    TypedConversion.alter_param, TypedConversion.set_param_buffer,
    stmt_fetch, deliver_row, deliver, store, call,
    throw_MySQL_stmt, throw_MySQL_connection.

(** ** The binding builder *)

Lemma update_update i f g (b : list MYSQL_BIND) :
  update i f (update i g b) = update i (fun x => f (g x)) b.
Proof.
  unfold update. destruct (b !! i) as [x|] eqn:E.
  - rewrite list_lookup_insert_eq by (by eapply lookup_lt_Some).
    by rewrite list_insert_insert_eq.
  - by rewrite E.
Qed.

Lemma update_id i (b : list MYSQL_BIND) : b = update i (fun x => x) b.
Proof.
  unfold update. destruct (b !! i) eqn:E; [|done].
  by rewrite list_insert_id.
Qed.

(** One turn of the builder's loop changes the descriptor of its own column
    only, and in a way that depends on the row description alone. *)
Lemma buildBinding_update set i :
  exists g, forall c b, snd (buildBinding set i (c, b)) = update i g b.
Proof.
  unfold buildBinding.
  repeat match goal with
         | |- context [match ?x with _ => _ end] => destruct x
         end;
  eexists; intros c b; cbn [snd]; rewrite ?update_update;
  first [ reflexivity | apply update_id ].
Qed.

Lemma fold_buildBinding_length set l st :
  length (snd (foldl (fun st i => buildBinding set i st) st l)) = length (snd st).
Proof.
  revert st. induction l as [|i l IH]; intros [c b]; cbn [foldl]; [done|].
  rewrite IH. destruct (buildBinding_update set i) as [g Hg].
  rewrite Hg. apply length_update.
Qed.

Lemma fold_buildBinding_other set l st j :
  j ∉ l ->
  snd (foldl (fun st i => buildBinding set i st) st l) !! j = snd st !! j.
Proof.
  revert st. induction l as [|i l IH]; intros [c b] Hj; cbn [foldl]; [done|].
  apply not_elem_of_cons in Hj as [Hji Hj].
  rewrite IH by done. destruct (buildBinding_update set i) as [g Hg].
  rewrite Hg. by apply update_lookup_ne.
Qed.

Lemma buildBindings_length set c :
  length (snd (buildBindings set c)) = numberOfSqlElements set.
Proof.
  unfold buildBindings. rewrite fold_buildBinding_length.
  apply length_replicate.
Qed.

Lemma seq_split n i :
  (i < n)%nat -> seq 0 n = seq 0 i ++ [i] ++ seq (S i) (n - S i).
Proof.
  intros Hi. replace n with (i + S (n - S i))%nat at 1 by lia.
  by rewrite seq_app.
Qed.

(** The descriptor [buildBindings] leaves for column [i] is the one the
    column's own turn makes of a zero-filled descriptor. *)
Lemma buildBindings_lookup set c i :
  (i < length set)%nat ->
  snd (buildBindings set c) !! i
  = snd (buildBinding set i ([], replicate (S i) zero_bind)) !! i.
Proof.
  intros Hi. unfold buildBindings, numberOfSqlElements.
  rewrite (seq_split (length set) i Hi).
  rewrite !foldl_app. cbn [foldl app].
  rewrite fold_buildBinding_other by (rewrite elem_of_seq; lia).
  destruct (buildBinding_update set i) as [g Hg].
  destruct (foldl _ _ (seq 0 i)) as [c1 b1] eqn:E1.
  rewrite !Hg.
  assert (Hb1 : b1 !! i = Some zero_bind).
  { replace b1 with (snd (foldl (fun st j => buildBinding set j st)
                            (c, replicate (length set) zero_bind) (seq 0 i)))
      by (by rewrite E1).
    rewrite fold_buildBinding_other by (rewrite elem_of_seq; lia).
    cbn [snd]. apply lookup_replicate_2. done. }
  rewrite (update_lookup_eq _ _ _ _ Hb1).
  symmetry. apply update_lookup_eq. apply lookup_replicate_2. lia.
Qed.



(** Evaluating the arithmetic on a known kind. *)
Ltac eval_kind :=
  repeat match goal with
         | |- context [code ?t] =>
             let v := eval vm_compute in (code t) in
             progress change (code t) with v
         end;
  repeat match goal with
         | |- context [?a <=? ?b] =>
             let v := eval vm_compute in (a <=? b) in
             progress change (a <=? b) with v; cbv iota
         | |- context [?a + ?b] =>
             let v := eval vm_compute in (a + b) in
             progress change (a + b) with v
         | |- context [?a - ?b] =>
             let v := eval vm_compute in (a - b) in
             progress change (a - b) with v
         | |- context [of_code ?n] =>
             let v := eval vm_compute in (of_code n) in
             progress change (of_code n) with v; cbv iota
         end.

(** C5: in the binding builder an unsigned integer kind, nullable or not, is
    moved onto its signed sibling before the switch on the kind: the
    descriptor of its column gets the type code of the signed kind (TINY 8
    bits, SHORT 16, INT 32, BIGINT 64) and differs from the signed kind's
    descriptor in the unsigned flag only. *)
Theorem buildBindings_unsigned_like_signed
    (u s : SqlType) (t : enum_field_types) (w : Z)
    (set_u set_s : Set_) (cu cs : Conversions) (i : nat) (fu fs : Field) :
  (u, s, t, w) ∈ unsigned_kinds ->
  set_u !! i = Some fu -> sqlType fu = u ->
  set_s !! i = Some fs -> sqlType fs = s ->
  snd (buildBindings set_s cs) !! i = Some (set_buffer_type t zero_bind) /\
  snd (buildBindings set_u cu) !! i
    = Some (set_is_unsigned true (set_buffer_type t zero_bind)) /\
  integer_width t = Some w.
Proof.
  intros Hin Hu Htu Hs Hts.
  rewrite !buildBindings_lookup by (by eapply lookup_lt_Some).
  unfold buildBinding, getSqlType. rewrite Hu, Hs, Htu, Hts.
  assert (Hz : replicate (S i) zero_bind !! i = Some zero_bind)
    by (apply lookup_replicate_2; lia).
  unfold unsigned_kinds in Hin.
  repeat (apply elem_of_cons in Hin as [[= -> -> -> ->] | Hin]);
    [ .. | by apply elem_of_nil in Hin ].
  all: eval_kind; cbn [snd]; rewrite ?update_update;
       rewrite !(update_lookup_eq _ _ _ _ Hz); done.
Qed.

Lemma buildBindings_unsigned_like_signed_witness :
  snd (buildBindings signed_record []) !! 0%nat
    = Some (set_buffer_type MYSQL_TYPE_LONG zero_bind) /\
  snd (buildBindings unsigned_record []) !! 0%nat
    = Some (set_is_unsigned true (set_buffer_type MYSQL_TYPE_LONG zero_bind)) /\
  integer_width MYSQL_TYPE_LONG = Some 32.
Proof.
  apply (buildBindings_unsigned_like_signed U_INT INT MYSQL_TYPE_LONG 32
           unsigned_record signed_record [] [] 0
           (field U_INT (VInteger 0)) (field INT (VInteger 0)));
    [ apply list_elem_of_In; simpl; tauto | reflexivity .. ].
Defined.

(** ** What the steps of execute leave alone *)


Lemma alter_last_length f c :
  length (records (alter_last f c)) = length (records c).
Proof.
  unfold alter_last. destruct c as [bl recs]. simpl.
  destruct recs as [|r l] using rev_ind; [done|].
  destruct (l ++ [r]) eqn:E; [done|]. rewrite <- E. simpl.
  rewrite removelast_last, !length_app. done.
Qed.

Lemma bindBinding_length set i st :
  length (snd (bindBinding set i st)) = length (snd st).
Proof.
  destruct st as [c b]. unfold bindBinding.
  repeat match goal with
         | |- context [match ?x with _ => _ end] => destruct x
         end; cbn [snd]; rewrite ?length_update; done.
Qed.

Lemma bindBindings_length set c b :
  length (snd (bindBindings set c b)) = length b.
Proof.
  unfold bindBindings. generalize (seq 0 (numberOfSqlElements set)).
  intros l. change b with (snd (c, b)) at 2. generalize (c, b).
  induction l as [|i l IH]; intros st; cbn [foldl]; [done|].
  rewrite IH. apply bindBinding_length.
Qed.

(** *** The descriptor arrays keep their lengths *)

Ltac lengths_base :=
  unfold same_lengths; simpl;
  rewrite ?bindBindings_length, ?length_update; done.

Lemma run_grabIt_keeps R `{!PreOrder R} d cv data put :
  (forall l, keeps R (put l)) ->
  (forall col ty, keeps R (call (mysql_stmt_fetch_column col ty))) ->
  keeps R (TypedConversion.run_grabIt d cv data put).
Proof.
  intros Hput Hcall. unfold TypedConversion.run_grabIt, TypedConversion.grabIt.
  apply keeps_bind; [tc_solve | apply keeps_get; tc_solve |]. intros e.
  destruct (Z.of_nat (length data) =? conv_length cv);
    destruct (conv_length cv =? 0);
    try destruct (stmt_fetch_column_rc d (column cv) =? 0); simpl;
    keeps_steps' ltac:(first [apply Hput | apply Hcall]) ltac:(fail).
Qed.

Ltac lengths_steps :=
  unfold_model;
  keeps_steps' ltac:(apply run_grabIt_keeps; [tc_solve| |]) ltac:(lengths_base).

Lemma fetch_loop_same_lengths fuel d :
  keeps same_lengths (Statement.fetch_loop fuel d).
Proof.
  induction fuel as [|fuel IH]; simpl.
  - apply keeps_ret; tc_solve.
  - apply keeps_bind; [tc_solve | | intros []; [exact IH | apply keeps_ret; tc_solve]].
    lengths_steps.
Qed.

Lemma execute_same_lengths d p r i rw :
  keeps same_lengths (Statement.execute d p r i rw).
Proof.
  unfold_model.
  keeps_steps' ltac:(first [apply fetch_loop_same_lengths
                           | apply run_grabIt_keeps; [tc_solve| |]])
               ltac:(lengths_base).
Qed.

(** *** The insertId cell *)

Ltac insertId_base := unfold same_insertId; simpl; done.

Lemma fetch_loop_same_insertId fuel d :
  keeps same_insertId (Statement.fetch_loop fuel d).
Proof.
  induction fuel as [|fuel IH]; simpl.
  - apply keeps_ret; tc_solve.
  - apply keeps_bind; [tc_solve | | intros []; [exact IH | apply keeps_ret; tc_solve]].
    unfold_model.
    keeps_steps' ltac:(apply run_grabIt_keeps; [tc_solve| |]) ltac:(insertId_base).
Qed.

Lemma execute_with_results_same_insertId d p i rw :
  keeps same_insertId (Statement.execute d p true i rw).
Proof.
  unfold_model.
  keeps_steps' ltac:(first [apply fetch_loop_same_insertId
                           | apply run_grabIt_keeps; [tc_solve| |]])
               ltac:(insertId_base).
Qed.

Lemma execute_null_insertId_same_insertId d p r rw :
  keeps same_insertId (Statement.execute d p r false rw).
Proof.
  unfold_model.
  keeps_steps' ltac:(first [apply fetch_loop_same_insertId
                           | apply run_grabIt_keeps; [tc_solve| |]])
               ltac:(insertId_base).
Qed.

(** *** Calls a computation never makes *)

Ltac count_base :=
  unfold same_count; simpl;
  first [ reflexivity | apply count_snoc_ne; discriminate ].

Ltac count_steps :=
  unfold_model;
  keeps_steps' ltac:(apply run_grabIt_keeps; [tc_solve| |])
               ltac:(count_base).

Lemma fetch_loop_no_reset c fuel d :
  c = mysql_stmt_reset stmt \/ c = mysql_stmt_free_result stmt ->
  keeps (same_count c) (Statement.fetch_loop fuel d).
Proof.
  intros Hc. induction fuel as [|fuel IH]; simpl.
  - apply keeps_ret; tc_solve.
  - apply keeps_bind; [tc_solve | | intros []; [exact IH | apply keeps_ret; tc_solve]].
    destruct Hc as [-> | ->]; count_steps.
Qed.

Lemma reset_never_throws e x e' :
  (call (mysql_stmt_free_result stmt) ;; call (mysql_stmt_reset stmt)) e
  <> (Throw x, e').
Proof. done. Qed.

Lemma execute_throw_no_reset c d p r i rw :
  c = mysql_stmt_reset stmt \/ c = mysql_stmt_free_result stmt ->
  keeps_on_throw (same_count c) (Statement.execute d p r i rw).
Proof.
  intros Hc. unfold Statement.execute.
  do 6 (apply keeps_on_throw_bind;
        [ tc_solve
        | destruct Hc as [-> | ->]; unfold_model;
          keeps_steps' ltac:(first [ apply fetch_loop_no_reset; auto
                                    | apply run_grabIt_keeps; [tc_solve| |] ])
                       ltac:(count_base)
        | intros ? ]).
  intros e x e' He. by apply reset_never_throws in He.
Qed.

Lemma execute_return_resets d p r i rw e e' :
  Statement.execute d p r i rw e = (Return tt, e') ->
  exists l, log e' = l ++ [mysql_stmt_free_result stmt; mysql_stmt_reset stmt].
Proof.
  unfold Statement.execute. intros H.
  do 6 (apply bind_Return in H as (? & ? & _ & H)).
  injection H as <-. simpl. eexists. by rewrite <- app_assoc.
Qed.

(** C2, as the code has it: the reset step ([mysql_stmt_free_result] then
    [mysql_stmt_reset] on the statement) is the last thing a run of [execute]
    that returns does; a run that raises has made neither call. *)
Theorem execute_resets_only_on_return d parameters results insertId rows e :
  match Statement.execute d parameters results insertId rows e with
  | (Return _, e') =>
      exists l, log e' = l ++ [mysql_stmt_free_result stmt; mysql_stmt_reset stmt]
  | (Throw _, e') =>
      count (mysql_stmt_free_result stmt) (log e')
        = count (mysql_stmt_free_result stmt) (log e) /\
      count (mysql_stmt_reset stmt) (log e')
        = count (mysql_stmt_reset stmt) (log e)
  end.
Proof.
  destruct (Statement.execute d parameters results insertId rows e)
    as [[[]|x] e'] eqn:E.
  - by eapply execute_return_resets.
  - split; eapply execute_throw_no_reset in E; eauto.
Qed.

(** C2 as stated fails: when the driver's [mysql_stmt_execute] fails,
    [execute] raises the driver's error and the log holds neither
    [mysql_stmt_free_result] nor [mysql_stmt_reset]. *)
Lemma execute_error_skips_reset :
  let run := Statement.execute failing_execute_driver None false false false
               plain_env in
  fst run = Throw (MySQL "statement error" 2030) /\
  log (snd run)
  = [mysql_stmt_init stmt; mysql_stmt_prepare stmt "query";
     mysql_stmt_bind_param stmt; mysql_stmt_execute stmt] /\
  count (mysql_stmt_free_result stmt) (log (snd run)) = 0%nat /\
  count (mysql_stmt_reset stmt) (log (snd run)) = 0%nat.
Proof. vm_compute. done. Qed.

(** C4, as the code has it: when a step of [connect] fails it raises the
    driver's error, with the code and message of the connection handle for
    [mysql_init], [mysql_real_connect], [mysql_set_character_set] and
    [mysql_stmt_init], and of the found-rows statement for
    [mysql_stmt_prepare]; whatever happens, [connect] itself releases
    nothing: it calls neither [mysql_close] nor [mysql_stmt_close], which are
    the destructor's calls. *)
Theorem connect_raises_without_release d e :
  let run := Connection.connect d e in
  (init_ok d = false \/ real_connect_ok d = false \/
   set_character_set_rc d <> 0 \/ stmt_init_ok d foundRowsStatement = false ->
   fst run = Throw (MySQL (mysql_error d) (mysql_errno d))) /\
  (init_ok d = true -> real_connect_ok d = true ->
   set_character_set_rc d = 0 -> stmt_init_ok d foundRowsStatement = true ->
   stmt_prepare_rc d foundRowsStatement <> 0 ->
   fst run = Throw (MySQL (mysql_stmt_error d foundRowsStatement)
                          (mysql_stmt_errno d foundRowsStatement))) /\
  (init_ok d = true -> real_connect_ok d = true ->
   set_character_set_rc d = 0 -> stmt_init_ok d foundRowsStatement = true ->
   stmt_prepare_rc d foundRowsStatement = 0 ->
   fst run = Return tt) /\
  count mysql_close (log (snd run)) = count mysql_close (log e) /\
  count (mysql_stmt_close foundRowsStatement) (log (snd run))
    = count (mysql_stmt_close foundRowsStatement) (log e) /\
  log (snd (Connection.destroy e))
    = log e ++ [mysql_stmt_close foundRowsStatement; mysql_close].
Proof.
  cbv zeta. split; [|split; [|split; [|split; [|split]]]].
  - unfold Connection.connect, throw_MySQL_connection, throw_MySQL_stmt,
      bind, call, modify, ret, throw. simpl.
    destruct (init_ok d); [|done].
    destruct (real_connect_ok d); [|done].
    destruct (Z.eqb_spec (set_character_set_rc d) 0); [|done].
    destruct (stmt_init_ok d foundRowsStatement); [|done].
    intros [?|[?|[?|?]]]; done.
  - unfold Connection.connect, throw_MySQL_connection, throw_MySQL_stmt,
      bind, call, modify, ret, throw. simpl.
    intros -> -> Hc -> Hp. rewrite Hc. simpl.
    destruct (Z.eqb_spec (stmt_prepare_rc d foundRowsStatement) 0); done.
  - intros H1 H2 H3 H4 H5.
    unfold Connection.connect, throw_MySQL_connection, throw_MySQL_stmt,
      bind, call, modify, ret, throw. simpl.
    by rewrite H1, H2, H3, H4, H5.
  - change (same_count mysql_close e (snd (Connection.connect d e))).
    revert e. change (keeps (same_count mysql_close) (Connection.connect d)).
    count_steps.
  - change (same_count (mysql_stmt_close foundRowsStatement) e
              (snd (Connection.connect d e))).
    revert e.
    change (keeps (same_count (mysql_stmt_close foundRowsStatement))
              (Connection.connect d)).
    count_steps.
  - simpl. by rewrite <- app_assoc.
Qed.

Lemma connect_raises_without_release_witness :
  fst (Connection.connect failing_prepare_driver (fresh_env [] []))
  = Throw (MySQL (mysql_stmt_error failing_prepare_driver foundRowsStatement)
             (mysql_stmt_errno failing_prepare_driver foundRowsStatement)).
Proof.
  apply (connect_raises_without_release failing_prepare_driver (fresh_env [] []));
    [reflexivity .. | discriminate].
Defined.

(** C4 as stated fails: when [mysql_stmt_prepare] of the found-rows statement
    fails, [connect] raises with the connection handle and the statement
    initialised, and has called neither [mysql_close] nor
    [mysql_stmt_close]. *)
Lemma connect_error_skips_release :
  let run := Connection.connect failing_prepare_driver (fresh_env [] []) in
  fst run = Throw (MySQL "statement error" 2030) /\
  log (snd run)
  = [mysql_init; mysql_real_connect; mysql_set_character_set;
     mysql_stmt_init foundRowsStatement;
     mysql_stmt_prepare foundRowsStatement "SELECT FOUND_ROWS()"] /\
  count mysql_close (log (snd run)) = 0%nat /\
  count (mysql_stmt_close foundRowsStatement) (log (snd run)) = 0%nat.
Proof. vm_compute. done. Qed.

(** C10: a run of [execute] with a result container leaves the cell behind
    the [insertId] pointer as it was, whatever else happens, and so does a
    run with a null [insertId] pointer; a run without a result container and
    with a non-null [insertId] pointer that returns has filled the cell with
    the driver's last insert id. *)
Theorem insertId_written_only_without_results d parameters insertId rows e :
  insertId_cell (snd (Statement.execute d parameters true insertId rows e))
    = insertId_cell e /\
  insertId_cell (snd (Statement.execute d parameters false false rows e))
    = insertId_cell e /\
  (forall e', Statement.execute d parameters false true rows e = (Return tt, e') ->
              insertId_cell e' = insert_id d).
Proof.
  split; [|split].
  - apply execute_with_results_same_insertId.
  - apply execute_null_insertId_same_insertId.
  - intros e' H. unfold Statement.execute in H.
    do 5 (apply bind_Return in H as (? & ? & _ & H)).
    apply bind_Return in H as (? & e6 & H6 & H).
    injection H as <-. simpl.
    apply bind_Return in H6 as (? & ? & _ & H6).
    unfold when, bind, call, modify in H6. simpl in H6.
    injection H6 as <-. by subst e6.
Qed.

Lemma insertId_written_only_without_results_witness :
  insertId_cell (snd (Statement.execute quiet_driver None true true true plain_env))
    = insertId_cell plain_env /\
  insertId_cell (snd (Statement.execute quiet_driver None false true true plain_env))
    = insert_id quiet_driver.
Proof.
  split.
  - apply (insertId_written_only_without_results quiet_driver None true true plain_env).
  - apply (insertId_written_only_without_results quiet_driver None true true plain_env).
    vm_compute. reflexivity.
Defined.

(** *** The fetch loop *)



Global Instance loop_frame_preorder : PreOrder loop_frame.
Proof.
  split.
  - intros e. split; [|split]; reflexivity.
  - intros e1 e2 e3 (A1 & B1 & C1) (A2 & B2 & C2).
    split; [|split]; etransitivity; eassumption.
Qed.

Ltac loop_base :=
  unfold loop_frame, same_count, same_rows; simpl;
  rewrite ?alter_last_length;
  repeat split; first [ reflexivity | apply count_snoc_ne; discriminate ].

Ltac loop_steps :=
  unfold_model;
  keeps_steps' ltac:(apply run_grabIt_keeps; [tc_solve| |]) ltac:(loop_base).

Lemma deliver_row_loop_frame cells : keeps loop_frame (deliver_row cells).
Proof. loop_steps. Qed.

Lemma convertResult_loop_frame d i :
  keeps loop_frame (TypedConversion.convertResult d i).
Proof. loop_steps. Qed.



Lemma keeps_Return {A} R (m : M A) e a e' :
  keeps R m -> m e = (Return a, e') -> R e e'.
Proof. intros Hm He. specialize (Hm e). by rewrite He in Hm. Qed.

Lemma length_removelast_snoc {A} (l : list A) x :
  length (removelast (l ++ [x])) = length l.
Proof. by rewrite removelast_last. Qed.

Lemma stmt_fetch_spec e rc e' :
  stmt_fetch e = (Return rc, e') ->
  count res_manufacture (log e') = count res_manufacture (log e) /\
  count res_trim (log e') = count res_trim (log e) /\
  length (records (res e')) = length (records (res e)) /\
  match fetches e with
  | [] => rc = MYSQL_NO_DATA /\ fetches e' = []
  | FetchError :: _ => rc = 1
  | FetchRow truncated _ :: rest =>
      rc = (if truncated then MYSQL_DATA_TRUNCATED else 0) /\ fetches e' = rest
  end.
Proof.
  unfold stmt_fetch. intros H.
  apply bind_Return in H as (? & e1 & H1 & H).
  apply bind_Return in H as (e2 & ? & H2 & H).
  unfold call, modify, get in H1, H2. simplify_eq.
  cbn [fetches with_log] in H.
  destruct (fetches e) as [|[|truncated cells] rest] eqn:E.
  - unfold ret in H. simplify_eq. simpl. rewrite E, !count_snoc_ne by discriminate. done.
  - apply bind_Return in H as (? & ? & H3 & H).
    unfold ret, modify in H, H3. simplify_eq. simpl.
    rewrite !count_snoc_ne by discriminate. done.
  - apply bind_Return in H as (? & e3 & H3 & H).
    apply bind_Return in H as (? & e4 & H4 & H).
    unfold ret, modify in H, H3. simplify_eq.
    apply (keeps_Return _ _ _ _ _ (deliver_row_loop_frame cells)) in H4
      as (Hm & Ht & Hf & Hl).
    unfold same_count in *. simpl in *.
    rewrite count_snoc_ne in Hm, Ht by discriminate. done.
Qed.

Lemma fetch_turn_spec d e keepLooping e' :
  Statement.fetch_turn d e = (Return keepLooping, e') ->
  count res_manufacture (log e') = S (count res_manufacture (log e)) /\
  match fetches e with
  | [] =>
      keepLooping = false /\ fetches e' = [] /\
      count res_trim (log e') = S (count res_trim (log e)) /\
      length (records (res e')) = length (records (res e))
  | FetchError :: _ => False
  | FetchRow _ _ :: rest =>
      keepLooping = true /\ fetches e' = rest /\
      count res_trim (log e') = count res_trim (log e) /\
      length (records (res e')) = S (length (records (res e)))
  end.
Proof.
  unfold Statement.fetch_turn. intros H.
  apply bind_Return in H as (? & e1 & H1 & H).
  apply bind_Return in H as (? & e2 & H2 & H).
  apply bind_Return in H as (? & e3 & H3 & H).
  apply bind_Return in H as (? & e4 & H4 & H).
  apply bind_Return in H as (? & e5 & H5 & H).
  apply bind_Return in H as (rc & e6 & H6 & H).
  unfold call, modify in H1, H2, H3, H4.
  assert (e5 = e4) as ->.
  { destruct (stmt_bind_result_rc d stmt =? 0); [|discriminate].
    unfold ret in H5. by simplify_eq. }
  clear H5. simplify_eq.
  apply stmt_fetch_spec in H6 as (Hm & Ht & Hl & Hf). simpl in Hm, Ht, Hl, Hf.
  rewrite count_snoc_ne in Hm by discriminate. rewrite count_snoc_eq in Hm.
  rewrite !count_snoc_ne in Ht by discriminate.
  rewrite length_app in Hl. simpl in Hl.
  destruct (fetches e) as [|[|truncated cells] rest] eqn:E.
  - destruct Hf as [-> Hf]. simpl in H.
    apply bind_Return in H as (? & e7 & H7 & H).
    apply bind_Return in H as (? & e8 & H8 & H).
    unfold call, modify, ret in H7, H8, H. simplify_eq. simpl.
    rewrite !count_snoc_ne by discriminate. rewrite count_snoc_eq.
    repeat split; try done; try lia.
    destruct (records (res e6)) as [|r l] using rev_ind; [simpl in Hl; lia|].
    rewrite removelast_last. rewrite length_app in Hl. simpl in Hl. lia.
  - subst rc. simpl in H. discriminate.
  - destruct Hf as [-> Hf].
    assert (Hrc : ((if truncated then MYSQL_DATA_TRUNCATED else 0) =? 1) = false
                  /\ ((if truncated then MYSQL_DATA_TRUNCATED else 0)
                        =? MYSQL_NO_DATA) = false) by (by destruct truncated).
    destruct Hrc as [Hrc1 Hrc2]. rewrite Hrc1, Hrc2 in H.
    apply bind_Return in H as (? & e7 & H7 & H).
    apply bind_Return in H as (? & e8 & H8 & H).
    unfold get, ret in H7, H. simplify_eq.
    match type of H8 with
    | for_each ?l ?body _ = _ =>
        assert (Hk : keeps loop_frame (for_each l body))
          by (apply keeps_for_each; [tc_solve|]; intros i;
              apply convertResult_loop_frame)
    end.
    apply (keeps_Return _ _ _ _ _ Hk) in H8 as (Hm' & Ht' & Hf' & Hl').
    unfold same_count in *.
    repeat split; try congruence; lia.
Qed.


(** The loop stops before its fuel is used up: any two amounts of fuel above
    the length of the fetch script give the same run. *)
Lemma fetch_loop_fuel d fuel1 fuel2 e :
  (length (fetches e) < fuel1)%nat -> (length (fetches e) < fuel2)%nat ->
  Statement.fetch_loop fuel1 d e = Statement.fetch_loop fuel2 d e.
Proof.
  revert fuel2 e. induction fuel1 as [|fuel1 IH]; intros fuel2 e H1 H2; [lia|].
  destruct fuel2 as [|fuel2]; [lia|].
  cbn [Statement.fetch_loop]. unfold bind.
  destruct (Statement.fetch_turn d e) as [[keepLooping|x] e1] eqn:E; [|done].
  apply fetch_turn_spec in E as (_ & E).
  destruct (fetches e) as [|[|truncated cells] rest] eqn:Ef; [| done |].
  - by destruct E as (-> & _).
  - destruct E as (-> & Hf & _). simpl in H1, H2.
    apply IH; rewrite Hf; lia.
Qed.

Section Invariant.

Variable I : Env -> Prop.







End Invariant.












(** *** The second-pass fetch *)

Lemma current_alter_last f c :
  records c <> [] -> current (alter_last f c) = f (current c).
Proof.
  intros Hne. unfold alter_last, current.
  destruct (records c) as [|r l] eqn:E; [done|].
  cbn [records]. by rewrite last_last.
Qed.

Lemma alter_field_lookup i g (set : Set_) f :
  set !! i = Some f -> alter_field i g set !! i = Some (g f).
Proof.
  intros H. unfold alter_field. rewrite H.
  apply list_lookup_insert_eq. by eapply lookup_lt_Some.
Qed.

(** C7: [grabIt] leaves the byte container with exactly the length the driver
    reported for the column, and makes the per-column fetch, with the
    conversion's column number and type code, exactly when that length is not
    zero; for a Blob or Text result column the container is the caller's
    value at [external]. *)
Theorem grabIt_resizes_then_fetches d c row data :
  0 <= conv_length c ->
  let '(data', calls, _) := TypedConversion.grabIt d c row data in
  Z.of_nat (length data') = conv_length c /\
  (conv_length c <> 0 ->
   calls = [mysql_stmt_fetch_column (column c) (bufferType c)]) /\
  (conv_length c = 0 -> calls = []) /\
  forall e i f,
    field_of (external c) = Some i ->
    records (res e) <> [] ->
    current (res e) !! i = Some f ->
    current_row e = row ->
    TypedConversion.container_of (load (current (res e)) (external c)) = data ->
    let e' := snd (TypedConversion.variable_convertResult d c e) in
    payload <$> current (res e') !! i = Some (VBytes data') /\
    log e' = log e ++ calls.
Proof.
  intros Hlen. unfold TypedConversion.grabIt.
  set (data0 := if Z.of_nat (length data) =? conv_length c then data
                else resize (Z.to_nat (conv_length c)) data).
  assert (H0 : Z.of_nat (length data0) = conv_length c).
  { unfold data0. destruct (Z.eqb_spec (Z.of_nat (length data)) (conv_length c));
      [done|]. rewrite length_resize. lia. }
  assert (Henv : forall data' calls x e i f,
    TypedConversion.grabIt d c row data = (data', calls, x) ->
    field_of (external c) = Some i ->
    records (res e) <> [] ->
    current (res e) !! i = Some f ->
    current_row e = row ->
    TypedConversion.container_of (load (current (res e)) (external c)) = data ->
    let e' := snd (TypedConversion.variable_convertResult d c e) in
    payload <$> current (res e') !! i = Some (VBytes data') /\
    log e' = log e ++ calls).
  { intros data' calls x e i f Hg Hi Hne Hf Hrow Hdata.
    unfold TypedConversion.variable_convertResult, TypedConversion.run_grabIt.
    unfold bind, get. simpl. rewrite Hrow, Hdata, Hg.
    unfold store. rewrite Hi. unfold modify.
    assert (Hcur :
      payload <$> current (alter_last (alter_field i (with_payload (VBytes data')))
                             (res e)) !! i = Some (VBytes data')).
    { rewrite current_alter_last by done.
      by rewrite (alter_field_lookup _ _ _ _ Hf). }
    unfold TypedConversion.grabIt in Hg.
    destruct (conv_length c =? 0); [|destruct (stmt_fetch_column_rc d (column c) =? 0)];
      simplify_eq; simpl; rewrite ?app_nil_r; split; solve [done | apply Hcur]. }
  destruct (Z.eqb_spec (conv_length c) 0) as [Hz|Hz].
  - split; [done | split; [done | split; [done|]]].
    intros env i f. eapply Henv. unfold TypedConversion.grabIt. fold data0.
    by rewrite Hz.
  - destruct (stmt_fetch_column_rc d (column c) =? 0) eqn:Erc.
    + rewrite length_overwrite. split; [done | split; [done | split; [done|]]].
      intros env i f. eapply Henv. unfold TypedConversion.grabIt. fold data0.
      destruct (Z.eqb_spec (conv_length c) 0); [done|]. by rewrite Erc.
    + split; [done | split; [done | split; [done|]]].
      intros env i f. eapply Henv. unfold TypedConversion.grabIt. fold data0.
      destruct (Z.eqb_spec (conv_length c) 0); [done|]. by rewrite Erc.
Qed.

Lemma grabIt_resizes_then_fetches_witness :
  let '(data', calls, _) :=
    TypedConversion.grabIt quiet_driver blob_conversion [CellBytes [1; 2; 3]] [] in
  Z.of_nat (length data') = 3 /\
  calls = [mysql_stmt_fetch_column 0 MYSQL_TYPE_BLOB].
Proof.
  pose proof (grabIt_resizes_then_fetches quiet_driver blob_conversion
                [CellBytes [1; 2; 3]] []) as H.
  simpl in H. destruct H as (H1 & H2 & _); [lia|].
  split; [exact H1 | apply H2; lia].
Defined.

(** A whole run: the row's three bytes arrive in the caller's container
    through one per-column fetch. *)
Lemma execute_fetches_blob :
  let e' := snd (Statement.execute quiet_driver None true false false blob_env) in
  records (res e') = [[field BLOB (VBytes [1; 2; 3])]] /\
  count (mysql_stmt_fetch_column 0 MYSQL_TYPE_BLOB) (log e') = 1%nat.
Proof. vm_compute. done. Qed.

(** *** The wide-text result path *)

Lemma find_alter_eq i f m c :
  find i m = Some c -> find i (alter i f m) = Some (f c).
Proof.
  induction m as [|[j c'] m IH]; simpl; [done|].
  destruct (Nat.eqb i j) eqn:E; simpl; rewrite E; [by intros [= ->] | done].
Qed.

(** C8: on a WTEXT result column whose fetched value is empty, the source
    runs the transcoding step all the same, since the [if] that should guard
    the block ends in an empty statement; the guarded reading skips it. *)
Theorem Wtext_convertResult_transcodes_empty d i c e :
  find i (resultsConversions e) = Some c ->
  conv_length c = 0 ->
  count codecvt_in (log (snd (TypedConversion.Wtext_convertResult d i c e)))
    = S (count codecvt_in (log e)) /\
  count codecvt_in
    (log (snd (TypedConversion.Wtext_convertResult_guarded d i c e)))
    = count codecvt_in (log e).
Proof.
  intros Hfind Hlen.
  unfold TypedConversion.Wtext_convertResult,
    TypedConversion.Wtext_convertResult_guarded,
    TypedConversion.Wtext_grab, TypedConversion.Wtext_transcode,
    TypedConversion.run_grabIt, TypedConversion.grabIt.
  rewrite Hlen. change (0 =? 0) with true. cbv iota.
  set (data := if Z.of_nat (length (inputBuffer c)) =? 0 then inputBuffer c
               else resize (Z.to_nat 0) (inputBuffer c)).
  assert (Hdata : data = []).
  { unfold data. destruct (Z.eqb_spec (Z.of_nat (length (inputBuffer c))) 0).
    - destruct (inputBuffer c); [done | simpl in *; lia].
    - done. }
  rewrite Hdata. unfold bind, get, modify, ret. simpl.
  rewrite (find_alter_eq _ _ _ _ Hfind). simpl.
  unfold store, call, modify.
  destruct (field_of (external c)); simpl.
  - destruct (utf8_in d [] 0) as [[] wide]; simpl;
      rewrite ?count_snoc_eq; done.
  - destruct (utf8_in d [] 0) as [[] wide]; simpl;
      rewrite ?count_snoc_eq; done.
Qed.

Lemma Wtext_convertResult_transcodes_empty_witness :
  count codecvt_in
    (log (snd (TypedConversion.Wtext_convertResult quiet_driver 0
                 (new_variable Wtext 0 MYSQL_TYPE_STRING) empty_wtext_env)))
  = S (count codecvt_in (log empty_wtext_env)).
Proof.
  apply (Wtext_convertResult_transcodes_empty quiet_driver 0
           (new_variable Wtext 0 MYSQL_TYPE_STRING) empty_wtext_env);
    reflexivity.
Defined.

(** The same on a whole run: fetching one row whose WTEXT value is empty
    calls the codec once. *)
Lemma execute_empty_wtext_row_transcodes :
  count codecvt_in
    (log (snd (Statement.execute quiet_driver None true false false
                 empty_wtext_env))) = 1%nat.
Proof. vm_compute. reflexivity. Qed.

(** C9: after [init] each descriptor array for which a row description was
    supplied has as many descriptors as the description has fields, and
    neither [bindBindings] nor [execute] nor a row fetch changes the length
    of either array. *)
Theorem descriptor_vectors_keep_declared_length d :
  (forall queryString parameterSet resultSet e e',
     Statement.init d queryString parameterSet resultSet e = (Return tt, e') ->
     (forall set, parameterSet = Some set ->
                  length (paramsBindings e') = numberOfSqlElements set) /\
     (forall set, resultSet = Some set ->
                  length (resultsBindings e') = numberOfSqlElements set)) /\
  (forall set c b, length (snd (bindBindings set c b)) = length b) /\
  (forall parameters results insertId rows e,
     same_lengths e
       (snd (Statement.execute d parameters results insertId rows e))) /\
  (forall e, same_lengths e (snd (stmt_fetch e))).
Proof.
  split; [|split; [|split]].
  - intros q pset rset e e' H. unfold Statement.init in H.
    do 4 (apply bind_Return in H as (? & ? & _ & H)).
    apply bind_Return in H as (? & e5 & H5 & H).
    destruct pset as [pset|], rset as [rset|];
      unfold modify, ret in H5, H; simplify_eq; simpl;
      split; intros set [= <-] || (intros set ?; discriminate).
    all: try apply buildBindings_length.
  - apply bindBindings_length.
  - intros. apply execute_same_lengths.
  - change (keeps same_lengths stmt_fetch). lengths_steps.
Qed.

Lemma descriptor_vectors_keep_declared_length_witness :
  length (resultsBindings two_rows_env) = numberOfSqlElements signed_record /\
  same_lengths two_rows_env
    (snd (Statement.execute quiet_driver None true false false two_rows_env)).
Proof.
  destruct (descriptor_vectors_keep_declared_length quiet_driver)
    as (Hinit & _ & Hexecute & _).
  split.
  - apply (Hinit "query"%string None (Some signed_record)
             (fresh_env signed_record two_rows) two_rows_env);
      [vm_compute|]; reflexivity.
  - apply Hexecute.
Defined.

(** ** The TIME conversion *)


Lemma int32_small x : 0 <= x < 2 ^ 31 -> int32 x = x.
Proof.
  intros Hx. unfold int32. rewrite Z.mod_small by lia.
  destruct (x <? 2 ^ 31) eqn:E; [done | lia].
Qed.

Lemma int32_signed x : - 2 ^ 31 <= x < 2 ^ 31 -> int32 x = x.
Proof.
  intros Hx. unfold int32. destruct (Z.neg_nonneg_cases x) as [Hn|Hp].
  - replace (x mod 2 ^ 32) with (x + 2 ^ 32)
      by (apply Z.mod_unique with (q := -1); lia).
    destruct (x + 2 ^ 32 <? 2 ^ 31) eqn:E; lia.
  - rewrite Z.mod_small by lia. destruct (x <? 2 ^ 31) eqn:E; lia.
Qed.

Lemma int32_uint32_neg x : 0 <= x <= 2 ^ 31 -> int32 (uint32 (x * -1)) = - x.
Proof.
  intros Hx. unfold int32, uint32. rewrite Z.mod_mod by lia.
  replace (x * -1) with (- x) by lia.
  destruct (Z.eq_dec x 0) as [->|Hne]; [done|].
  replace ((- x) mod 2 ^ 32) with (2 ^ 32 - x).
  - destruct (2 ^ 32 - x <? 2 ^ 31) eqn:E; lia.
  - apply Z.mod_unique with (q := -1); lia.
Qed.

(** C1: [convertResult] of the TIME kind negates the hours alone when the
    driver's [neg] flag is set: the duration's constructor is given the
    negated hours and the minutes and seconds as they are, not negative.  The
    constructor makes of them minus the sum of the magnitudes when the hours
    are not zero, and the plain sum when they are: a negative TIME of less
    than an hour comes out positive.  A TIME column holding -04:05:06 yields
    a duration of exactly -14706 seconds, also through a whole run of
    [execute]. *)
Theorem Time_convertResult_negates_hours (t : MYSQL_TIME) :
  0 <= hour t < 2 ^ 31 -> 0 <= minute t < 2 ^ 31 -> 0 <= second t < 2 ^ 31 ->
  (neg t = true -> int32 (TypedConversion.Time_hours_argument t) = - hour t) /\
  TypedConversion.Time_result t
  = posix_time.make_time_duration
      (if neg t then - hour t else hour t) (minute t) (second t) /\
  posix_time.ticks (TypedConversion.Time_result t)
  = (if neg t && (0 <? hour t) then -1 else 1)
    * (hour t * 3600 + minute t * 60 + second t)
    * posix_time.ticks_per_second /\
  posix_time.total_seconds (TypedConversion.Time_result t)
  = (if neg t && (0 <? hour t) then -1 else 1)
    * (hour t * 3600 + minute t * 60 + second t) /\
  posix_time.total_seconds (TypedConversion.Time_result minus_04_05_06) = -14706 /\
  records (res (snd (Statement.execute quiet_driver None true false false time_env)))
    = [[field TIME (VTime {| posix_time.ticks :=
                               -14706 * posix_time.ticks_per_second |})]].
Proof.
  intros Hh Hm Hs.
  assert (Ha : int32 (TypedConversion.Time_hours_argument t)
               = if neg t then - hour t else hour t).
  { unfold TypedConversion.Time_hours_argument. destruct (neg t).
    - apply int32_uint32_neg. lia.
    - apply int32_small. lia. }
  assert (Hr : TypedConversion.Time_result t
               = posix_time.make_time_duration
                   (if neg t then - hour t else hour t) (minute t) (second t)).
  { unfold TypedConversion.Time_result, posix_time.make_time_duration.
    rewrite Ha. destruct (neg t); [|by rewrite (int32_small (hour t)) by lia].
    by rewrite (int32_signed (- hour t)) by lia. }
  assert (Ht : posix_time.ticks (TypedConversion.Time_result t)
               = (if neg t && (0 <? hour t) then -1 else 1)
                 * (hour t * 3600 + minute t * 60 + second t)
                 * posix_time.ticks_per_second).
  { unfold TypedConversion.Time_result, posix_time.make_time_duration.
    rewrite Ha, !int32_small by lia.
    replace (minute t <? 0) with false by (symmetry; apply Z.ltb_ge; lia).
    replace (second t <? 0) with false by (symmetry; apply Z.ltb_ge; lia).
    rewrite !orb_false_r.
    destruct (neg t); cbn [andb].
    - destruct (Z.ltb_spec 0 (hour t)) as [Hpos|Hzero].
      + replace (- hour t <? 0) with true by (symmetry; apply Z.ltb_lt; lia).
        cbn [posix_time.ticks].
        rewrite (Z.abs_neq (- hour t)), (Z.abs_eq (minute t)),
          (Z.abs_eq (second t)) by lia.
        lia.
      + assert (Hz : hour t = 0) by lia. rewrite Hz. cbn [posix_time.ticks].
        replace (- 0 <? 0) with false by reflexivity.
        cbn [posix_time.ticks]. lia.
    - replace (hour t <? 0) with false by (symmetry; apply Z.ltb_ge; lia).
      cbn [posix_time.ticks]. lia. }
  split; [intros Hneg; by rewrite Ha, Hneg|].
  split; [exact Hr|]. split; [exact Ht|].
  split; [|split; [reflexivity | vm_compute; reflexivity]].
  unfold posix_time.total_seconds. rewrite Ht.
  unfold posix_time.ticks_per_second. apply Z.quot_mul. lia.
Qed.

Lemma Time_convertResult_negates_hours_witness :
  int32 (TypedConversion.Time_hours_argument minus_04_05_06) = - 4 /\
  TypedConversion.Time_result minus_04_05_06
  = posix_time.make_time_duration (- 4) 5 6 /\
  posix_time.total_seconds (TypedConversion.Time_result minus_04_05_06)
  = - (4 * 3600 + 5 * 60 + 6) /\
  posix_time.total_seconds (TypedConversion.Time_result minus_00_05_06)
  = 5 * 60 + 6.
Proof.
  destruct (Time_convertResult_negates_hours minus_04_05_06
              ltac:(simpl; lia) ltac:(simpl; lia) ltac:(simpl; lia))
    as (H1 & H2 & _ & H4 & _).
  destruct (Time_convertResult_negates_hours minus_00_05_06
              ltac:(simpl; lia) ltac:(simpl; lia) ltac:(simpl; lia))
    as (_ & _ & _ & H4' & _).
  split; [exact (H1 eq_refl)|]. split; [exact H2|].
  split; [exact H4 | exact H4'].
Defined.

(** ** Null fields *)






Global Instance same_externals_preorder : PreOrder same_externals.
Proof.
  split.
  - intros e i c H. eauto.
  - intros e1 e2 e3 H12 H23 i c3 H3.
    apply H23 in H3 as (c2 & H2 & E2). apply H12 in H2 as (c1 & H1 & E1).
    exists c1. split; [done | congruence].
Qed.

Lemma find_alter i j f m :
  find i (alter j f m)
  = if Nat.eqb i j then f <$> find i m else find i m.
Proof.
  induction m as [|[k c] m IH]; simpl.
  - by destruct (Nat.eqb i j).
  - destruct (Nat.eqb_spec j k) as [->|Hjk]; simpl.
    + destruct (Nat.eqb_spec i k); done.
    + destruct (Nat.eqb_spec i k) as [->|Hik].
      * destruct (Nat.eqb_spec k j); [congruence | done].
      * exact IH.
Qed.

Lemma alter_same_externals i f e :
  (forall c, external (f c) = external c) ->
  same_externals e
    (with_params (alter i f (paramsConversions e), paramsBindings e) e).
Proof.
  intros Hf j c' H. simpl in H. rewrite find_alter in H.
  destruct (Nat.eqb j i); [|eauto].
  destruct (find j (paramsConversions e)) as [c|]; [|done].
  simpl in H. injection H as <-. eauto.
Qed.

Ltac externals_base :=
  first [ apply alter_same_externals; done
        | intros ? ? H; simpl in H; eauto ].

Lemma convertParam_same_externals d set i :
  keeps same_externals (TypedConversion.convertParam d set i).
Proof.
  unfold_model. keeps_steps' ltac:(fail) ltac:(externals_base).
Qed.

Lemma same_but_null_payloads_length s1 s2 :
  same_but_null_payloads s1 s2 -> length s1 = length s2.
Proof. apply Forall2_length. Qed.

Lemma same_but_null_payloads_getSqlType s1 s2 i :
  same_but_null_payloads s1 s2 -> getSqlType s1 i = getSqlType s2 i.
Proof.
  intros H. unfold getSqlType.
  destruct (s1 !! i) as [f1|] eqn:E1.
  - destruct (Forall2_lookup_l _ _ _ _ _ H E1) as (f2 & -> & (-> & _)). done.
  - apply lookup_ge_None in E1. rewrite (Forall2_length _ _ _ H) in E1.
    apply lookup_ge_None in E1. by rewrite E1.
Qed.

(** [bindBindings] reads the kinds of the record, never its values. *)
Lemma bindBindings_same_but_null_payloads s1 s2 c b :
  same_but_null_payloads s1 s2 -> bindBindings s1 c b = bindBindings s2 c b.
Proof.
  intros H. unfold bindBindings, numberOfSqlElements.
  rewrite (same_but_null_payloads_length _ _ H).
  generalize (seq 0 (length s2)). intros l. generalize (c, b).
  induction l as [|i l IH]; intros st; cbn [foldl]; [done|].
  rewrite IH. f_equal. destruct st as [c0 b0]. unfold bindBinding.
  by rewrite (same_but_null_payloads_getSqlType _ _ i H).
Qed.

(** After [bindBindings] the conversion object of a column of the record
    points at that column's field; the map keeps its keys. *)
Lemma fold_bindBinding_externals set l st i cv :
  find i (fst (foldl (fun st j => bindBinding set j st) st l)) = Some cv ->
  (exists cv0, find i (fst st) = Some cv0) /\
  (i ∈ l -> field_of (external cv) = Some i).
Proof.
  revert st cv. induction l as [|j l IH] using rev_ind; intros [c b] cv.
  - cbn [foldl fst]. intros H. split; [eauto | by intros ?%elem_of_nil].
  - rewrite foldl_app. cbn [foldl].
    destruct (foldl _ (c, b) l) as [c1 b1] eqn:E1.
    unfold bindBinding at 1.
    destruct (find j c1) as [cj|] eqn:Ej; cbn [fst].
    + rewrite find_alter. destruct (Nat.eqb_spec i j) as [->|Hij].
      * rewrite Ej. cbn. intros [= <-]. split.
        -- specialize (IH (c, b) cj). rewrite E1 in IH. simpl in IH. apply IH in Ej as [Hex _]. exact Hex.
        -- intros _. simpl. by destruct (code U_TINY_N <=? getSqlType set j).
      * intros H. specialize (IH (c, b) cv). rewrite E1 in IH. simpl in IH.
        apply IH in H as [? H]. split; [done|].
        intros [?| ->%list_elem_of_singleton]%elem_of_app; [auto | done].
    + intros H. specialize (IH (c, b) cv). rewrite E1 in IH. simpl in IH.
      pose proof H as H'. apply IH in H as [? H]. split; [done|].
      intros [?| ->%list_elem_of_singleton]%elem_of_app; [auto | congruence].
Qed.

Lemma columns_within_lookup conversions set i c :
  columns_within conversions set = true ->
  find i conversions = Some c -> (i < length set)%nat.
Proof.
  unfold columns_within. induction conversions as [|[j c'] m IH]; simpl; [done|].
  intros [Hj Hm]%andb_prop. destruct (Nat.eqb_spec i j) as [->|]; [|auto].
  intros _. by apply Nat.ltb_lt.
Qed.


Lemma convertParam_reads_agree d s1 s2 i e :
  reads_agree s1 s2 e ->
  TypedConversion.convertParam d s1 i e = TypedConversion.convertParam d s2 i e.
Proof.
  intros H. unfold TypedConversion.convertParam, bind, get.
  destruct (find i (paramsConversions e)) as [c|] eqn:E; [|done].
  by rewrite (H i c E).
Qed.

Lemma reads_agree_same_externals s1 s2 e e' :
  same_externals e e' -> reads_agree s1 s2 e -> reads_agree s1 s2 e'.
Proof.
  intros He H i c' Hc'. apply He in Hc' as (c & Hc & ->). eauto.
Qed.

Lemma for_each_convertParam_reads_agree d s1 s2 l e :
  reads_agree s1 s2 e ->
  for_each l (fun i => TypedConversion.convertParam d s1 i) e
  = for_each l (fun i => TypedConversion.convertParam d s2 i) e.
Proof.
  revert e. induction l as [|i l IH]; intros e H; cbn [for_each]; [done|].
  unfold bind. rewrite (convertParam_reads_agree d s1 s2 i e H).
  destruct (TypedConversion.convertParam d s2 i e) as [[[]|x] e1] eqn:E; [|done].
  apply IH. eapply reads_agree_same_externals; [|exact H].
  eapply keeps_Return; [apply convertParam_same_externals | exact E].
Qed.

Section Untouched.

Variables (i : nat) (v : Value).

Lemma untouched_ret {A} (a : A) : untouched i v (ret a).
Proof. intros e He. done. Qed.

Lemma untouched_throw {A} x : untouched i v (@throw A x).
Proof. intros e He. done. Qed.

Lemma untouched_bind {A B} (m : M A) (k : A -> M B) :
  untouched i v m -> (forall a, untouched i v (k a)) ->
  untouched i v (bind m k).
Proof.
  intros Hm Hk e He. unfold bind. destruct (Hm e He) as [Em He1].
  rewrite Em. destruct (m e) as [[a|x] e1]; simpl in *; [|done].
  apply Hk. done.
Qed.

Lemma untouched_get_bind {B} (k : Env -> M B) :
  (forall e, unaddressed i e -> k (poke i v e) = k e /\ untouched i v (k e)) ->
  untouched i v (bind get k).
Proof.
  intros Hk e He. unfold bind, get. destruct (Hk e He) as [-> Hu].
  by apply Hu.
Qed.

Lemma untouched_for_each {A} (l : list A) body :
  (forall a, untouched i v (body a)) -> untouched i v (for_each l body).
Proof.
  intros Hb. induction l as [|a l IH]; simpl.
  - apply untouched_ret.
  - apply untouched_bind; auto.
Qed.

Lemma untouched_call c : untouched i v (call c).
Proof. intros e He. done. Qed.

Lemma alter_field_alter_field j g h (set : Set_) :
  i <> j ->
  alter_field j g (alter_field i h set) = alter_field i h (alter_field j g set).
Proof.
  intros Hij. unfold alter_field.
  destruct (set !! i) as [fi|] eqn:Ei, (set !! j) as [fj|] eqn:Ej;
    rewrite ?list_lookup_insert_ne, ?Ei, ?Ej by done; try done.
  by apply list_insert_insert_ne.
Qed.

Lemma alter_last_snoc f bl l r :
  alter_last f {| blank := bl; records := l ++ [r] |}
  = {| blank := bl; records := l ++ [f r] |}.
Proof.
  unfold alter_last, current. cbn [records blank].
  destruct (l ++ [r]) as [|r0 l0] eqn:E; [by destruct l|]. rewrite <- E.
  by rewrite removelast_last, last_last.
Qed.

Lemma alter_last_alter_last f g c :
  alter_last f (alter_last g c) = alter_last (fun s => f (g s)) c.
Proof.
  destruct c as [bl recs]. destruct recs as [|r l _] using rev_ind; [done|].
  by rewrite !alter_last_snoc.
Qed.

Lemma alter_last_ext f g c :
  (forall s, f s = g s) -> alter_last f c = alter_last g c.
Proof.
  intros H. destruct c as [bl recs].
  destruct recs as [|r l _] using rev_ind; [done|].
  by rewrite !alter_last_snoc, H.
Qed.

Lemma untouched_store p g :
  field_of p <> Some i -> untouched i v (store p g).
Proof.
  intros Hp e He. unfold store. destruct (field_of p) as [j|]; [|done].
  split; [|done]. unfold modify, poke. simpl. f_equal.
  destruct e as [? ? ? ? ? ? ? ? r ? ?]. unfold with_res. simpl. f_equal.
  rewrite !alter_last_alter_last. apply alter_last_ext. intros s.
  apply alter_field_alter_field. congruence.
Qed.

Lemma current_poke_load e p :
  field_of p <> Some i ->
  load (current (res (poke i v e))) p = load (current (res e)) p.
Proof.
  intros Hp. unfold load. destruct (field_of p) as [j|]; [|done].
  unfold poke. cbn [res with_res]. destruct (res e) as [bl recs].
  destruct recs as [|r l _] using rev_ind; [done|].
  rewrite alter_last_snoc. unfold current. cbn [records].
  rewrite !last_last. unfold alter_field.
  destruct (r !! i); [|done]. rewrite list_lookup_insert_ne; [done|congruence].
Qed.

Lemma untouched_results_modify f :
  (forall e, resultsConversions (f e) = resultsConversions e
             \/ exists j g, (forall c, external (g c) = external c) /\
                  resultsConversions (f e) = alter j g (resultsConversions e)) ->
  (forall e, f (poke i v e) = poke i v (f e)) ->
  untouched i v (modify f).
Proof.
  intros Hconv Hf e He. split; [unfold modify; by rewrite Hf|].
  simpl. intros j c Hc. destruct (Hconv e) as [E|(j' & g & Hg & E)].
  - rewrite E in Hc. eauto.
  - rewrite E, find_alter in Hc. destruct (Nat.eqb j j').
    + destruct (find j (resultsConversions e)) as [c0|] eqn:E0; [|done].
      simpl in Hc. injection Hc as <-. rewrite Hg. eauto.
    + eauto.
Qed.


Lemma untouched_alter_results j g :
  (forall c, external (g c) = external c) ->
  untouched i v (modify (fun e =>
    with_results (alter j g (resultsConversions e), resultsBindings e) e)).
Proof.
  intros Hg. apply untouched_results_modify; [|done].
  intros e. right. exists j, g. done.
Qed.

Lemma untouched_run_grabIt d c data put :
  (forall l, untouched i v (put l)) ->
  untouched i v (TypedConversion.run_grabIt d c data put).
Proof.
  intros Hput. unfold TypedConversion.run_grabIt.
  apply untouched_get_bind. intros e He. split; [done|].
  destruct (TypedConversion.grabIt d c (current_row e) data) as [[data' calls] x].
  apply untouched_bind; [apply Hput|]. intros _.
  apply untouched_bind; [apply untouched_for_each, untouched_call|]. intros _.
  destruct x; [apply untouched_throw | apply untouched_ret].
Qed.

Lemma untouched_convertResult d j :
  untouched i v (TypedConversion.convertResult d j).
Proof.
  unfold TypedConversion.convertResult.
  apply untouched_get_bind. intros e He. split; [done|].
  destruct (find j (resultsConversions e)) as [c|] eqn:Ec; [|apply untouched_ret].
  pose proof (He j c Ec) as Hc.
  destruct (kind c).
  - destruct (TypedConversion.Date_result (internal c));
      [by apply untouched_store | apply untouched_throw].
  - destruct (TypedConversion.Datetime_result (internal c));
      [by apply untouched_store | apply untouched_throw].
  - by apply untouched_store.
  - unfold TypedConversion.variable_convertResult.
    apply untouched_get_bind. intros e1 He1. split.
    + by rewrite current_poke_load.
    + apply untouched_run_grabIt. intros l. by apply untouched_store.
  - unfold TypedConversion.variable_convertResult.
    apply untouched_get_bind. intros e1 He1. split.
    + by rewrite current_poke_load.
    + apply untouched_run_grabIt. intros l. by apply untouched_store.
  - unfold TypedConversion.Wtext_convertResult, TypedConversion.Wtext_grab,
      TypedConversion.Wtext_transcode.
    apply untouched_bind.
    { apply untouched_bind.
      { apply untouched_run_grabIt. intros l. by apply untouched_alter_results. }
      intros _. apply untouched_get_bind. intros e1 He1. split.
      + by rewrite current_poke_load.
      + apply untouched_bind; [by apply untouched_store | intros _].
        apply untouched_ret. }
    intros [conversionBuffer output]. cbn [fst snd].
    apply untouched_bind; [apply untouched_call|]. intros _.
    destruct (utf8_in d _ _) as [r wide].
    apply untouched_bind; [by apply untouched_store|]. intros _.
    destruct (TypedConversion.codecvt_result_is_ok r); [|apply untouched_throw].
    apply untouched_bind; [by apply untouched_store|]. intros _.
    by apply untouched_alter_results.
Qed.

End Untouched.

(** After [bindBindings] on the result side no conversion object points at a
    column that has none. *)
Lemma bindBindings_unaddressed set i e :
  columns_within (resultsConversions e) set = true ->
  find i (resultsConversions e) = None ->
  unaddressed i
    (with_results (bindBindings set (resultsConversions e) (resultsBindings e)) e).
Proof.
  intros Hin Hi j c Hc. cbn [resultsConversions with_results] in Hc.
  unfold bindBindings in Hc.
  apply fold_bindBinding_externals in Hc as [[c0 Hc0] Hc]. cbn [fst] in Hc0.
  pose proof (columns_within_lookup _ _ _ _ Hin Hc0) as Hj.
  rewrite Hc by (apply elem_of_seq; unfold numberOfSqlElements; lia).
  intros [= ->]. congruence.
Qed.

Lemma find_alter_same i f m :
  find i (alter i f m) = f <$> find i m.
Proof. by rewrite find_alter, Nat.eqb_refl. Qed.

(** Cutting the buffer to what the codec wrote leaves the bytes written. *)
Lemma resize_overwrite bytes buf room :
  length buf = room ->
  resize (Nat.min (length bytes) room) (overwrite bytes buf) = take room bytes.
Proof.
  intros <-. unfold resize, overwrite.
  rewrite length_take, length_app, length_drop.
  match goal with
  | |- _ ++ replicate ?n _ = _ => replace n with 0%nat by lia
  end.
  cbn [replicate]. rewrite app_nil_r, take_take.
  match goal with
  | |- take ?n _ = _ =>
      replace n with (Nat.min (length bytes) (length buf)) by lia
  end.
  rewrite take_app_le by lia.
  destruct (Nat.le_ge_cases (length buf) (length bytes)) as [Hle|Hge].
  - by rewrite Nat.min_r.
  - rewrite Nat.min_l by done. by rewrite !take_ge by lia.
Qed.

(** *** The null indicator is not read on the parameter path *)

Lemma same_but_null_indicators_getSqlType s1 s2 i :
  same_but_null_indicators s1 s2 -> getSqlType s1 i = getSqlType s2 i.
Proof.
  intros H. unfold getSqlType.
  destruct (s1 !! i) as [f1|] eqn:E1.
  - destruct (Forall2_lookup_l _ _ _ _ _ H E1) as (f2 & -> & (-> & _)). done.
  - apply lookup_ge_None in E1. rewrite (Forall2_length _ _ _ H) in E1.
    apply lookup_ge_None in E1. by rewrite E1.
Qed.

Lemma same_but_null_indicators_load s1 s2 p :
  same_but_null_indicators s1 s2 -> load s1 p = load s2 p.
Proof.
  intros H. unfold load. destruct (field_of p) as [i|]; [|done].
  destruct (s1 !! i) as [f1|] eqn:E1.
  - destruct (Forall2_lookup_l _ _ _ _ _ H E1) as (f2 & -> & (_ & _ & Hp)).
    cbn. by rewrite Hp.
  - apply lookup_ge_None in E1. rewrite (Forall2_length _ _ _ H) in E1.
    apply lookup_ge_None in E1. by rewrite E1.
Qed.

Lemma bindBindings_same_but_null_indicators s1 s2 c b :
  same_but_null_indicators s1 s2 -> bindBindings s1 c b = bindBindings s2 c b.
Proof.
  intros H. unfold bindBindings, numberOfSqlElements.
  rewrite (Forall2_length _ _ _ H).
  generalize (seq 0 (length s2)). intros l. generalize (c, b).
  induction l as [|i l IH]; intros st; cbn [foldl]; [done|].
  rewrite IH. f_equal. destruct st as [c0 b0]. unfold bindBinding.
  by rewrite (same_but_null_indicators_getSqlType _ _ i H).
Qed.

Lemma bind_parameters_same_but_null_indicators d s1 s2 e :
  same_but_null_indicators s1 s2 ->
  Statement.bind_parameters d (Some s1) e
  = Statement.bind_parameters d (Some s2) e.
Proof.
  intros H. unfold Statement.bind_parameters, bind, modify, get.
  rewrite <- (bindBindings_same_but_null_indicators _ _ _ _ H).
  simpl. apply for_each_convertParam_reads_agree.
  intros i c _. by apply same_but_null_indicators_load.
Qed.

(** *** What convertParam leaves in the conversion object *)

Lemma convertParam_image d set i c v e e' :
  find i (paramsConversions e) = Some c ->
  load set (external c) = Some v ->
  TypedConversion.convertParam d set i e = (Return tt, e') ->
  exists c', find i (paramsConversions e') = Some c' /\
             scratch_image d (kind c) v c'.
Proof.
  intros Hc Hl.
  unfold TypedConversion.convertParam, bind at 1. unfold get at 1.
  cbv beta iota. rewrite Hc, Hl. unfold scratch_image.
  unfold TypedConversion.alter_param, TypedConversion.set_param_buffer.
  destruct (kind c) eqn:Ek; destruct v;
    try (unfold ret; intros [= <-]; by eexists);
    try (unfold bind, modify, throw; discriminate).
  1-5: unfold bind, modify; intros [= <-];
       cbn [paramsConversions paramsBindings with_params fst snd];
       rewrite find_alter_same, Hc; by eexists.
  rewrite length_resize.
  set (room := Z.to_nat (Z.of_nat (length chars) * sizeof_wchar_t d)).
  unfold bind at 1, modify at 1.
  destruct (Nat.eqb_spec room 0) as [Hz|Hnz].
  - unfold bind, modify, get, ret. intros [= <-].
    cbn [paramsConversions paramsBindings with_params with_log log fst snd].
    rewrite !find_alter_same, Hc. cbn [fmap option_fmap option_map].
    eexists. split; [reflexivity|].
    cbn [conv_length inputBuffer set_conv_length set_inputBuffer].
    unfold transcoded. fold room. rewrite Hz. cbn [Nat.eqb]. done.
  - unfold bind at 2, call, modify at 1.
    destruct (utf8_out d chars room) as [r bytes] eqn:Eu.
    destruct r; cbn [TypedConversion.codecvt_result_is_ok];
      [|unfold bind, modify, throw; discriminate ..].
    unfold bind, modify, get, ret. intros [= <-].
    cbn [paramsConversions paramsBindings with_params with_log log fst snd].
    rewrite !find_alter_same, Hc. cbn [fmap option_fmap option_map].
    eexists. split; [reflexivity|].
    cbn [conv_length inputBuffer set_conv_length set_inputBuffer].
    unfold transcoded. fold room. rewrite Eu. cbn [snd].
    destruct (Nat.eqb_spec room 0) as [|_]; [done|].
    rewrite (resize_overwrite _ _ room) by apply length_resize. done.
Qed.

(** *** The payload of a result field is not observed *)

Lemma alter_field_twice i g h (set : Set_) :
  alter_field i g (alter_field i h set) = alter_field i (fun f => g (h f)) set.
Proof.
  unfold alter_field. destruct (set !! i) as [f|] eqn:E.
  - rewrite list_lookup_insert_eq by (by eapply lookup_lt_Some).
    by rewrite list_insert_insert_eq.
  - by rewrite E.
Qed.

Lemma poke_poke i v w e : poke i v (poke i w e) = poke i v e.
Proof.
  unfold poke. destruct e as [? ? ? ? ? ? ? ? r ? ?]. unfold with_res. simpl.
  f_equal. rewrite alter_last_alter_last. apply alter_last_ext. intros s.
  by rewrite alter_field_twice.
Qed.

Section Related.

Variable i : nat.

Lemma except_payload_refl e : except_payload i e e.
Proof. by intros v. Qed.

Lemma except_payload_poke v e : except_payload i e (poke i v e).
Proof. intros w. by rewrite poke_poke. Qed.

Lemma related_ret {A} (Rv : A -> A -> Prop) a1 a2 :
  Rv a1 a2 -> related i Rv (ret a1) (ret a2).
Proof. intros Ha e1 e2 He. done. Qed.

Lemma related_throw {A} (Rv : A -> A -> Prop) x :
  related i Rv (throw x) (throw x).
Proof. intros e1 e2 He. done. Qed.

Lemma related_bind {A B} (Rv : A -> A -> Prop) (Rw : B -> B -> Prop)
    (m1 m2 : M A) (k1 k2 : A -> M B) :
  related i Rv m1 m2 ->
  (forall a1 a2, Rv a1 a2 -> related i Rw (k1 a1) (k2 a2)) ->
  related i Rw (bind m1 k1) (bind m2 k2).
Proof.
  intros Hm Hk e1 e2 He. unfold bind. specialize (Hm e1 e2 He).
  destruct (m1 e1) as [[a1|x1] e1'], (m2 e2) as [[a2|x2] e2']; try done.
  destruct Hm as [Ha He']. by apply Hk.
Qed.

Lemma related_get : related i (except_payload i) get get.
Proof. intros e1 e2 He. done. Qed.

Lemma related_modify f1 f2 :
  (forall e1 e2, except_payload i e1 e2 -> except_payload i (f1 e1) (f2 e2)) ->
  related i eq (modify f1) (modify f2).
Proof. intros Hf e1 e2 He. split; [done | by apply Hf]. Qed.

(** A change that a replacement of the payload commutes with. *)
Lemma related_modify_commute f :
  (forall v e, f (poke i v e) = poke i v (f e)) ->
  related i eq (modify f) (modify f).
Proof.
  intros Hf. apply related_modify. intros e1 e2 He v.
  by rewrite <- !Hf, (He v).
Qed.

Lemma related_call c : related i eq (call c) (call c).
Proof. by apply related_modify_commute. Qed.

Lemma related_for_each {A} (l : list A) body :
  (forall a, related i eq (body a) (body a)) ->
  related i eq (for_each l body) (for_each l body).
Proof.
  intros Hb. induction l as [|a l IH]; cbn [for_each].
  - by apply related_ret.
  - eapply related_bind; [apply Hb | intros _ _ _; exact IH].
Qed.

(** A store into another field commutes with the replacement; a store of a
    payload into the field itself is undone by it. *)
Lemma related_store p w1 w2 :
  (field_of p <> Some i -> w1 = w2) ->
  related i eq (store p (with_payload w1)) (store p (with_payload w2)).
Proof.
  intros Hw. unfold store.
  destruct (field_of p) as [j|] eqn:Ep; [|by apply related_ret].
  destruct (decide (j = i)) as [->|Hne].
  - apply related_modify. intros e1 e2 He v.
    change (poke i v (poke i w1 e1) = poke i v (poke i w2 e2)).
    rewrite !poke_poke. apply He.
  - rewrite Hw by congruence. apply related_modify_commute. intros v e.
    unfold poke. destruct e as [? ? ? ? ? ? ? ? r ? ?]. unfold with_res.
    simpl. f_equal. rewrite !alter_last_alter_last. apply alter_last_ext.
    intros s. apply alter_field_alter_field. congruence.
Qed.

Lemma except_payload_load e1 e2 p :
  except_payload i e1 e2 -> field_of p <> Some i ->
  load (current (res e1)) p = load (current (res e2)) p.
Proof.
  intros He Hp.
  rewrite <- (current_poke_load i (VInteger 0) e1 p Hp).
  rewrite <- (current_poke_load i (VInteger 0) e2 p Hp).
  by rewrite (He (VInteger 0)).
Qed.

Lemma except_payload_results e1 e2 :
  except_payload i e1 e2 ->
  resultsConversions e1 = resultsConversions e2 /\
  current_row e1 = current_row e2.
Proof.
  intros He. specialize (He (VInteger 0)).
  split.
  - by apply (f_equal resultsConversions) in He.
  - by apply (f_equal current_row) in He.
Qed.

(** What [grabIt] calls and raises does not depend on the container. *)
Lemma grabIt_container d c row data1 data2 :
  let '(data1', calls1, x1) := TypedConversion.grabIt d c row data1 in
  let '(data2', calls2, x2) := TypedConversion.grabIt d c row data2 in
  calls1 = calls2 /\ x1 = x2.
Proof.
  unfold TypedConversion.grabIt.
  destruct (conv_length c =? 0); [done|].
  by destruct (stmt_fetch_column_rc d (column c) =? 0).
Qed.

Lemma related_run_grabIt d c data1 data2 put1 put2 :
  (forall l1 l2, (data1 = data2 -> l1 = l2) ->
                 related i eq (put1 l1) (put2 l2)) ->
  related i eq (TypedConversion.run_grabIt d c data1 put1)
               (TypedConversion.run_grabIt d c data2 put2).
Proof.
  intros Hput. unfold TypedConversion.run_grabIt.
  eapply related_bind; [apply related_get|]. intros e1 e2 He.
  destruct (except_payload_results _ _ He) as [_ <-].
  pose proof (grabIt_container d c (current_row e1) data1 data2) as Hg.
  assert (Heq : data1 = data2 ->
                TypedConversion.grabIt d c (current_row e1) data1
                = TypedConversion.grabIt d c (current_row e1) data2)
    by (by intros ->).
  destruct (TypedConversion.grabIt d c (current_row e1) data1)
    as [[l1 calls1] x1].
  destruct (TypedConversion.grabIt d c (current_row e1) data2)
    as [[l2 calls2] x2].
  destruct Hg as [<- <-].
  eapply related_bind.
  { apply Hput. intros E. apply Heq in E. by simplify_eq. }
  intros _ _ _.
  eapply related_bind; [apply related_for_each; intros; apply related_call|].
  intros _ _ _. destruct x1; [apply related_throw | by apply related_ret].
Qed.

Lemma related_alter_results j g :
  related i eq
    (modify (fun e =>
       with_results (alter j g (resultsConversions e), resultsBindings e) e))
    (modify (fun e =>
       with_results (alter j g (resultsConversions e), resultsBindings e) e)).
Proof. by apply related_modify_commute. Qed.

Lemma length_wide_resize n l1 l2 : length (resize n l1) = length (resize n l2).
Proof. by rewrite !length_resize. Qed.

Lemma related_convertResult d j :
  related i eq (TypedConversion.convertResult d j)
               (TypedConversion.convertResult d j).
Proof.
  unfold TypedConversion.convertResult.
  eapply related_bind; [apply related_get|]. intros e1 e2 He.
  destruct (except_payload_results _ _ He) as [<- _].
  destruct (find j (resultsConversions e1)) as [c|]; [|by apply related_ret].
  destruct (kind c).
  - destruct (TypedConversion.Date_result (internal c));
      [by apply related_store | apply related_throw].
  - destruct (TypedConversion.Datetime_result (internal c));
      [by apply related_store | apply related_throw].
  - by apply related_store.
  - unfold TypedConversion.variable_convertResult.
    eapply related_bind; [apply related_get|]. intros e1' e2' He'.
    apply related_run_grabIt. intros l1 l2 Hl. apply related_store.
    intros Hp. rewrite Hl; [done|].
    by rewrite (except_payload_load _ _ _ He' Hp).
  - unfold TypedConversion.variable_convertResult.
    eapply related_bind; [apply related_get|]. intros e1' e2' He'.
    apply related_run_grabIt. intros l1 l2 Hl. apply related_store.
    intros Hp. rewrite Hl; [done|].
    by rewrite (except_payload_load _ _ _ He' Hp).
  - unfold TypedConversion.Wtext_convertResult.
    eapply (related_bind
              (fun b1 b2 => fst b1 = fst b2 /\
                            length (snd b1) = length (snd b2) /\
                            (field_of (external c) <> Some i ->
                             snd b1 = snd b2))).
    + unfold TypedConversion.Wtext_grab.
      eapply related_bind.
      { apply related_run_grabIt. intros l1 l2 Hl. rewrite Hl by done.
        apply related_alter_results. }
      intros _ _ _.
      eapply related_bind; [apply related_get|]. intros e1' e2' He'.
      destruct (except_payload_results _ _ He') as [<- _].
      eapply related_bind.
      { apply related_store. intros Hp.
        by rewrite (except_payload_load _ _ _ He' Hp). }
      intros _ _ _. apply related_ret. cbn [fst snd].
      split; [done|]. split; [apply length_wide_resize|].
      intros Hp. by rewrite (except_payload_load _ _ _ He' Hp).
    + intros [cb1 o1] [cb2 o2] (Hcb & Hlen & Ho). cbn [fst snd] in *.
      subst cb2. unfold TypedConversion.Wtext_transcode.
      eapply related_bind; [apply related_call|]. intros _ _ _.
      rewrite <- Hlen.
      destruct (utf8_in d cb1 (length o1)) as [r wide].
      eapply related_bind.
      { apply related_store. intros Hp. by rewrite (Ho Hp). }
      intros _ _ _.
      destruct (TypedConversion.codecvt_result_is_ok r);
        [|apply related_throw].
      eapply related_bind.
      { apply related_store. intros Hp. by rewrite (Ho Hp). }
      intros _ _ _. apply related_alter_results.
Qed.

Lemma related_outcomes {A} (m : M A) v e :
  related i eq m m ->
  fst (m (poke i v e)) = fst (m e) /\
  forall w, poke i w (snd (m (poke i v e))) = poke i w (snd (m e)).
Proof.
  intros Hm. specialize (Hm e (poke i v e) (except_payload_poke v e)).
  destruct (m e) as [[a1|x1] e1'], (m (poke i v e)) as [[a2|x2] e2'];
    try done; destruct Hm as [-> He]; (split; [done|]); intros w;
    symmetry; apply He.
Qed.

End Related.

(** C3, as the code has it.  On the parameter path of [execute]
    ([bindBindings] and every [convertParam]) the null indicator is never
    read: two parameter records that differ only in null indicators give the
    same outcome and leave the same environment.  The payload of a null field
    is not read when the field's column has no conversion object: the same
    holds of two records that differ only in such payloads.  For a column
    with a conversion object [convertParam] runs all the same and reads the
    payload: when it returns, the conversion object holds the payload's
    broken-down date or time (DATE, DATETIME, TIME), the number of its bytes
    (BLOB, TEXT), or its transcoded bytes and their number (WTEXT).  On the
    result path the payload of a field is not observed, whatever the column:
    the conversion step after a fetch has the same outcome and leaves the
    same environment, but for that payload itself, whatever the field of the
    current record held before; and it neither reads nor writes the payload
    of a field no conversion object points at, which after [bindBindings] is
    every field whose column has no conversion object. *)
Theorem unconverted_null_payloads_not_read d e :
  (forall s1 s2,
     columns_within (paramsConversions e) s1 = true ->
     same_but_unconverted_null_payloads (paramsConversions e) s1 s2 ->
     Statement.bind_parameters d (Some s1) e
     = Statement.bind_parameters d (Some s2) e) /\
  (forall s1 s2,
     same_but_null_indicators s1 s2 ->
     Statement.bind_parameters d (Some s1) e
     = Statement.bind_parameters d (Some s2) e) /\
  (forall set i c v e',
     find i (paramsConversions e) = Some c ->
     load set (external c) = Some v ->
     TypedConversion.convertParam d set i e = (Return tt, e') ->
     exists c', find i (paramsConversions e') = Some c' /\
                scratch_image d (kind c) v c') /\
  (forall i v,
     let step := for_each (map fst (resultsConversions e))
                   (fun j => TypedConversion.convertResult d j) in
     fst (step (poke i v e)) = fst (step e) /\
     forall w, poke i w (snd (step (poke i v e))) = poke i w (snd (step e))) /\
  (forall i v,
     unaddressed i e ->
     let step := for_each (map fst (resultsConversions e))
                   (fun j => TypedConversion.convertResult d j) in
     step (poke i v e) = (fst (step e), poke i v (snd (step e)))) /\
  (forall set i,
     columns_within (resultsConversions e) set = true ->
     find i (resultsConversions e) = None ->
     unaddressed i
       (with_results
          (bindBindings set (resultsConversions e) (resultsBindings e)) e)).
Proof.
  split; [|split; [|split; [|split; [|split]]]].
  - intros s1 s2 Hin [Hsame Hconv].
    unfold Statement.bind_parameters, bind, modify, get.
    rewrite <- (bindBindings_same_but_null_payloads _ _ _ _ Hsame).
    simpl. apply for_each_convertParam_reads_agree.
    intros i c Hc. simpl in Hc. unfold bindBindings in Hc.
    apply fold_bindBinding_externals in Hc as [[c0 Hc0] Hc]. simpl in Hc0.
    pose proof (columns_within_lookup _ _ _ _ Hin Hc0) as Hi.
    unfold load. rewrite Hc by (apply elem_of_seq; unfold numberOfSqlElements; lia).
    destruct (s1 !! i) as [f1|] eqn:E1.
    + destruct (Forall2_lookup_l _ _ _ _ _ Hsame E1) as (f2 & E2 & _).
      rewrite E2. simpl. f_equal. eauto.
    + apply lookup_ge_None in E1. lia.
  - intros s1 s2. apply bind_parameters_same_but_null_indicators.
  - intros set i c v e'. apply convertParam_image.
  - intros i v. cbv zeta. apply related_outcomes.
    apply related_for_each. intros j. apply related_convertResult.
  - intros i v He. cbv zeta.
    apply (untouched_for_each i v); [|done].
    intros j. apply untouched_convertResult.
  - intros set i. apply bindBindings_unaddressed.
Qed.

Lemma unconverted_null_payloads_not_read_witness :
  Statement.bind_parameters quiet_driver (Some (null_int_record 1)) null_int_env
  = Statement.bind_parameters quiet_driver (Some (null_int_record 2)) null_int_env
  /\
  exists c',
    find 0%nat
      (paramsConversions
         (snd (TypedConversion.convertParam quiet_driver
                 (null_date_record date_2024_02_29) 0 null_date_bound_env)))
    = Some c' /\
    internal c' = TypedConversion.Date_param date_2024_02_29.
Proof.
  split.
  - apply (proj1 (unconverted_null_payloads_not_read quiet_driver null_int_env)).
    + reflexivity.
    + split.
      * constructor; [|constructor; [|constructor]].
        -- split; [|split; [|split; [|right; split]]]; reflexivity.
        -- split; [|split; [|split; [|left]]]; reflexivity.
      * intros i c f1 f2 Hc H1 H2.
        destruct i as [|[|i]]; simpl in Hc, H1, H2;
          [discriminate | | discriminate].
        by simplify_eq.
  - apply (proj1 (proj2 (proj2 (unconverted_null_payloads_not_read quiet_driver
                                  null_date_bound_env)))
             (null_date_record date_2024_02_29) 0%nat
             (set_external (GetVoid 0) (new_temporal Date))
             (VDate date_2024_02_29));
      reflexivity.
Defined.

(** C3 as stated fails: [convertParam] runs for every conversion object,
    whatever the null indicator says.  On a nullable DATE parameter that is
    null, the two runs below differ only in the payload, and the conversion's
    scratch ends up holding the payload's year. *)
Lemma null_date_payload_is_read :
  let run d :=
    Statement.bind_parameters quiet_driver (Some (null_date_record d))
      null_date_env in
  same_but_null_payloads (null_date_record date_2024_02_29)
    (null_date_record date_2000_01_01) /\
  (year ∘ internal <$> find 0 (paramsConversions (snd (run date_2024_02_29))))
    = Some 2024 /\
  (year ∘ internal <$> find 0 (paramsConversions (snd (run date_2000_01_01))))
    = Some 2000 /\
  run date_2024_02_29 <> run date_2000_01_01.
Proof.
  cbv zeta. split; [|split; [|split]].
  - constructor; [|constructor].
    split; [|split; [|split; [|right; split]]]; reflexivity.
  - vm_compute. reflexivity.
  - vm_compute. reflexivity.
  - intros H.
    apply (f_equal (fun r => year ∘ internal
                               <$> find 0 (paramsConversions (snd r)))) in H.
    vm_compute in H. discriminate.
Qed.

(** ** The temporal conversions, there and back *)

(** Hours, minutes and seconds of a count of seconds, with C++ division. *)
Lemma seconds_split S :
  S = Z.quot S 3600 * 3600 + Z.rem (Z.quot S 60) 60 * 60 + Z.rem S 60.
Proof.
  pose proof (Z.quot_rem' S 60) as H1.
  pose proof (Z.quot_rem' (Z.quot S 60) 60) as H2.
  rewrite Z.quot_quot in H2 by lia. change (60 * 60) with 3600 in H2. lia.
Qed.

Lemma seconds_split_nonneg S :
  0 <= S ->
  0 <= Z.quot S 3600 /\ 0 <= Z.rem (Z.quot S 60) 60 < 60 /\ 0 <= Z.rem S 60 < 60.
Proof.
  intros HS. split; [apply Z.quot_pos; lia|].
  split; apply Z.rem_bound_pos; try lia. apply Z.quot_pos; lia.
Qed.

Lemma seconds_split_opp S :
  Z.quot (- S) 3600 = - Z.quot S 3600 /\
  Z.rem (Z.quot (- S) 60) 60 = - Z.rem (Z.quot S 60) 60 /\
  Z.rem (- S) 60 = - Z.rem S 60.
Proof.
  rewrite !Z.quot_opp_l, !Z.rem_opp_l by lia. done.
Qed.

Lemma ticks_hours T :
  Z.quot T (3600 * posix_time.ticks_per_second)
  = Z.quot (Z.quot T posix_time.ticks_per_second) 3600.
Proof.
  unfold posix_time.ticks_per_second. rewrite Z.quot_quot by lia.
  f_equal.
Qed.

Lemma ticks_minutes T :
  Z.quot T (60 * posix_time.ticks_per_second)
  = Z.quot (Z.quot T posix_time.ticks_per_second) 60.
Proof.
  unfold posix_time.ticks_per_second. rewrite Z.quot_quot by lia.
  f_equal.
Qed.

Lemma uint32_small x : 0 <= x < 2 ^ 32 -> uint32 x = x.
Proof. intros Hx. unfold uint32. apply Z.mod_small. lia. Qed.

(** X1: the TIME conversion there and back.  A duration of fewer than 2^31
    hours that [convertParam] writes into the scratch and [convertResult]
    reads back comes out cut to whole seconds, and with its sign lost when it
    lies strictly between minus one hour and zero: the sign is taken from
    [hours()] alone.  The scratch holds absolute values, with minutes and
    seconds below 60. *)
Theorem Time_round_trip (t : posix_time.time_duration) :
  Z.abs (posix_time.total_seconds t) < 3600 * 2 ^ 31 ->
  TypedConversion.Time_result (TypedConversion.Time_param t)
  = {| posix_time.ticks :=
         round_trip_seconds (posix_time.total_seconds t)
         * posix_time.ticks_per_second |} /\
  0 <= minute (TypedConversion.Time_param t) < 60 /\
  0 <= second (TypedConversion.Time_param t) < 60 /\
  0 <= hour (TypedConversion.Time_param t).
Proof.
  intros Hrange.
  unfold TypedConversion.Time_param, TypedConversion.Time_result,
    TypedConversion.Time_hours_argument, round_trip_seconds.
  cbn [hour minute second neg].
  unfold posix_time.hours, posix_time.minutes, posix_time.seconds,
    posix_time.total_seconds in *.
  rewrite ticks_hours, ticks_minutes.
  set (S := Z.quot (posix_time.ticks t) posix_time.ticks_per_second) in *.
  pose proof (seconds_split S) as Hsplit.
  destruct (Z.neg_nonneg_cases S) as [Hneg|Hpos].
  - (* a negative duration *)
    destruct (seconds_split_opp (- S)) as (Eh & Em & Es).
    rewrite Z.opp_involutive in Eh, Em, Es.
    destruct (seconds_split_nonneg (- S)) as (Hh & Hm & Hs); [lia|].
    set (H := Z.quot (- S) 3600) in *.
    set (M := Z.rem (Z.quot (- S) 60) 60) in *.
    set (X := Z.rem (- S) 60) in *.
    rewrite Eh, Em, Es in *.
    assert (Hlt : H < 2 ^ 31) by lia.
    rewrite !int32_signed by lia.
    rewrite !Z.abs_opp, !Z.abs_eq by lia.
    rewrite (uint32_small H), (uint32_small M), (uint32_small X) by lia.
    split; [|lia].
    destruct (Z.eq_dec H 0) as [Hz|Hz].
    + replace (- H <? 0) with false by (symmetry; apply Z.ltb_ge; lia).
      unfold posix_time.make_time_duration.
      rewrite !int32_signed by lia.
      replace (H <? 0) with false by (symmetry; apply Z.ltb_ge; lia).
      replace (M <? 0) with false by (symmetry; apply Z.ltb_ge; lia).
      replace (X <? 0) with false by (symmetry; apply Z.ltb_ge; lia).
      cbn [orb].
      replace ((-3600 <? S) && (S <? 0)) with true
        by (symmetry; apply andb_true_intro; split; apply Z.ltb_lt; lia).
      f_equal. lia.
    + replace (- H <? 0) with true by (symmetry; apply Z.ltb_lt; lia).
      unfold posix_time.make_time_duration.
      rewrite int32_uint32_neg by lia. rewrite !int32_signed by lia.
      replace (- H <? 0) with true by (symmetry; apply Z.ltb_lt; lia).
      cbn [orb]. rewrite Z.abs_opp, !Z.abs_eq by lia.
      replace (-3600 <? S) with false by (symmetry; apply Z.ltb_ge; lia).
      cbn [andb]. f_equal. lia.
  - (* a duration that is not negative *)
    destruct (seconds_split_nonneg S) as (Hh & Hm & Hs); [lia|].
    set (H := Z.quot S 3600) in *.
    set (M := Z.rem (Z.quot S 60) 60) in *.
    set (X := Z.rem S 60) in *.
    assert (Hlt : H < 2 ^ 31) by lia.
    rewrite !int32_signed by lia. rewrite !Z.abs_eq by lia.
    rewrite (uint32_small H), (uint32_small M), (uint32_small X) by lia.
    split; [|lia].
    replace (H <? 0) with false by (symmetry; apply Z.ltb_ge; lia).
    unfold posix_time.make_time_duration.
    rewrite !int32_signed by lia.
    replace (H <? 0) with false by (symmetry; apply Z.ltb_ge; lia).
    replace (M <? 0) with false by (symmetry; apply Z.ltb_ge; lia).
    replace (X <? 0) with false by (symmetry; apply Z.ltb_ge; lia).
    cbn [orb].
    replace (S <? 0) with false by (symmetry; apply Z.ltb_ge; lia).
    rewrite andb_false_r. f_equal. lia.
Qed.

Lemma Time_round_trip_witness :
  TypedConversion.Time_result
    (TypedConversion.Time_param {| posix_time.ticks := -1800 * 1000000 |})
  = {| posix_time.ticks := 1800 * 1000000 |}.
Proof.
  apply (Time_round_trip {| posix_time.ticks := -1800 * 1000000 |}).
  vm_compute. reflexivity.
Defined.

(** A date the calendar accepts reads back as itself. *)
Lemma make_date_idempotent y m d dt :
  gregorian.make_date y m d = Some dt ->
  gregorian.make_date (gregorian.date_year dt) (gregorian.date_month dt)
    (gregorian.date_day dt) = Some dt.
Proof.
  unfold gregorian.make_date. cbv zeta.
  destruct (_ && _) eqn:E; [|discriminate]. intros [= <-].
  cbn [gregorian.date_year gregorian.date_month gregorian.date_day].
  unfold uint16 in *. rewrite !Z.mod_mod by lia. by rewrite E.
Qed.

Lemma make_date_low_year y m d :
  uint16 y < 1400 -> gregorian.make_date y m d = None.
Proof.
  intros Hy. unfold gregorian.make_date. cbv zeta.
  replace (1400 <=? uint16 y) with false by (symmetry; apply Z.leb_gt; lia).
  done.
Qed.

(** X2: the DATE conversion there and back.  A date of the calendar that
    [convertParam] writes into the scratch is read back by [convertResult] as
    itself; [convertParam] leaves the time-of-day members and the sign of the
    scratch at zero. *)
Theorem Date_round_trip y m d dt :
  gregorian.make_date y m d = Some dt ->
  TypedConversion.Date_result (TypedConversion.Date_param dt) = Some dt /\
  hour (TypedConversion.Date_param dt) = 0 /\
  minute (TypedConversion.Date_param dt) = 0 /\
  second (TypedConversion.Date_param dt) = 0 /\
  neg (TypedConversion.Date_param dt) = false.
Proof.
  intros H. split; [|done].
  unfold TypedConversion.Date_result, TypedConversion.Date_param.
  cbn [year month day]. by eapply make_date_idempotent.
Qed.

Lemma Date_round_trip_witness :
  TypedConversion.Date_result (TypedConversion.Date_param date_2024_02_29)
  = Some date_2024_02_29.
Proof.
  apply (Date_round_trip 2024 2 29 date_2024_02_29). reflexivity.
Defined.

(** X3: the DATETIME conversion there and back.  A point in time whose date
    is of the calendar and whose time of day lies within the day comes back
    with the same date and the time of day cut to whole seconds: the
    fractional seconds are not carried. *)
Theorem Datetime_round_trip y m d dt (tod : posix_time.time_duration) :
  gregorian.make_date y m d = Some dt ->
  0 <= posix_time.ticks tod < 86400 * posix_time.ticks_per_second ->
  TypedConversion.Datetime_result
    (TypedConversion.Datetime_param
       {| posix_time.date := dt; posix_time.time_of_day := tod |})
  = Some {| posix_time.date := dt;
            posix_time.time_of_day :=
              {| posix_time.ticks :=
                   posix_time.total_seconds tod * posix_time.ticks_per_second |} |}.
Proof.
  intros Hd Ht.
  unfold TypedConversion.Datetime_result, TypedConversion.Datetime_param.
  cbn [year month day hour minute second posix_time.date posix_time.time_of_day].
  rewrite (make_date_idempotent _ _ _ _ Hd). do 2 f_equal.
  unfold posix_time.hours, posix_time.minutes, posix_time.seconds,
    posix_time.total_seconds.
  rewrite ticks_hours, ticks_minutes.
  set (S := Z.quot (posix_time.ticks tod) posix_time.ticks_per_second).
  assert (HS : 0 <= S < 86400).
  { unfold S, posix_time.ticks_per_second in *. split.
    - apply Z.quot_pos; lia.
    - apply Z.quot_lt_upper_bound; lia. }
  pose proof (seconds_split S) as Hsplit.
  destruct (seconds_split_nonneg S) as (Hh & Hm & Hs); [lia|].
  set (H := Z.quot S 3600) in *.
  set (M := Z.rem (Z.quot S 60) 60) in *.
  set (X := Z.rem S 60) in *.
  rewrite !int32_signed by lia.
  rewrite (uint32_small H), (uint32_small M), (uint32_small X) by lia.
  unfold posix_time.make_time_duration. rewrite !int32_signed by lia.
  replace (H <? 0) with false by (symmetry; apply Z.ltb_ge; lia).
  replace (M <? 0) with false by (symmetry; apply Z.ltb_ge; lia).
  replace (X <? 0) with false by (symmetry; apply Z.ltb_ge; lia).
  cbn [orb]. f_equal. lia.
Qed.

Lemma Datetime_round_trip_witness :
  TypedConversion.Datetime_result
    (TypedConversion.Datetime_param
       {| posix_time.date := date_2024_02_29;
          posix_time.time_of_day := {| posix_time.ticks := 45296500000 |} |})
  = Some {| posix_time.date := date_2024_02_29;
            posix_time.time_of_day := {| posix_time.ticks := 45296000000 |} |}.
Proof.
  apply (Datetime_round_trip 2024 2 29 date_2024_02_29
           {| posix_time.ticks := 45296500000 |}).
  - reflexivity.
  - vm_compute. split; [discriminate | reflexivity].
Defined.

(** X4: [convertResult] on a DATE or DATETIME column whose scratch holds a
    year below 1400, such as the zero date 0000-00-00, raises the date
    constructor's [out_of_range] and leaves the environment, the caller's
    value included, as it was. *)
Theorem convertResult_rejects_low_year d i c e :
  find i (resultsConversions e) = Some c ->
  kind c = Date \/ kind c = Datetime ->
  uint16 (year (internal c)) < 1400 ->
  TypedConversion.convertResult d i e = (Throw out_of_range, e).
Proof.
  intros Hc Hk Hy. unfold TypedConversion.convertResult, bind, get.
  rewrite Hc. unfold TypedConversion.Date_result, TypedConversion.Datetime_result.
  rewrite (make_date_low_year _ _ _ Hy). by destruct Hk as [-> | ->].
Qed.

Lemma convertResult_rejects_low_year_witness :
  TypedConversion.convertResult quiet_driver 0 zero_date_env
  = (Throw out_of_range, zero_date_env).
Proof.
  apply (convertResult_rejects_low_year quiet_driver 0 (new_temporal Date)
           zero_date_env).
  - reflexivity.
  - left. reflexivity.
  - vm_compute. reflexivity.
Defined.

(** ** The row count and the prepare step *)

(** X5: a run of [getFoundRows] that returns has pointed the found-rows
    descriptor at the caller's cell, filled the cell with the driver's count
    and made exactly its six driver calls on the found-rows statement, the
    last two being the free and the reset; a run that raises raises that
    statement's driver error, leaves the cell as it was and has neither freed
    the result nor reset the statement. *)
Theorem getFoundRows_fills_rows_or_raises d e :
  match Connection.getFoundRows d e with
  | (Return _, e') =>
      rows_cell e' = found_rows d /\
      buffer (foundRowsBinding e') = Rows /\
      log e' = log e ++
        [mysql_stmt_bind_param foundRowsStatement;
         mysql_stmt_execute foundRowsStatement;
         mysql_stmt_bind_result foundRowsStatement;
         mysql_stmt_fetch foundRowsStatement;
         mysql_stmt_free_result foundRowsStatement;
         mysql_stmt_reset foundRowsStatement]
  | (Throw x, e') =>
      x = MySQL (mysql_stmt_error d foundRowsStatement)
            (mysql_stmt_errno d foundRowsStatement) /\
      rows_cell e' = rows_cell e /\
      count (mysql_stmt_free_result foundRowsStatement) (log e')
        = count (mysql_stmt_free_result foundRowsStatement) (log e) /\
      count (mysql_stmt_reset foundRowsStatement) (log e')
        = count (mysql_stmt_reset foundRowsStatement) (log e)
  end.
Proof.
  unfold Connection.getFoundRows, throw_MySQL_stmt, bind, call, modify, ret,
    throw. simpl.
  destruct (stmt_bind_param_rc d foundRowsStatement =? 0); simpl.
  2:{ rewrite !count_snoc_ne by discriminate. done. }
  destruct (stmt_execute_rc d foundRowsStatement =? 0); simpl.
  2:{ rewrite !count_snoc_ne by discriminate. done. }
  destruct (stmt_bind_result_rc d foundRowsStatement =? 0); simpl.
  2:{ rewrite !count_snoc_ne by discriminate. done. }
  destruct (found_rows_fetch_rc d =? 0); simpl.
  2:{ rewrite !count_snoc_ne by discriminate. done. }
  repeat split. by rewrite <- !app_assoc.
Qed.

(** X6: [Statement::init].  When [mysql_stmt_init] fails it raises the
    connection's error right after that call; when [mysql_stmt_prepare] fails
    it raises the statement's error right after that call; a run that raises
    has built nothing: both descriptor arrays and both conversion maps are as
    before.  When both calls succeed it returns, and each side whose row
    description was given holds what [buildBindings] makes of it. *)
Theorem init_builds_only_after_prepare d queryString parameterSet resultSet e :
  let run := Statement.init d queryString parameterSet resultSet e in
  (stmt_init_ok d stmt = false ->
   fst run = Throw (MySQL (mysql_error d) (mysql_errno d)) /\
   log (snd run) = log e ++ [mysql_stmt_init stmt]) /\
  (stmt_init_ok d stmt = true -> stmt_prepare_rc d stmt <> 0 ->
   fst run = Throw (MySQL (mysql_stmt_error d stmt) (mysql_stmt_errno d stmt)) /\
   log (snd run)
   = log e ++ [mysql_stmt_init stmt; mysql_stmt_prepare stmt queryString]) /\
  (forall x, fst run = Throw x ->
     paramsBindings (snd run) = paramsBindings e /\
     paramsConversions (snd run) = paramsConversions e /\
     resultsBindings (snd run) = resultsBindings e /\
     resultsConversions (snd run) = resultsConversions e) /\
  (stmt_init_ok d stmt = true -> stmt_prepare_rc d stmt = 0 ->
   fst run = Return tt /\
   (forall set, parameterSet = Some set ->
      (paramsConversions (snd run), paramsBindings (snd run))
      = buildBindings set (paramsConversions e)) /\
   (forall set, resultSet = Some set ->
      (resultsConversions (snd run), resultsBindings (snd run))
      = buildBindings set (resultsConversions e))).
Proof.
  cbv zeta.
  unfold Statement.init, throw_MySQL_stmt, throw_MySQL_connection, bind, call,
    modify, ret, throw. simpl.
  destruct (stmt_init_ok d stmt); simpl.
  2:{ repeat split; try done. }
  destruct (Z.eqb_spec (stmt_prepare_rc d stmt) 0) as [Hz|Hz]; simpl.
  2:{ repeat split; try done. by rewrite <- app_assoc. }
  split; [done|]. split; [done|].
  destruct parameterSet as [pset|], resultSet as [rset|]; simpl;
    (split; [done|]); intros _ _;
    (split; [done|]); split; intros set [= <-];
    by destruct (buildBindings _ _).
Qed.

Lemma init_builds_only_after_prepare_witness :
  let run := Statement.init quiet_driver "query" (Some signed_record) None
               (fresh_env [] []) in
  fst run = Return tt /\
  (paramsConversions (snd run), paramsBindings (snd run))
  = buildBindings signed_record [].
Proof.
  cbv zeta.
  destruct (init_builds_only_after_prepare quiet_driver "query"
              (Some signed_record) None (fresh_env [] []))
    as (_ & _ & _ & H).
  destruct H as (Hr & Hp & _); [reflexivity | reflexivity |].
  split; [exact Hr | exact (Hp signed_record eq_refl)].
Defined.

(** ** What a run of execute leaves alone, continued *)

Global Instance same_shapes_preorder : PreOrder same_shapes.
Proof.
  split; [by intros e | intros e1 e2 e3 [A1 B1] [A2 B2]].
  split; congruence.
Qed.

Global Instance same_rows_cell_preorder : PreOrder same_rows_cell.
Proof. split; unfold same_rows_cell; [by intros e | congruence]. Qed.

Global Instance same_result_side_preorder : PreOrder same_result_side.
Proof.
  split; [by intros e | intros e1 e2 e3 (A1 & B1 & C1 & D1) (A2 & B2 & C2 & D2)].
  repeat split; congruence.
Qed.

Global Instance same_param_side_preorder : PreOrder same_param_side.
Proof.
  split; [by intros e | intros e1 e2 e3 [A1 B1] [A2 B2]].
  split; congruence.
Qed.

Lemma map_shape_update i f (b : list MYSQL_BIND) :
  (forall x, shape (f x) = shape x) ->
  map shape (update i f b) = map shape b.
Proof.
  intros Hf. unfold update. destruct (b !! i) as [x|] eqn:E; [|done].
  change (shape <$> <[i:=f x]> b = shape <$> b).
  rewrite list_fmap_insert, Hf. apply list_insert_id.
  by rewrite list_lookup_fmap, E.
Qed.

Lemma bindBinding_shape set i st :
  map shape (snd (bindBinding set i st)) = map shape (snd st).
Proof.
  destruct st as [c b]. unfold bindBinding.
  repeat match goal with
         | |- context [match ?x with _ => _ end] => destruct x
         end; cbn [snd]; rewrite ?map_shape_update; done.
Qed.

Lemma bindBindings_shape set c b :
  map shape (snd (bindBindings set c b)) = map shape b.
Proof.
  unfold bindBindings. generalize (seq 0 (numberOfSqlElements set)).
  intros l. change b with (snd (c, b)) at 2. generalize (c, b).
  induction l as [|i l IH]; intros st; cbn [foldl]; [done|].
  rewrite IH. apply bindBinding_shape.
Qed.

Ltac shapes_base :=
  unfold same_shapes; simpl;
  rewrite ?bindBindings_shape, ?map_shape_update by done; done.

Lemma fetch_loop_same_shapes fuel d :
  keeps same_shapes (Statement.fetch_loop fuel d).
Proof.
  induction fuel as [|fuel IH]; simpl.
  - apply keeps_ret; tc_solve.
  - apply keeps_bind; [tc_solve | | intros []; [exact IH | apply keeps_ret; tc_solve]].
    unfold_model.
    keeps_steps' ltac:(apply run_grabIt_keeps; [tc_solve| |]) ltac:(shapes_base).
Qed.

(** X7: whatever a run of [execute] does, returning or raising, the type
    code, the unsigned flag, the capacity and the length pointer of every
    descriptor of both arrays are what they were before the run:
    [bindBindings] and the conversions write the buffer and the null
    indicator only. *)
Theorem execute_keeps_descriptor_shapes d parameters results insertId rows e :
  let e' := snd (Statement.execute d parameters results insertId rows e) in
  map shape (paramsBindings e') = map shape (paramsBindings e) /\
  map shape (resultsBindings e') = map shape (resultsBindings e).
Proof.
  cbv zeta. change (same_shapes e
    (snd (Statement.execute d parameters results insertId rows e))).
  revert e. change (keeps same_shapes
    (Statement.execute d parameters results insertId rows)).
  unfold_model.
  keeps_steps' ltac:(first [apply fetch_loop_same_shapes
                           | apply run_grabIt_keeps; [tc_solve| |]])
               ltac:(shapes_base).
Qed.

Ltac rows_cell_base := unfold same_rows_cell; simpl; done.

Lemma fetch_loop_same_rows_cell fuel d :
  keeps same_rows_cell (Statement.fetch_loop fuel d).
Proof.
  induction fuel as [|fuel IH]; simpl.
  - apply keeps_ret; tc_solve.
  - apply keeps_bind; [tc_solve | | intros []; [exact IH | apply keeps_ret; tc_solve]].
    unfold_model.
    keeps_steps' ltac:(apply run_grabIt_keeps; [tc_solve| |]) ltac:(rows_cell_base).
Qed.

Lemma bind_parameters_same_rows_cell d p :
  keeps same_rows_cell (Statement.bind_parameters d p).
Proof.
  unfold_model. keeps_steps' ltac:(fail) ltac:(rows_cell_base).
Qed.

Lemma getFoundRows_Return d e a e' :
  Connection.getFoundRows d e = (Return a, e') -> rows_cell e' = found_rows d.
Proof.
  unfold Connection.getFoundRows, throw_MySQL_stmt, bind, call, modify, ret,
    throw. simpl.
  destruct (stmt_bind_param_rc d foundRowsStatement =? 0); [|discriminate].
  destruct (stmt_execute_rc d foundRowsStatement =? 0); [|discriminate].
  destruct (stmt_bind_result_rc d foundRowsStatement =? 0); [|discriminate].
  destruct (found_rows_fetch_rc d =? 0); [|discriminate].
  by intros [= _ <-].
Qed.

(** X8: the cell behind the [rows] pointer.  With a null [rows] pointer a
    run of [execute] leaves the cell as it was, whatever else happens; with a
    [rows] pointer, a run that returns has filled it with the driver's
    affected-rows count when there is no result container, and with the
    count of the found-rows statement when there is one. *)
Theorem execute_reports_rows d parameters insertId e :
  (forall results,
     rows_cell (snd (Statement.execute d parameters results insertId false e))
     = rows_cell e) /\
  (forall e',
     Statement.execute d parameters false insertId true e = (Return tt, e') ->
     rows_cell e' = affected_rows d) /\
  (forall e',
     Statement.execute d parameters true insertId true e = (Return tt, e') ->
     rows_cell e' = found_rows d).
Proof.
  split; [|split].
  - intros results.
    change (same_rows_cell e
      (snd (Statement.execute d parameters results insertId false e))).
    revert e. change (keeps same_rows_cell
      (Statement.execute d parameters results insertId false)).
    unfold_model.
    keeps_steps' ltac:(first [apply fetch_loop_same_rows_cell
                             | apply run_grabIt_keeps; [tc_solve| |]])
                 ltac:(rows_cell_base).
  - intros e' H. unfold Statement.execute in H.
    do 5 (apply bind_Return in H as (? & ? & _ & H)).
    apply bind_Return in H as (? & e6 & H6 & H).
    injection H as <-. simpl.
    apply bind_Return in H6 as (? & e7 & H7 & H6).
    unfold when, bind, call, modify in H7. simpl in H7. injection H7 as <-.
    assert (Hk : keeps same_rows_cell
              (when insertId (call mysql_stmt_insert_id ;;
                              modify (with_insertId (insert_id d))))).
    { keeps_steps' ltac:(fail) ltac:(rows_cell_base). }
    apply (keeps_Return _ _ _ _ _ Hk) in H6. unfold same_rows_cell in H6.
    rewrite H6. by subst e7.
  - intros e' H. unfold Statement.execute in H.
    do 5 (apply bind_Return in H as (? & ? & _ & H)).
    apply bind_Return in H as (? & e6 & H6 & H).
    injection H as <-. simpl.
    apply bind_Return in H6 as (? & ? & _ & H6).
    apply bind_Return in H6 as (? & ? & _ & H6).
    by apply getFoundRows_Return in H6.
Qed.

Lemma execute_reports_rows_witness :
  rows_cell (snd (Statement.execute quiet_driver None false false true plain_env))
  = affected_rows quiet_driver.
Proof.
  apply (execute_reports_rows quiet_driver None false plain_env).
  vm_compute. reflexivity.
Defined.

Ltac result_side_base := unfold same_result_side; simpl; done.
Ltac param_side_base := unfold same_param_side; simpl; done.

Lemma fetch_loop_same_param_side fuel d :
  keeps same_param_side (Statement.fetch_loop fuel d).
Proof.
  induction fuel as [|fuel IH]; simpl.
  - apply keeps_ret; tc_solve.
  - apply keeps_bind; [tc_solve | | intros []; [exact IH | apply keeps_ret; tc_solve]].
    unfold_model.
    keeps_steps' ltac:(apply run_grabIt_keeps; [tc_solve| |]) ltac:(param_side_base).
Qed.

(** X9: a run of [execute] without a result container leaves the container,
    the fetch script and the result side of the statement as they were and
    calls neither [manufacture()], [mysql_stmt_bind_result] nor
    [mysql_stmt_fetch]; a run without a parameter record leaves the parameter
    side as it was, so the driver is given the buffers of the last record
    bound, and makes no call of the codec's [out]. *)
Theorem execute_leaves_unused_side_alone d insertId rows e :
  (forall parameters,
     let e' := snd (Statement.execute d parameters false insertId rows e) in
     res e' = res e /\ fetches e' = fetches e /\
     resultsBindings e' = resultsBindings e /\
     resultsConversions e' = resultsConversions e /\
     count res_manufacture (log e') = count res_manufacture (log e) /\
     count (mysql_stmt_bind_result stmt) (log e')
       = count (mysql_stmt_bind_result stmt) (log e) /\
     count (mysql_stmt_fetch stmt) (log e')
       = count (mysql_stmt_fetch stmt) (log e)) /\
  (forall results,
     let e' := snd (Statement.execute d None results insertId rows e) in
     paramsBindings e' = paramsBindings e /\
     paramsConversions e' = paramsConversions e /\
     count codecvt_out (log e') = count codecvt_out (log e)).
Proof.
  split.
  - intros parameters. cbv zeta.
    assert (H1 : keeps same_result_side
                   (Statement.execute d parameters false insertId rows)).
    { unfold_model. keeps_steps' ltac:(fail) ltac:(result_side_base). }
    assert (H2 : forall c,
      c = res_manufacture \/ c = mysql_stmt_bind_result stmt \/
      c = mysql_stmt_fetch stmt ->
      keeps (same_count c) (Statement.execute d parameters false insertId rows)).
    { intros c [-> | [-> | ->]]; unfold_model;
        keeps_steps' ltac:(fail) ltac:(count_base). }
    destruct (H1 e) as (A & B & C & D).
    repeat split; try done; apply H2; auto.
  - intros results. cbv zeta.
    assert (H1 : keeps same_param_side
                   (Statement.execute d None results insertId rows)).
    { unfold_model.
      keeps_steps' ltac:(first [apply fetch_loop_same_param_side
                               | apply run_grabIt_keeps; [tc_solve| |]])
                   ltac:(param_side_base). }
    assert (H2 : keeps (same_count codecvt_out)
                   (Statement.execute d None results insertId rows)).
    { unfold Statement.execute, Statement.bind_parameters.
      assert (Hloop : forall fuel,
        keeps (same_count codecvt_out) (Statement.fetch_loop fuel d)).
      { induction fuel as [|fuel IH]; simpl.
        - apply keeps_ret; tc_solve.
        - apply keeps_bind;
            [tc_solve | | intros []; [exact IH | apply keeps_ret; tc_solve]].
          count_steps. }
      unfold_model.
      keeps_steps' ltac:(first [apply Hloop
                               | apply run_grabIt_keeps; [tc_solve| |]])
                   ltac:(count_base). }
    destruct (H1 e) as (A & B). repeat split; try done. apply H2.
Qed.

(** ** A failed parameter conversion *)

Section RaisesOnly.

Variable P : Exception -> Prop.

Lemma raises_only_ret {A} (a : A) : raises_only P (ret a).
Proof. intros e x e' H. discriminate. Qed.

Lemma raises_only_throw {A} x : P x -> raises_only P (@throw A x).
Proof. intros Hx e y e' H. by injection H as <- _. Qed.

Lemma raises_only_get : raises_only P get.
Proof. intros e x e' H. discriminate. Qed.

Lemma raises_only_modify f : raises_only P (modify f).
Proof. intros e x e' H. discriminate. Qed.

Lemma raises_only_bind {A B} (m : M A) (k : A -> M B) :
  raises_only P m -> (forall a, raises_only P (k a)) ->
  raises_only P (bind m k).
Proof.
  intros Hm Hk e x e' H. apply bind_Throw in H as [H|(a & e1 & _ & H)].
  - eapply Hm, H.
  - eapply Hk, H.
Qed.

Lemma raises_only_for_each {A} (l : list A) body :
  (forall a, raises_only P (body a)) -> raises_only P (for_each l body).
Proof.
  intros Hb. induction l as [|a l IH]; simpl.
  - apply raises_only_ret.
  - apply raises_only_bind; auto.
Qed.

End RaisesOnly.

Ltac raises_only_steps :=
  repeat (intros; first
    [ apply raises_only_ret
    | apply raises_only_throw; unfold conversion_error; tauto
    | apply raises_only_get
    | apply raises_only_bind
    | apply raises_only_for_each
    | match goal with
      | |- raises_only _ (match ?x with _ => _ end) => destruct x
      end
    | apply raises_only_modify ]).

Lemma bind_parameters_raises_conversion_error d parameters :
  raises_only conversion_error (Statement.bind_parameters d parameters).
Proof. unfold_model. raises_only_steps. Qed.

Lemma bind_parameters_calls_codec_only c d parameters :
  c <> codecvt_out ->
  keeps (same_count c) (Statement.bind_parameters d parameters).
Proof.
  intros Hc. unfold_model.
  keeps_steps' ltac:(fail)
    ltac:(unfold same_count; simpl;
          first [reflexivity | apply count_snoc_ne; congruence]).
Qed.

(** X10: when the parameter step of [execute] raises, what it raises is
    the codec's [CodeCvt] or the calendar's [out_of_range] (a DATE or
    DATETIME parameter that holds no day of the calendar); [execute] raises
    it with the environment the step left, and nothing but the codec has been
    called: the driver has seen no call of this run. *)
Theorem failed_parameter_conversion_stops_execute
    d parameters results insertId rows e x e' :
  Statement.bind_parameters d parameters e = (Throw x, e') ->
  (x = CodeCvt \/ x = out_of_range) /\
  Statement.execute d parameters results insertId rows e = (Throw x, e') /\
  forall c, c <> codecvt_out -> count c (log e') = count c (log e).
Proof.
  intros H. split; [|split].
  - eapply bind_parameters_raises_conversion_error, H.
  - unfold Statement.execute, bind at 1. by rewrite H.
  - intros c Hc.
    pose proof (bind_parameters_calls_codec_only c d parameters Hc e) as Hk.
    by rewrite H in Hk.
Qed.

Lemma failed_parameter_conversion_stops_execute_witness :
  (let run := Statement.bind_parameters quiet_driver (Some wide_record)
                wide_env in
   Statement.execute quiet_driver (Some wide_record) false false false wide_env
   = (Throw CodeCvt, snd run) /\
   count (mysql_stmt_bind_param stmt) (log (snd run))
   = count (mysql_stmt_bind_param stmt) (log wide_env)) /\
  (let run := Statement.bind_parameters quiet_driver (Some unset_date_record)
                unset_date_env in
   Statement.execute quiet_driver (Some unset_date_record) false false false
     unset_date_env
   = (Throw out_of_range, snd run) /\
   log (snd run) = log unset_date_env).
Proof.
  cbv zeta. split.
  - destruct (failed_parameter_conversion_stops_execute quiet_driver
                (Some wide_record) false false false wide_env CodeCvt
                (snd (Statement.bind_parameters quiet_driver (Some wide_record)
                        wide_env)))
      as (_ & H & Hc); [vm_compute; reflexivity|].
    split; [exact H | apply Hc; discriminate].
  - destruct (failed_parameter_conversion_stops_execute quiet_driver
                (Some unset_date_record) false false false unset_date_env
                out_of_range
                (snd (Statement.bind_parameters quiet_driver
                        (Some unset_date_record) unset_date_env)))
      as (_ & H & _); [vm_compute; reflexivity|].
    split; [exact H | vm_compute; reflexivity].
Defined.

(** ** Accounting for the records of the container *)

Global Instance turn_frame_preorder : PreOrder turn_frame.
Proof.
  split.
  - intros e. split; [|split]; reflexivity.
  - intros e1 e2 e3 (A1 & B1 & C1) (A2 & B2 & C2).
    split; [|split]; etransitivity; eassumption.
Qed.

Global Instance accounted_preorder : PreOrder accounted.
Proof.
  split; unfold accounted.
  - intros e. reflexivity.
  - intros e1 e2 e3 H1 H2. lia.
Qed.

Lemma turn_frame_accounted e e' : turn_frame e e' -> accounted e e'.
Proof. unfold accounted. intros (A & B & C). rewrite A, B, C. lia. Qed.

Ltac turn_base :=
  unfold turn_frame, same_count; simpl;
  rewrite ?alter_last_length;
  repeat split; first [ reflexivity | apply count_snoc_ne; discriminate ].

Ltac turn_steps :=
  unfold_model;
  keeps_steps' ltac:(apply run_grabIt_keeps; [tc_solve| |]) ltac:(turn_base).

Lemma stmt_fetch_turn_frame : keeps turn_frame stmt_fetch.
Proof. turn_steps. Qed.

Lemma convertResults_turn_frame d l :
  keeps turn_frame (for_each l (fun i => TypedConversion.convertResult d i)).
Proof. turn_steps. Qed.

Lemma bind_parameters_turn_frame d p :
  keeps turn_frame (Statement.bind_parameters d p).
Proof. turn_steps. Qed.

Lemma getFoundRows_turn_frame d : keeps turn_frame (Connection.getFoundRows d).
Proof. turn_steps. Qed.

(** One turn of the loop: a record is manufactured; it is trimmed when the
    driver reports the end of the rows, and stays in every other case, a
    raise included. *)
Lemma fetch_turn_account d e r e' :
  Statement.fetch_turn d e = (r, e') ->
  count res_manufacture (log e') = S (count res_manufacture (log e)) /\
  match r with
  | Return false =>
      count res_trim (log e') = S (count res_trim (log e)) /\
      length (records (res e')) = length (records (res e))
  | _ =>
      count res_trim (log e') = count res_trim (log e) /\
      length (records (res e')) = S (length (records (res e)))
  end.
Proof.
  unfold Statement.fetch_turn. unfold bind at 1 2 3 4, call at 1 2, modify.
  set (e1 := with_log _ (with_results _ _)).
  assert (H1 : count res_manufacture (log e1) = S (count res_manufacture (log e))
               /\ count res_trim (log e1) = count res_trim (log e)
               /\ length (records (res e1)) = S (length (records (res e)))).
  { subst e1. simpl. rewrite !count_snoc_ne by discriminate.
    rewrite count_snoc_eq, length_app. rewrite !count_snoc_ne by discriminate. simpl. split; [done|]. split; [done|lia]. }
  clearbody e1. destruct H1 as (Hm & Ht & Hl).
  unfold bind at 1.
  destruct (stmt_bind_result_rc d stmt =? 0).
  2:{ unfold throw_MySQL_stmt, throw. intros [= <- <-]. done. }
  unfold ret at 1. unfold bind at 1.
  pose proof (stmt_fetch_turn_frame e1) as Hf.
  destruct (stmt_fetch e1) as [[rc|x] e2]; simpl in Hf;
    destruct Hf as (Hm2 & Ht2 & Hl2); unfold same_count in *.
  2:{ intros [= <- <-]. split; [congruence|]. split; congruence. }
  destruct (rc =? 1).
  { unfold throw_MySQL_stmt, throw. intros [= <- <-].
    split; [congruence|]. split; congruence. }
  destruct (rc =? MYSQL_NO_DATA).
  - unfold bind, call, modify, ret. intros [= <- <-]. simpl.
    rewrite !count_snoc_ne by discriminate. rewrite count_snoc_eq.
    split; [congruence|]. split; [congruence|].
    destruct (records (res e2)) as [|r0 l] using rev_ind; [simpl in Hl2; lia|].
    rewrite removelast_last. rewrite length_app in Hl2. simpl in Hl2. lia.
  - unfold bind at 1, get.
    pose proof (convertResults_turn_frame d (map fst (resultsConversions e2)) e2)
      as Hc.
    unfold bind.
    destruct (for_each _ _ e2) as [[[]|x] e3]; simpl in Hc;
      destruct Hc as (Hm3 & Ht3 & Hl3); unfold same_count in *;
      unfold ret; intros [= <- <-]; (split; [congruence|]); split; congruence.
Qed.

(** The loop as a whole: the records gained are the manufactured ones less
    the trimmed ones, and a loop that raises has trimmed nothing. *)
Lemma fetch_loop_account fuel d e r e' :
  Statement.fetch_loop fuel d e = (r, e') ->
  accounted e e' /\
  match r with
  | Throw _ => count res_trim (log e') = count res_trim (log e)
  | Return _ => True
  end.
Proof.
  revert e. induction fuel as [|fuel IH]; intros e; cbn [Statement.fetch_loop].
  - unfold ret. intros [= <- <-]. split; [reflexivity|done].
  - unfold bind.
    destruct (Statement.fetch_turn d e) as [[keepLooping|x] e1] eqn:E;
      apply fetch_turn_account in E as (Hm & E).
    + destruct keepLooping.
      * destruct E as (Ht & Hl). intros H. apply IH in H as (Ha & Hr).
        unfold accounted in *. split; [lia|].
        destruct r; [done|congruence].
      * destruct E as (Ht & Hl). unfold ret. intros [= <- <-].
        unfold accounted. split; [lia|done].
    + destruct E as (Ht & Hl). intros [= <- <-].
      unfold accounted. split; [lia|done].
Qed.

Lemma fetch_loop_accounted fuel d : keeps accounted (Statement.fetch_loop fuel d).
Proof.
  intros e. destruct (Statement.fetch_loop fuel d e) as [r e'] eqn:E.
  by apply fetch_loop_account in E as [E _].
Qed.

Lemma keeps_accounted_of_turn_frame {A} (m : M A) :
  keeps turn_frame m -> keeps accounted m.
Proof. intros H e. apply turn_frame_accounted, H. Qed.

Lemma execute_accounted d parameters results insertId rows :
  keeps accounted (Statement.execute d parameters results insertId rows).
Proof.
  unfold Statement.execute.
  keeps_steps'
    ltac:(first [ apply fetch_loop_accounted
                | apply keeps_accounted_of_turn_frame;
                  first [ apply bind_parameters_turn_frame
                        | apply getFoundRows_turn_frame ] ])
    ltac:(apply turn_frame_accounted; turn_base).
Qed.

Lemma fetch_loop_throw_no_trim fuel d :
  keeps_on_throw (same_count res_trim) (Statement.fetch_loop fuel d).
Proof.
  intros e x e' H. by apply fetch_loop_account in H as [_ H].
Qed.

Lemma execute_throw_no_trim d parameters results insertId :
  keeps_on_throw (same_count res_trim)
    (Statement.execute d parameters results insertId false).
Proof.
  unfold Statement.execute.
  do 5 (apply keeps_on_throw_bind; [tc_solve | count_steps | intros ?]).
  intros e x e' H. apply bind_Throw in H as [H|(? & e1 & _ & H)].
  2:{ by apply reset_never_throws in H. }
  destruct results.
  - apply bind_Throw in H as [H|(e0 & ? & H0 & H)]; [discriminate|].
    unfold get in H0. simplify_eq.
    apply bind_Throw in H as [H|(? & ? & _ & H)]; [|discriminate].
    by apply fetch_loop_throw_no_trim in H.
  - revert H. generalize e'. generalize x. generalize e.
    apply keeps_on_throw_of_keeps. count_steps.
Qed.

(** X11: in every run of [execute], returning or raising, the records the
    container has gained are the calls of [manufacture()] less the calls of
    [trim()].  A run that raises and was not asked for the row count has not
    called [trim()]: when the raise comes from inside the fetch loop the
    record manufactured for the failed turn stays in the container. *)
Theorem execute_accounts_for_records d parameters results insertId e :
  (forall rows,
     let e' := snd (Statement.execute d parameters results insertId rows e) in
     (length (records (res e')) + count res_trim (log e')
        + count res_manufacture (log e)
      = length (records (res e)) + count res_trim (log e)
        + count res_manufacture (log e'))%nat) /\
  (forall x e',
     Statement.execute d parameters results insertId false e = (Throw x, e') ->
     count res_trim (log e') = count res_trim (log e) /\
     (length (records (res e')) + count res_manufacture (log e)
      = length (records (res e)) + count res_manufacture (log e'))%nat).
Proof.
  split.
  - intros rows. apply execute_accounted.
  - intros x e' H.
    pose proof (execute_throw_no_trim d parameters results insertId e x e' H)
      as Ht.
    split; [done|].
    pose proof (execute_accounted d parameters results insertId false e) as Ha.
    rewrite H in Ha. unfold accounted, same_count in *. simpl in Ha. lia.
Qed.

Lemma execute_accounts_for_records_witness :
  let run := Statement.execute quiet_driver None true false false
               row_then_error_env in
  fst run = Throw (MySQL "statement error" 2030) /\
  count res_trim (log (snd run)) = 0%nat /\
  (length (records (res (snd run))) + 0 = 0 + 2)%nat.
Proof.
  cbv zeta. split; [vm_compute; reflexivity|].
  apply (proj2 (execute_accounts_for_records quiet_driver None true false
                  row_then_error_env) (MySQL "statement error" 2030)).
  vm_compute. reflexivity.
Defined.

(** ** The conversion map of the binding builder *)

Lemma find_reset j i c m :
  find j (reset i c m) = if Nat.eqb j i then Some c else find j m.
Proof.
  induction m as [|[k c'] m IH]; cbn [reset find].
  - done.
  - destruct (Nat.ltb_spec i k) as [Hlt|Hge]; cbn [find].
    + done.
    + destruct (Nat.eqb_spec i k) as [->|Hne]; cbn [find].
      * by destruct (Nat.eqb_spec j k).
      * rewrite IH. destruct (Nat.eqb_spec j k) as [->|Hjk]; [|done].
        destruct (Nat.eqb_spec k i); [congruence|done].
Qed.

Lemma reset_last i c m :
  Forall (fun k => (k < i)%nat) (map fst m) -> reset i c m = m ++ [(i, c)].
Proof.
  induction m as [|[k c'] m IH]; cbn [reset map fst app]; [done|].
  intros H. apply Forall_cons in H as [Hk H].
  destruct (Nat.ltb_spec i k) as [Hlt|Hge]; [lia|].
  destruct (Nat.eqb_spec i k) as [->|Hne]; [lia|].
  by rewrite IH.
Qed.

(** One turn of the builder's loop resets the conversion object of its own
    column, when the column's kind needs one. *)
Lemma buildBinding_conversions set i m b :
  fst (buildBinding set i (m, b))
  = match conversion_of set i with
    | Some c => reset i c m
    | None => m
    end.
Proof.
  unfold buildBinding, conversion_of, getSqlType.
  destruct (set !! i) as [f|].
  - destruct (sqlType f); eval_kind; reflexivity.
  - eval_kind. reflexivity.
Qed.

Lemma fold_buildBinding_find set l j st :
  find j (fst (foldl (fun st i => buildBinding set i st) st l))
  = match (if bool_decide (j ∈ l) then conversion_of set j else None) with
    | Some c => Some c
    | None => find j (fst st)
    end.
Proof.
  revert st. induction l as [|i l IH]; intros [m b]; cbn [foldl].
  - rewrite bool_decide_eq_false_2 by apply not_elem_of_nil. done.
  - rewrite IH, buildBinding_conversions. cbn [fst].
    destruct (decide (j = i)) as [->|Hne].
    + rewrite (bool_decide_eq_true_2 (i ∈ i :: l)) by apply list_elem_of_here.
      destruct (conversion_of set i) as [c|].
      * rewrite find_reset, Nat.eqb_refl. by destruct (bool_decide _).
      * by destruct (bool_decide _).
    + assert (Hf : find j (match conversion_of set i with
                           | Some c => reset i c m
                           | None => m
                           end) = find j m).
      { destruct (conversion_of set i); [|done].
        rewrite find_reset. by destruct (Nat.eqb_spec j i). }
      rewrite Hf.
      destruct (decide (j ∈ l)) as [Hin|Hnin].
      * rewrite !bool_decide_eq_true_2; [done | by apply list_elem_of_further | done].
      * rewrite !bool_decide_eq_false_2; [done | | done].
        intros [?|?]%elem_of_cons; done.
Qed.

Lemma fold_buildBinding_keys set n a st :
  Forall (fun k => (k < a)%nat) (map fst (fst st)) ->
  map fst (fst (foldl (fun st i => buildBinding set i st) st (seq a n)))
  = map fst (fst st) ++ List.filter (is_converted set) (seq a n).
Proof.
  revert a st. induction n as [|n IH]; intros a [m b] Hm; cbn [seq foldl List.filter].
  - by rewrite app_nil_r.
  - rewrite IH.
    + rewrite buildBinding_conversions. cbn [fst]. unfold is_converted.
      destruct (conversion_of set a) as [c|]; [|done].
      rewrite reset_last by done. rewrite map_app. cbn [map fst].
      by rewrite <- app_assoc.
    + rewrite buildBinding_conversions. cbn [fst].
      destruct (conversion_of set a) as [c|].
      * rewrite reset_last by done. rewrite map_app. cbn [map fst].
        apply Forall_app. split.
        -- eapply Forall_impl; [exact Hm|]. intros k Hk. simpl in *. lia.
        -- repeat constructor.
      * eapply Forall_impl; [exact Hm|]. intros k Hk. simpl in *. lia.
Qed.

Lemma buildBindings_find set m i :
  find i (fst (buildBindings set m))
  = match conversion_of set i with
    | Some c => Some c
    | None => find i m
    end.
Proof.
  unfold buildBindings. rewrite fold_buildBinding_find. cbn [fst].
  destruct (decide (i ∈ seq 0 (numberOfSqlElements set))) as [Hin|Hnin].
  - by rewrite bool_decide_eq_true_2.
  - rewrite bool_decide_eq_false_2 by done.
    unfold conversion_of. rewrite lookup_ge_None_2; [done|].
    rewrite elem_of_seq in Hnin. unfold numberOfSqlElements in Hnin. lia.
Qed.

Lemma buildBindings_keys set :
  map fst (fst (buildBindings set []))
  = List.filter (is_converted set) (seq 0 (length set)).
Proof.
  unfold buildBindings, numberOfSqlElements.
  rewrite fold_buildBinding_keys by constructor. done.
Qed.

(** X12: the conversion map [buildBindings] leaves.  The column of a
    temporal or variable-width kind, nullable or not, holds a fresh conversion
    object of that kind (for the variable-width kinds: for that column,
    with the type code of the descriptor); any other column holds what the map
    held before, since the builder never erases.  Starting from an empty map
    the keys are those columns in ascending order, which is the order the
    conversions run in, and all lie within the record. *)
Theorem buildBindings_conversion_map set :
  (forall m i,
     find i (fst (buildBindings set m))
     = match conversion_of set i with
       | Some c => Some c
       | None => find i m
       end) /\
  map fst (fst (buildBindings set []))
  = List.filter (is_converted set) (seq 0 (length set)) /\
  columns_within (fst (buildBindings set [])) set = true.
Proof.
  split; [intros m i; apply buildBindings_find|].
  split; [apply buildBindings_keys|].
  unfold columns_within. apply forallb_forall. intros [k c] Hin.
  apply Nat.ltb_lt. cbn [fst].
  assert (Hk : In k (map fst (fst (buildBindings set []))))
    by (apply in_map_iff; by exists (k, c)).
  rewrite buildBindings_keys in Hk. apply filter_In in Hk as [Hk _].
  apply in_seq in Hk. lia.
Qed.

(** X13: the binding builder strips the nullable offset before anything
    else: a column of a nullable kind gets the same descriptor and the same
    conversion object as a column of the plain kind with the same size. *)
Theorem buildBindings_ignores_nullability set1 set2 m i f1 f2 :
  set1 !! i = Some f1 -> set2 !! i = Some f2 ->
  code (sqlType f2) = code (sqlType f1) + code U_TINY_N ->
  sqlSize f2 = sqlSize f1 ->
  snd (buildBindings set2 m) !! i = snd (buildBindings set1 m) !! i /\
  find i (fst (buildBindings set2 m)) = find i (fst (buildBindings set1 m)).
Proof.
  intros H1 H2 Hcode Hsize. split.
  - rewrite !buildBindings_lookup by (by eapply lookup_lt_Some).
    unfold buildBinding, getSqlType, getSqlSize. rewrite H1, H2, Hsize.
    destruct (sqlType f1), (sqlType f2); vm_compute in Hcode;
      try discriminate Hcode; eval_kind; reflexivity.
  - rewrite !buildBindings_find. unfold conversion_of. rewrite H1, H2.
    destruct (sqlType f1), (sqlType f2); vm_compute in Hcode;
      try discriminate Hcode; reflexivity.
Qed.

Lemma buildBindings_ignores_nullability_witness :
  snd (buildBindings nullable_int_record []) !! 0%nat
  = snd (buildBindings signed_record []) !! 0%nat.
Proof.
  apply (buildBindings_ignores_nullability signed_record nullable_int_record []
           0 (field INT (VInteger 0)) (null_field INT_N (VInteger 0)));
    reflexivity.
Defined.

(** ** The pointers bindBindings wires *)

Lemma bindBinding_fst set j m b :
  fst (bindBinding set j (m, b))
  = alter j (set_external (data_pointer set j)) m.
Proof.
  unfold bindBinding, data_pointer.
  destruct (find j m) as [c|] eqn:E; cbn [fst]; [done|].
  clear b. induction m as [|[k c] m IH]; cbn [alter]; [done|].
  cbn [find] in E. destruct (Nat.eqb j k); [done|]. by rewrite <- IH.
Qed.

Lemma bindBinding_snd set j m b :
  snd (bindBinding set j (m, b)) = update j (wired set j (find j m)) b.
Proof.
  unfold bindBinding, wired, data_pointer.
  destruct (code U_TINY_N <=? getSqlType set j), (find j m);
    cbn [snd]; rewrite ?update_update; done.
Qed.

Lemma set_external_idemp p c : set_external p (set_external p c) = set_external p c.
Proof. done. Qed.

Lemma fold_bindBinding_find set l st i :
  find i (fst (foldl (fun st j => bindBinding set j st) st l))
  = if bool_decide (i ∈ l)
    then set_external (data_pointer set i) <$> find i (fst st)
    else find i (fst st).
Proof.
  revert st. induction l as [|j l IH]; intros [m b]; cbn [foldl].
  - by rewrite bool_decide_eq_false_2 by apply not_elem_of_nil.
  - rewrite IH. destruct (bindBinding set j (m, b)) as [m1 b1] eqn:E.
    apply (f_equal fst) in E. rewrite bindBinding_fst in E. cbn [fst] in *.
    subst m1. rewrite find_alter.
    destruct (Nat.eqb_spec i j) as [->|Hne].
    + rewrite (bool_decide_eq_true_2 (j ∈ j :: l)) by apply list_elem_of_here.
      destruct (bool_decide (j ∈ l)); [|done].
      by destruct (find j m).
    + destruct (decide (i ∈ l)) as [Hin|Hnin].
      * rewrite !bool_decide_eq_true_2; [done | by apply list_elem_of_further | done].
      * rewrite !bool_decide_eq_false_2; [done | | done].
        intros [?|?]%elem_of_cons; done.
Qed.

Lemma fold_bindBinding_other set l st i :
  i ∉ l ->
  snd (foldl (fun st j => bindBinding set j st) st l) !! i = snd st !! i.
Proof.
  revert st. induction l as [|j l IH]; intros [m b] Hi; cbn [foldl]; [done|].
  apply not_elem_of_cons in Hi as [Hij Hi].
  rewrite IH by done. rewrite bindBinding_snd. cbn [snd].
  by apply update_lookup_ne.
Qed.

(** X14: what [bindBindings] does to one column of the record.  The
    descriptor's null indicator is pointed at the field's own when the kind is
    nullable and is left alone otherwise; the buffer is pointed at the value
    in the caller's record when the column has no conversion object, and at
    the conversion object's scratch when it has one, whose [external] is then
    what points at the caller's value; everything else in the descriptor and
    the conversion object stays.  Columns beyond the record are not
    touched. *)
Theorem bindBindings_wires_column set m b i bi :
  (i < length set)%nat -> b !! i = Some bi ->
  find i (fst (bindBindings set m b))
    = set_external (data_pointer set i) <$> find i m /\
  snd (bindBindings set m b) !! i = Some (wired set i (find i m) bi) /\
  (forall j, (length set <= j)%nat ->
     find j (fst (bindBindings set m b)) = find j m /\
     snd (bindBindings set m b) !! j = b !! j).
Proof.
  intros Hi Hb. unfold bindBindings, numberOfSqlElements. split; [|split].
  - rewrite fold_bindBinding_find. cbn [fst].
    rewrite bool_decide_eq_true_2; [done|]. apply elem_of_seq. lia.
  - rewrite (seq_split (length set) i Hi).
    rewrite !foldl_app. cbn [foldl app].
    rewrite fold_bindBinding_other by (rewrite elem_of_seq; lia).
    pose proof (fold_bindBinding_find set (seq 0 i) (m, b) i) as Hf.
    pose proof (fold_bindBinding_other set (seq 0 i) (m, b) i) as Ho.
    destruct (foldl _ (m, b) (seq 0 i)) as [m1 b1].
    rewrite bool_decide_eq_false_2 in Hf by (rewrite elem_of_seq; lia).
    cbn [fst snd] in Hf, Ho. rewrite bindBinding_snd, Hf.
    apply update_lookup_eq. rewrite Ho; [done|]. rewrite elem_of_seq. lia.
  - intros j Hj. split.
    + rewrite fold_bindBinding_find. cbn [fst].
      rewrite bool_decide_eq_false_2; [done|]. rewrite elem_of_seq. lia.
    + rewrite fold_bindBinding_other; [done|]. rewrite elem_of_seq. lia.
Qed.

Lemma bindBindings_wires_column_witness :
  snd (bindBindings (null_date_record date_2000_01_01)
         [(0%nat, new_temporal Date)] [zero_bind]) !! 0%nat
  = Some (set_buffer (Internal 0) (set_is_null (Nullness 0) zero_bind)).
Proof.
  apply (bindBindings_wires_column (null_date_record date_2000_01_01)
           [(0%nat, new_temporal Date)] [zero_bind] 0 zero_bind);
    [simpl; lia | reflexivity].
Defined.

(** ** The wide-text parameter path *)

(** X15: [convertParam] of a WTEXT column.  It returns only if the input
    buffer sized for the string is empty (the string is), in which case the
    codec is not called, or the codec reports [ok];
    the conversion's length is then the number of bytes left in the input
    buffer, at most the characters times [sizeof(wchar_t)].  Otherwise it
    raises [CodeCvt] after one call of the codec, with the input buffer left
    at its full size and the conversion's length not updated. *)
Theorem Wtext_convertParam_outcomes d parameters i c data e :
  find i (paramsConversions e) = Some c -> kind c = Wtext ->
  load parameters (external c) = Some (VWide data) ->
  let room := Z.to_nat (Z.of_nat (length data) * sizeof_wchar_t d) in
  match TypedConversion.convertParam d parameters i e with
  | (Return _, e') =>
      (room = 0%nat \/ fst (utf8_out d data room) = ok) /\
      (exists c', find i (paramsConversions e') = Some c' /\
         conv_length c' = Z.of_nat (length (inputBuffer c')) /\
         (length (inputBuffer c') <= room)%nat) /\
      count codecvt_out (log e')
      = (count codecvt_out (log e) + (if (room =? 0)%nat then 0 else 1))%nat
  | (Throw x, e') =>
      x = CodeCvt /\ room <> 0%nat /\ fst (utf8_out d data room) <> ok /\
      count codecvt_out (log e') = S (count codecvt_out (log e)) /\
      exists c', find i (paramsConversions e') = Some c' /\
         conv_length c' = conv_length c /\ length (inputBuffer c') = room
  end.
Proof.
  intros Hc Hk Hl room.
  unfold TypedConversion.convertParam, bind at 1, get. rewrite Hc, Hk, Hl.
  fold room. rewrite length_resize.
  unfold TypedConversion.alter_param, TypedConversion.set_param_buffer.
  unfold bind at 1, modify at 1.
  destruct (Nat.eqb_spec room 0) as [Hz|Hnz].
  - unfold bind, modify, get, ret. cbn [paramsConversions paramsBindings with_params with_log log fst snd].
    rewrite !find_alter_same, Hc. cbn [fmap option_fmap option_map].
    split; [by left|]. split; [|simpl; lia].
    eexists. split; [reflexivity|]. cbn [conv_length inputBuffer set_conv_length set_inputBuffer].
    rewrite length_resize. split; [done|lia].
  - unfold bind at 2, call, modify at 1.
    destruct (utf8_out d data room) as [r bytes] eqn:Eu.
    destruct r; cbn [TypedConversion.codecvt_result_is_ok fst].
    2-4: unfold bind, modify, throw;
         cbn [paramsConversions paramsBindings with_params with_log log fst snd];
         rewrite !find_alter_same, Hc; cbn [fmap option_fmap option_map];
         (split; [done|]); (split; [done|]); (split; [done|]);
         (split; [by rewrite count_snoc_eq|]);
         eexists; (split; [reflexivity|]);
         cbn [conv_length inputBuffer set_conv_length set_inputBuffer];
         by rewrite length_overwrite, length_resize.
    unfold bind, modify, get, ret.
    cbn [paramsConversions paramsBindings with_params with_log log fst snd].
    rewrite !find_alter_same, Hc. cbn [fmap option_fmap option_map].
    split; [by right|]. split.
    + eexists. split; [reflexivity|].
      cbn [conv_length inputBuffer set_conv_length set_inputBuffer].
      rewrite !length_resize. split; [done|lia].
    + simpl. rewrite count_snoc_eq. lia.
Qed.

Lemma Wtext_convertParam_outcomes_witness :
  match TypedConversion.convertParam quiet_driver wide_record 0 wide_bound_env with
  | (Return _, _) => False
  | (Throw x, e') =>
      x = CodeCvt /\
      exists c', find 0%nat (paramsConversions e') = Some c' /\
                 conv_length c' = 0 /\ length (inputBuffer c') = 4%nat
  end.
Proof.
  pose proof (Wtext_convertParam_outcomes quiet_driver wide_record 0
                (set_external (SqlPtr 0) (new_variable Wtext 0 MYSQL_TYPE_STRING))
                [-1] wide_bound_env eq_refl eq_refl eq_refl) as H.
  cbv zeta in H.
  destruct (TypedConversion.convertParam quiet_driver wide_record 0
              wide_bound_env) as [[[]|x] e'] eqn:E.
  - apply (f_equal fst) in E. vm_compute in E. discriminate.
  - destruct H as (Hx & _ & _ & _ & c' & Hc' & Hlen & Hbuf).
    split; [exact Hx|]. exists c'. split; [exact Hc'|]. split; [exact Hlen | exact Hbuf].
Defined.

(** ** The conversion objects stay the ones the builder made *)

Global Instance same_identities_preorder : PreOrder same_identities.
Proof.
  split; [by intros e | intros e1 e2 e3 [A1 B1] [A2 B2]].
  split; congruence.
Qed.

Lemma map_identity_alter i f m :
  (forall c, kind (f c) = kind c /\ column (f c) = column c /\
             bufferType (f c) = bufferType c) ->
  map identity (alter i f m) = map identity m.
Proof.
  intros Hf. induction m as [|[j c] m IH]; cbn [alter map]; [done|].
  destruct (Nat.eqb i j); cbn [map].
  - f_equal. unfold identity. cbn [fst snd].
    destruct (Hf c) as (-> & -> & ->). done.
  - by rewrite IH.
Qed.

Lemma bindBinding_identity set i st :
  map identity (fst (bindBinding set i st)) = map identity (fst st).
Proof.
  destruct st as [c b]. unfold bindBinding.
  destruct (find i c); cbn [fst]; [|done].
  by apply map_identity_alter.
Qed.

Lemma bindBindings_identity set c b :
  map identity (fst (bindBindings set c b)) = map identity c.
Proof.
  unfold bindBindings. generalize (seq 0 (numberOfSqlElements set)).
  intros l. change c with (fst (c, b)) at 2. generalize (c, b).
  induction l as [|i l IH]; intros st; cbn [foldl]; [done|].
  rewrite IH. apply bindBinding_identity.
Qed.

Ltac identities_base :=
  unfold same_identities; simpl;
  rewrite ?bindBindings_identity, ?map_identity_alter by done; done.

Lemma fetch_loop_same_identities fuel d :
  keeps same_identities (Statement.fetch_loop fuel d).
Proof.
  induction fuel as [|fuel IH]; simpl.
  - apply keeps_ret; tc_solve.
  - apply keeps_bind; [tc_solve | | intros []; [exact IH | apply keeps_ret; tc_solve]].
    unfold_model.
    keeps_steps' ltac:(apply run_grabIt_keeps; [tc_solve| |]) ltac:(identities_base).
Qed.

(** X16: a run of [execute], returning or raising, neither adds nor removes
    a conversion object on either side, nor changes the column one is stored
    under, its kind, the column it fetches or its type code. *)
Theorem execute_keeps_conversion_objects d parameters results insertId rows e :
  let e' := snd (Statement.execute d parameters results insertId rows e) in
  map identity (paramsConversions e') = map identity (paramsConversions e) /\
  map identity (resultsConversions e') = map identity (resultsConversions e).
Proof.
  cbv zeta. change (same_identities e
    (snd (Statement.execute d parameters results insertId rows e))).
  revert e. change (keeps same_identities
    (Statement.execute d parameters results insertId rows)).
  unfold_model.
  keeps_steps' ltac:(first [apply fetch_loop_same_identities
                           | apply run_grabIt_keeps; [tc_solve| |]])
               ltac:(identities_base).
Qed.

(** ** What the parameter step hands to the driver *)

Global Instance same_column_preorder i : PreOrder (same_column i).
Proof.
  split.
  - intros e Hk. done.
  - intros e1 e2 e3 H1 H2 Hk. destruct (H1 Hk) as (Hk2 & A1 & B1).
    destruct (H2 Hk2) as (Hk3 & A2 & B2).
    split; [done|]. split; congruence.
Qed.

Lemma keyed_alter j f m :
  (forall c, kind (f c) = kind c /\ column (f c) = column c) ->
  keyed m -> keyed (alter j f m).
Proof.
  intros Hf Hm k c. rewrite find_alter. destruct (Nat.eqb k j); [|apply Hm].
  destruct (find k m) as [c0|] eqn:E; [|done].
  cbn. intros [= <-]. destruct (Hf c0) as [-> ->]. by apply Hm.
Qed.

Lemma for_each_app {A} (l1 l2 : list A) body e :
  for_each (l1 ++ l2) body e
  = bind (for_each l1 body) (fun _ => for_each l2 body) e.
Proof.
  revert e. induction l1 as [|a l1 IH]; intros e; cbn [app for_each]; [done|].
  unfold bind. destruct (body a e) as [[[]|x] e1]; [|done].
  rewrite IH. reflexivity.
Qed.

Ltac column_base Hne Hcol :=
  unfold same_column; simpl; intros;
  split;
  [ first [ assumption | apply keyed_alter; done ]
  | split;
    [ first [ reflexivity
            | rewrite find_alter;
              match goal with
              | |- context [Nat.eqb ?a ?b] =>
                  destruct (Nat.eqb_spec a b); [congruence | reflexivity]
              end ]
    | first [ reflexivity
            | apply update_lookup_ne; rewrite Hcol; exact Hne ] ] ].

(** The conversion of parameter column [j] leaves the other columns
    alone. *)
Lemma convertParam_other d set i j :
  j <> i -> keeps (same_column i) (TypedConversion.convertParam d set j).
Proof.
  intros Hne e Hk.
  assert (Hcol : forall c, find j (paramsConversions e) = Some c ->
                   match kind c with
                   | Blob | Text | Wtext => column c = j
                   | _ => True
                   end) by (intros c; apply Hk).
  revert Hk.
  change (same_column i e (snd (TypedConversion.convertParam d set j e))).
  unfold TypedConversion.convertParam, bind at 1.
  unfold get at 1. cbv beta iota.
  destruct (find j (paramsConversions e)) as [c|]; [|reflexivity].
  specialize (Hcol c eq_refl).
  match goal with
  | |- same_column i e (snd (?m e)) => assert (Hb : keeps (same_column i) m)
  end; [|apply Hb].
  clear e.
  destruct (kind c); destruct (load set (external c)) as [[]|];
    unfold_model;
    keeps_steps' ltac:(fail) ltac:(column_base Hne Hcol).
Qed.

Lemma for_each_convertParam_other d set i l :
  i ∉ l ->
  keeps (same_column i) (for_each l (fun j => TypedConversion.convertParam d set j)).
Proof.
  induction l as [|j l IH]; intros Hi; cbn [for_each].
  - apply keeps_ret; tc_solve.
  - apply not_elem_of_cons in Hi as [Hij Hi].
    apply keeps_bind; [tc_solve | apply convertParam_other; congruence | auto].
Qed.

Ltac own_finish Hc Hb Hcol Hptr :=
  cbn [paramsConversions paramsBindings with_params with_log log fst snd];
  rewrite ?find_alter_same, ?Hc; cbn [fmap option_fmap option_map];
  rewrite ?Hcol;
  eexists _, _;
  split; [reflexivity|];
  split; [first [exact Hb | apply update_lookup_eq; exact Hb]|];
  split; [reflexivity|]; split; [first [reflexivity | assumption]|];
  split; [reflexivity|];
  split; [| intros; repeat (apply keyed_alter; [done|]); assumption].

(** The conversion of parameter column [i] itself, when it returns. *)
Lemma convertParam_own d set i c b v e e' :
  find i (paramsConversions e) = Some c ->
  match kind c with Blob | Text | Wtext => column c = i | _ => True end ->
  paramsBindings e !! i = Some b ->
  buffer b = getPointer i c ->
  load set (external c) = Some v ->
  TypedConversion.convertParam d set i e = (Return tt, e') ->
  exists c' b',
    find i (paramsConversions e') = Some c' /\
    paramsBindings e' !! i = Some b' /\
    external c' = external c /\ kind c' = kind c /\ is_null b' = is_null b /\
    handed_over d i (kind c) v b' c' /\
    (keyed (paramsConversions e) -> keyed (paramsConversions e')).
Proof.
  intros Hc Hcol Hb Hptr Hl.
  unfold TypedConversion.convertParam, bind at 1. unfold get at 1.
  cbv beta iota. rewrite Hc, Hl. unfold getPointer in Hptr.
  unfold handed_over.
  unfold TypedConversion.alter_param, TypedConversion.set_param_buffer.
  destruct (kind c) eqn:Ek; destruct v;
    try (unfold ret; intros [= <-]; eexists _, _; by repeat split).
  - (* Date *)
    unfold modify. intros [= <-]. own_finish Hc Hb Hcol Hptr. done.
  - (* Datetime *)
    unfold modify. intros [= <-]. own_finish Hc Hb Hcol Hptr. done.
  - (* Time *)
    unfold modify. intros [= <-]. own_finish Hc Hb Hcol Hptr. done.
  - (* Blob *)
    unfold bind, modify. intros [= <-]. own_finish Hc Hb Hcol Hptr. done.
  - (* Text *)
    unfold bind, modify. intros [= <-]. own_finish Hc Hb Hcol Hptr. done.
  - (* Wtext *)
    rewrite length_resize.
    set (room := Z.to_nat (Z.of_nat (length chars) * sizeof_wchar_t d)).
    unfold bind at 1, modify at 1.
    destruct (Nat.eqb_spec room 0) as [Hz|Hnz].
    + unfold bind, modify, get, ret. intros [= <-].
      cbn [paramsConversions paramsBindings with_params with_log log fst snd].
      rewrite !find_alter_same, Hc. cbn [fmap option_fmap option_map].
      own_finish Hc Hb Hcol Hptr.
      cbn [buffer set_buffer conv_length inputBuffer set_conv_length
             set_inputBuffer].
      unfold transcoded. fold room. rewrite Hz. cbn [Nat.eqb].
      split; [done|]. split; [done|]. split; [done | simpl; lia].
    + unfold bind at 2, call, modify at 1.
      destruct (utf8_out d chars room) as [r bytes] eqn:Eu.
      destruct r; cbn [TypedConversion.codecvt_result_is_ok];
        [|unfold bind, modify, throw; discriminate ..].
      unfold bind, modify, get, ret. intros [= <-].
      cbn [paramsConversions paramsBindings with_params with_log log fst snd].
      rewrite !find_alter_same, Hc. cbn [fmap option_fmap option_map].
      own_finish Hc Hb Hcol Hptr.
      cbn [buffer set_buffer conv_length inputBuffer set_conv_length
             set_inputBuffer].
      unfold transcoded. fold room. rewrite Eu. cbn [snd].
      destruct (Nat.eqb_spec room 0) as [|_]; [done|].
      rewrite (resize_overwrite _ _ room) by apply length_resize.
      split; [done|]. split; [done|]. split; [done|].
      rewrite length_take. lia.
Qed.

Lemma NoDup_List_filter {A} (p : A -> bool) (l : list A) :
  NoDup l -> NoDup (List.filter p l).
Proof.
  induction 1 as [|a l Ha Hl IH]; cbn [List.filter]; [constructor|].
  destruct (p a); [|done]. constructor; [|done].
  rewrite list_elem_of_In, filter_In, <- list_elem_of_In. tauto.
Qed.

Lemma map_fst_alter i f m : map fst (alter i f m) = map fst m.
Proof.
  induction m as [|[j c] m IH]; cbn [alter map]; [done|].
  destruct (Nat.eqb i j); cbn [map fst]; [done | by rewrite IH].
Qed.

Lemma bindBindings_keys set m b :
  map fst (fst (bindBindings set m b)) = map fst m.
Proof.
  unfold bindBindings. generalize (seq 0 (numberOfSqlElements set)).
  intros l. revert m b. induction l as [|i l IH]; intros m b; cbn [foldl]; [done|].
  destruct (bindBinding set i (m, b)) as [m1 b1] eqn:E.
  rewrite IH. apply (f_equal fst) in E. rewrite bindBinding_fst in E.
  cbn [fst] in E. subst m1. apply map_fst_alter.
Qed.

Lemma find_Some_key i m c : find i m = Some c -> i ∈ map fst m.
Proof.
  induction m as [|[j c'] m IH]; cbn [find map fst]; [done|].
  destruct (Nat.eqb_spec i j) as [->|Hne].
  - intros _. apply list_elem_of_here.
  - intros H. apply list_elem_of_further. auto.
Qed.

Lemma find_None_key i m : find i m = None -> i ∉ map fst m.
Proof.
  induction m as [|[j c'] m IH]; cbn [find map fst].
  - intros _. apply not_elem_of_nil.
  - destruct (Nat.eqb_spec i j) as [->|Hne]; [done|].
    intros H. apply not_elem_of_cons. auto.
Qed.

(** The descriptors the builder leaves have no null indicator wired. *)
Lemma buildBindings_is_null set m i b :
  snd (buildBindings set m) !! i = Some b -> is_null b = NULL.
Proof.
  intros H. pose proof (lookup_lt_Some _ _ _ H) as Hi.
  rewrite buildBindings_length in Hi. unfold numberOfSqlElements in Hi.
  rewrite buildBindings_lookup in H by done.
  assert (Hz : replicate (S i) zero_bind !! i = Some zero_bind)
    by (apply lookup_replicate_2; lia).
  destruct (buildBinding_update set i) as [g Hg].
  revert H. unfold buildBinding, getSqlType.
  destruct (set !! i) as [f|].
  - destruct (sqlType f); eval_kind; cbn [snd]; rewrite ?update_update;
      rewrite ?(update_lookup_eq _ _ _ _ Hz); rewrite ?Hz; by intros [= <-].
  - eval_kind; cbn [snd]; rewrite ?update_update;
      rewrite ?(update_lookup_eq _ _ _ _ Hz); rewrite ?Hz; by intros [= <-].
Qed.

Lemma keyed_conversion_of set m :
  (forall i, find i m = set_external (data_pointer set i) <$> conversion_of set i) ->
  keyed m.
Proof.
  intros H j c. rewrite H. unfold conversion_of.
  destruct (set !! j) as [f|]; [|done].
  destruct (sqlType f); cbn; try done; by intros [= <-].
Qed.

Lemma load_data_pointer set i f :
  set !! i = Some f -> load set (data_pointer set i) = Some (payload f).
Proof.
  intros Hf. unfold data_pointer, load.
  destruct (code U_TINY_N <=? getSqlType set i); cbn [field_of]; by rewrite Hf.
Qed.

(** X17: what the parameter step of [execute] hands to the driver, on a
    statement whose parameter side [init] built from the record's
    description.  When the step returns, the descriptor of every column has
    its null indicator wired exactly when the kind is nullable; a column
    without a conversion object is bound to the caller's value in place; a
    temporal column is bound to the scratch of its conversion object, which
    holds the converted value; a BLOB or TEXT column is bound to the caller's
    bytes with their number as the length; a WTEXT column is bound to the
    conversion's input buffer, which holds the bytes the codec wrote for the
    string and nothing more, with their number as the length. *)
Theorem bind_parameters_hands_over d set e e' i f :
  (paramsConversions e, paramsBindings e) = buildBindings set [] ->
  Statement.bind_parameters d (Some set) e = (Return tt, e') ->
  set !! i = Some f ->
  exists b,
    paramsBindings e' !! i = Some b /\
    is_null b = (if nullable f then Nullness i else NULL) /\
    match conversion_of set i with
    | None =>
        buffer b = data_pointer set i /\ find i (paramsConversions e') = None
    | Some c0 =>
        exists c,
          find i (paramsConversions e') = Some c /\
          kind c = kind c0 /\ external c = data_pointer set i /\
          handed_over d i (kind c0) (payload f) b c
    end.
Proof.
  intros Hbuilt Hrun Hf.
  assert (Hm0 : paramsConversions e = fst (buildBindings set []))
    by (by rewrite <- Hbuilt).
  assert (Hb0 : paramsBindings e = snd (buildBindings set []))
    by (by rewrite <- Hbuilt).
  pose proof (lookup_lt_Some _ _ _ Hf) as Hi.
  destruct (snd (buildBindings set []) !! i) as [b0|] eqn:Eb0.
  2:{ apply lookup_ge_None in Eb0. rewrite buildBindings_length in Eb0.
      unfold numberOfSqlElements in Eb0. lia. }
  pose proof (buildBindings_is_null _ _ _ _ Eb0) as Hnull.
  unfold Statement.bind_parameters in Hrun.
  apply bind_Return in Hrun as ([] & e1 & H1 & Hrun).
  apply bind_Return in Hrun as (? & ? & Hg & Hrun).
  unfold get in Hg. unfold modify in H1. simplify_eq.
  set (e1 := with_params _ e) in *.
  assert (Hfind : forall j,
    find j (paramsConversions e1)
    = set_external (data_pointer set j) <$> conversion_of set j).
  { intros j. subst e1. cbn [paramsConversions with_params].
    unfold bindBindings. rewrite fold_bindBinding_find. cbn [fst].
    rewrite Hm0, buildBindings_find. cbn [find].
    destruct (bool_decide _) eqn:E; [by destruct (conversion_of set j)|].
    apply bool_decide_eq_false in E. rewrite elem_of_seq in E.
    unfold conversion_of. rewrite lookup_ge_None_2; [done|].
    unfold numberOfSqlElements in E. lia. }
  assert (Hdesc : paramsBindings e1 !! i
                  = Some (wired set i (find i (paramsConversions e)) b0)).
  { subst e1. cbn [paramsBindings with_params].
    unfold bindBindings, numberOfSqlElements.
    rewrite (seq_split (length set) i Hi).
    rewrite !foldl_app. cbn [foldl app].
    rewrite fold_bindBinding_other by (rewrite elem_of_seq; lia).
    pose proof (fold_bindBinding_find set (seq 0 i)
                  (paramsConversions e, paramsBindings e) i) as Hf1.
    pose proof (fold_bindBinding_other set (seq 0 i)
                  (paramsConversions e, paramsBindings e) i) as Ho.
    destruct (foldl _ _ (seq 0 i)) as [m1 b1].
    rewrite bool_decide_eq_false_2 in Hf1 by (rewrite elem_of_seq; lia).
    cbn [fst snd] in Hf1, Ho. rewrite bindBinding_snd, Hf1.
    apply update_lookup_eq. rewrite Ho by (rewrite elem_of_seq; lia).
    by rewrite Hb0. }
  rewrite Hm0, buildBindings_find in Hdesc. cbn [find] in Hdesc.
  assert (Hkeyed : keyed (paramsConversions e1))
    by (by apply (keyed_conversion_of set)).
  assert (Hnodup : NoDup (map fst (paramsConversions e1))).
  { subst e1. cbn [paramsConversions with_params].
    rewrite bindBindings_keys, Hm0, buildBindings_keys.
    apply NoDup_List_filter, NoDup_seq. }
  assert (Hn : (code U_TINY_N <=? getSqlType set i) = nullable f)
    by (unfold getSqlType, nullable; by rewrite Hf).
  pose proof (Hfind i) as Hfi.
  clearbody e1. clear Hfind.
  destruct (conversion_of set i) as [c0|] eqn:Ec0; cbn in Hfi.
  - (* the column has a conversion object *)
    pose proof (find_Some_key _ _ _ Hfi) as Hin.
    apply list_elem_of_split in Hin as (l1 & l2 & Hl).
    rewrite Hl in Hnodup, Hrun.
    apply NoDup_app in Hnodup as (_ & Hl1 & Hl2).
    apply NoDup_cons in Hl2 as [Hl2 _].
    assert (Hi1 : i ∉ l1).
    { intros Hin. apply (Hl1 i Hin). apply list_elem_of_here. }
    rewrite for_each_app in Hrun.
    apply bind_Return in Hrun as ([] & ea & Ha & Hrun).
    cbn [for_each] in Hrun.
    apply bind_Return in Hrun as ([] & eb & Hb & Hrun).
    pose proof (keeps_Return _ _ _ _ _
                  (for_each_convertParam_other d set i l1 Hi1) Ha Hkeyed)
      as (Hka & Hfa & Hba).
    rewrite Hfi in Hfa. rewrite Hdesc in Hba.
    destruct (convertParam_own d set i _ (wired set i (Some c0) b0)
                (payload f) ea eb Hfa) as
      (c' & b' & Hfb & Hbb & Hext & Hkind & Hnl & Hho & Hkb);
      [ exact (Hka _ _ Hfa) | exact Hba | reflexivity
      | by apply load_data_pointer | exact Hb | ].
    pose proof (keeps_Return _ _ _ _ _
                  (for_each_convertParam_other d set i l2 Hl2) Hrun (Hkb Hka))
      as (_ & Hfe & Hbe).
    exists b'. rewrite Hbe. split; [done|]. split.
    { rewrite Hnl. unfold wired. rewrite Hn. by destruct (nullable f). }
    exists c'. rewrite Hfe. done.
  - (* the column has none *)
    pose proof (find_None_key _ _ Hfi) as Hnin.
    pose proof (keeps_Return _ _ _ _ _
                  (for_each_convertParam_other d set i _ Hnin) Hrun Hkeyed)
      as (_ & Hfe & Hbe).
    rewrite Hfi in Hfe. rewrite Hdesc in Hbe.
    eexists. split; [exact Hbe|]. unfold wired. rewrite Hn.
    split; [by destruct (nullable f)|]. by destruct (nullable f).
Qed.

Lemma bind_parameters_hands_over_witness :
  (let e' := snd (Statement.bind_parameters quiet_driver
                    (Some (null_int_record 0)) null_int_env) in
   exists b,
     paramsBindings e' !! 1%nat = Some b /\ is_null b = NULL /\
     exists c,
       find 1%nat (paramsConversions e') = Some c /\
       kind c = Date /\ external c = SqlPtr 1 /\
       buffer b = Internal 1 /\
       internal c = TypedConversion.Date_param date_2024_02_29) /\
  (let e' := snd (Statement.bind_parameters quiet_driver (Some abc_record)
                    abc_env) in
   exists b,
     paramsBindings e' !! 0%nat = Some b /\ is_null b = NULL /\
     exists c,
       find 0%nat (paramsConversions e') = Some c /\
       kind c = Wtext /\ external c = SqlPtr 0 /\
       buffer b = InputBufferFront 0 /\
       inputBuffer c = [97; 98; 99] /\ conv_length c = 3).
Proof.
  cbv zeta. split.
  - apply (bind_parameters_hands_over quiet_driver (null_int_record 0)
             null_int_env _ 1 (field DATE (VDate date_2024_02_29)));
      [ vm_compute; reflexivity | vm_compute; reflexivity | reflexivity ].
  - destruct (bind_parameters_hands_over quiet_driver abc_record abc_env
                (snd (Statement.bind_parameters quiet_driver (Some abc_record)
                        abc_env))
                0 (field WTEXT (VWide [97; 98; 99])))
      as (b & Hb & Hn & c & Hc & Hk & He & Hbuf & Hin & Hlen & _);
      [ vm_compute; reflexivity | vm_compute; reflexivity | reflexivity | ].
    exists b. split; [exact Hb|]. split; [exact Hn|].
    exists c. split; [exact Hc|]. split; [exact Hk|]. split; [exact He|].
    split; [exact Hbuf|]. split; [exact Hin|].
    rewrite Hlen, Hin. reflexivity.
Defined.

(** ** The found-rows descriptor *)

Global Instance same_found_rows_shape_preorder : PreOrder same_found_rows_shape.
Proof. split; unfold same_found_rows_shape; [by intros e | congruence]. Qed.

Ltac found_rows_base := unfold same_found_rows_shape; simpl; done.

Lemma getFoundRows_same_found_rows_shape d :
  keeps same_found_rows_shape (Connection.getFoundRows d).
Proof. unfold_model. keeps_steps' ltac:(fail) ltac:(found_rows_base). Qed.

Lemma fetch_loop_same_found_rows_shape fuel d :
  keeps same_found_rows_shape (Statement.fetch_loop fuel d).
Proof.
  induction fuel as [|fuel IH]; simpl.
  - apply keeps_ret; tc_solve.
  - apply keeps_bind; [tc_solve | | intros []; [exact IH | apply keeps_ret; tc_solve]].
    unfold_model.
    keeps_steps' ltac:(apply run_grabIt_keeps; [tc_solve| |])
                 ltac:(found_rows_base).
Qed.

(** X18: the found-rows descriptor.  A [connect] that returns leaves it
    zero-filled but for the type code of a 64-bit integer and the unsigned
    flag; [getFoundRows], [Statement::init] and every run of [execute],
    returning or raising, keep its type code, unsigned flag, capacity and
    length pointer. *)
Theorem found_rows_descriptor_stays d e :
  (forall e1,
     Connection.connect d e = (Return tt, e1) ->
     foundRowsBinding e1
     = set_is_unsigned true (set_buffer_type MYSQL_TYPE_LONGLONG zero_bind)) /\
  shape (foundRowsBinding (snd (Connection.getFoundRows d e)))
  = shape (foundRowsBinding e) /\
  (forall queryString parameterSet resultSet,
     shape (foundRowsBinding
              (snd (Statement.init d queryString parameterSet resultSet e)))
     = shape (foundRowsBinding e)) /\
  (forall parameters results insertId rows,
     shape (foundRowsBinding
              (snd (Statement.execute d parameters results insertId rows e)))
     = shape (foundRowsBinding e)).
Proof.
  split; [|split; [|split]].
  - intros e1 H. unfold Connection.connect in H.
    do 10 (apply bind_Return in H as (? & ? & _ & H)).
    unfold modify in H. by injection H as <-.
  - apply getFoundRows_same_found_rows_shape.
  - intros queryString parameterSet resultSet.
    change (same_found_rows_shape e
      (snd (Statement.init d queryString parameterSet resultSet e))).
    revert e. change (keeps same_found_rows_shape
      (Statement.init d queryString parameterSet resultSet)).
    unfold_model. keeps_steps' ltac:(fail) ltac:(found_rows_base).
  - intros parameters results insertId rows.
    change (same_found_rows_shape e
      (snd (Statement.execute d parameters results insertId rows e))).
    revert e. change (keeps same_found_rows_shape
      (Statement.execute d parameters results insertId rows)).
    unfold_model.
    keeps_steps' ltac:(first [ apply fetch_loop_same_found_rows_shape
                             | apply run_grabIt_keeps; [tc_solve| |] ])
                 ltac:(found_rows_base).
Qed.

Lemma found_rows_descriptor_stays_witness :
  shape (foundRowsBinding (snd (Connection.connect quiet_driver (fresh_env [] []))))
  = (MYSQL_TYPE_LONGLONG, true, 0, NULL).
Proof.
  rewrite (proj1 (found_rows_descriptor_stays quiet_driver (fresh_env [] []))
             (snd (Connection.connect quiet_driver (fresh_env [] []))));
    reflexivity.
Defined.
